(** * webmesh: mesh-store observer, Join RPC, admin ACL deletion and campfire

    A shallow embedding of the control-plane code of the repository:

    - [Mesh.observer]            the closure returned by [meshStore.newObserver];
    - [NodeServer.Join]          the admission RPC of [pkg/services/node];
    - [Admin.DeleteNetworkACL]   the leader-only ACL deletion RPC;
    - [Campfire.New], [Campfire.Close], [Campfire.Ready], [Campfire.Errors]
                                 the rendezvous connection of [pkg/campfire].

    Collaborators that live outside the modelled functions (the raft engine,
    the registry accessors, the IPAM allocator, the RBAC evaluator, pion's
    peer connection) are fields of a record: the value a field holds is what
    the collaborator answers when the modelled function calls it.  Every call
    with an effect and every log line is appended to a trace, in program
    order. *)

From Stdlib Require Import ZArith Ascii String List DecimalString Bool Lia.
From stdpp Require Import gmap strings list fin_maps.

Open Scope string_scope.
Open Scope list_scope.
Open Scope Z_scope.

(** ** Go values *)

(** A non-nil Go [error], by its [Error()] text; [option error] is a Go
    [error] value, [None] being [nil]. *)
Definition error := string.

(** Go's [int] on the 64-bit platforms the node is built for: arithmetic
    wraps around modulo [2^64] into [-2^63 .. 2^63-1]. *)
Definition max_int : Z := 2 ^ 63 - 1.
Definition min_int : Z := - 2 ^ 63.
Definition wrap_int (z : Z) : Z := (z + 2 ^ 63) mod 2 ^ 64 - 2 ^ 63.

(** [strconv.Itoa]. *)
Definition Itoa (z : Z) : string := NilZero.string_of_int (Z.to_int z).

(** [strings.HasPrefix s prefix]. *)
Definition HasPrefix (s prefix : string) : bool := String.prefix prefix s.

(** Does the byte [c] occur in [s] ([bytealg.IndexByteString s c >= 0])? *)
Fixpoint containsByte (c : ascii) (s : string) : bool :=
  match s with
  | EmptyString => false
  | String a rest => if Ascii.eqb a c then true else containsByte c rest
  end.

(** [net.JoinHostPort]: a host with a colon in it is an IPv6 literal and is
    put in square brackets. *)
Definition JoinHostPort (host port : string) : string :=
  if containsByte ":"%char host
  then "[" +:+ host +:+ "]:" +:+ port
  else host +:+ ":" +:+ port.

(** ** Structured logging ([log/slog]) *)

Inductive Level := LevelDebug | LevelInfo | LevelWarn | LevelError.

Record LogLine := mkLog {
  level : Level;
  message : string;
  attrs : list (string * string)
}.

Definition logDebug (m : string) (a : list (string * string)) := mkLog LevelDebug m a.
Definition logInfo (m : string) (a : list (string * string)) := mkLog LevelInfo m a.
Definition logWarn (m : string) (a : list (string * string)) := mkLog LevelWarn m a.
Definition logError (m : string) (a : list (string * string)) := mkLog LevelError m a.

(** ** [net/netip] *)

Module netip.

(** [netip.Addr]: the zero value is not a valid address; a valid address is
    kept by its canonical text, which is what the code compares and prints. *)
Inductive Addr := ZeroAddr | IP (text : string).

Definition Addr_IsValid (a : Addr) : bool :=
  match a with ZeroAddr => false | IP _ => true end.

Definition Addr_String (a : Addr) : string :=
  match a with ZeroAddr => "invalid IP" | IP t => t end.

(** [netip.Prefix]: an address and a prefix length; the zero value carries
    the zero address. *)
Record Prefix := mkPrefix { Addr_ : Addr; Bits : Z }.

Definition ZeroPrefix : Prefix := mkPrefix ZeroAddr 0.

Definition Prefix_IsValid (p : Prefix) : bool := Addr_IsValid (Addr_ p).

Definition Prefix_String (p : Prefix) : string :=
  match Addr_ p with
  | ZeroAddr => "invalid Prefix"
  | IP t => t +:+ "/" +:+ Itoa (Bits p)
  end.

(** [netip.AddrPortFrom(a, port).String()]: IPv6 literals are bracketed. *)
Definition AddrPort_String (a : Addr) (port : Z) : string :=
  match a with
  | ZeroAddr => "invalid AddrPort"
  | IP t => JoinHostPort t (Itoa port)
  end.

End netip.

(** ** The node record of the registry ([peers.Node])

    The declaration of [peers.Node] is not among the sources modelled here; the record
    has the fields the observer and the Join RPC read and write.  The public
    key is kept by its [String()] text, which is how the code compares it. *)

Module peers.

Record Node := mkNode {
  ID : string;
  PublicKey : string;
  PrimaryEndpoint : netip.Addr;
  Endpoints : list netip.Addr;
  NetworkIPv6 : netip.Prefix;
  PrivateIPv4 : netip.Prefix;
  GRPCPort : Z;
  RaftPort : Z;
  WireguardPort : Z
}.

Record CreateOptions := mkCreateOptions {
  co_ID : string;
  co_PublicKey : string;
  co_PrimaryEndpoint : netip.Addr;
  co_Endpoints : list netip.Addr;
  co_NetworkIPv6 : netip.Prefix;
  co_GRPCPort : Z;
  co_RaftPort : Z;
  co_WireguardPort : Z
}.

(** What [peers.Get] answers: the record, [ErrNodeNotFound], or another
    (database) error. *)
Inductive GetResult :=
| Found (n : Node)
| ErrNodeNotFound
| GetFailed (e : error).

End peers.

(** ** The mesh store's raft observer ([meshStore.newObserver]) *)

Module Mesh.

Inductive ServerSuffrage := Voter | Nonvoter | Staging.

Record Server := mkServer {
  Suffrage : ServerSuffrage;
  ServerID : string;
  Address : string
}.

(** The observation payloads the callback switches on; any other payload
    (vote requests, state changes) falls through the switch. *)
Inductive Observation :=
| FailedHeartbeatObservation (PeerID : string)
| ResumedHeartbeatObservation (PeerID : string)
| PeerObservation (Removed : bool) (Peer : Server)
| LeaderObservation (LeaderAddr LeaderID : string)
| OtherObservation (typeName : string).

(** [reflect.TypeOf(ev.Data).String()]. *)
Definition typeOf (ev : Observation) : string :=
  match ev with
  | FailedHeartbeatObservation _ => "raft.FailedHeartbeatObservation"
  | ResumedHeartbeatObservation _ => "raft.ResumedHeartbeatObservation"
  | PeerObservation _ _ => "raft.PeerObservation"
  | LeaderObservation _ _ => "raft.LeaderObservation"
  | OtherObservation t => t
  end.

Inductive WatchEvent :=
| WATCH_EVENT_UNKNOWN
| WATCH_EVENT_NODE_JOIN
| WATCH_EVENT_NODE_LEAVE
| WATCH_EVENT_LEADER_CHANGE.

Inductive ClusterStatus :=
| CLUSTER_STATUS_UNKNOWN
| CLUSTER_LEADER
| CLUSTER_VOTER
| CLUSTER_NON_VOTER.

(** [node.Proto(status)]: the node's serialized form with the cluster status
    it is given. *)
Record MeshNode := mkMeshNode {
  proto_node : peers.Node;
  proto_status : ClusterStatus
}.

Record Event := mkEvent {
  Type_ : WatchEvent;
  Node_ : MeshNode
}.

(** Calls the observer makes on its collaborators. *)
Inductive Call :=
| RemoveServer (id : string) (force : bool)
| PeersDelete (id : string)
| RefreshPeers
| PeersGet (id : string)
| Emit (ev : Event).

Inductive Step :=
| Called (c : Call)
| Logged (l : LogLine).

(** The fields of [meshStore] the observer reads, and what its collaborators
    answer at the time of the observation. *)
Record meshStore := mkStore {
  HeartbeatPurgeThreshold : Z;
  testStore : bool;
  nodeID : string;
  raft_IsLeader : bool;
  raft_RemoveServer : string -> bool -> option error;
  peers_Delete : string -> option error;
  nw_RefreshPeers : option error;
  plugins_HasWatchers : bool;
  peers_Get : string -> error + peers.Node;
  plugins_Emit : Event -> option error
}.

(** The observer's logger: [s.log.With("event", "observation")]. *)
Definition obsDebug (m : string) (a : list (string * string)) : LogLine :=
  logDebug m (("event", "observation") :: a).
Definition obsInfo (m : string) (a : list (string * string)) : LogLine :=
  logInfo m (("event", "observation") :: a).
Definition obsWarn (m : string) (a : list (string * string)) : LogLine :=
  logWarn m (("event", "observation") :: a).

(** [failedHeartBeats[pid]]: a missing key reads as zero. *)
Definition count (failedHeartBeats : gmap string Z) (pid : string) : Z :=
  default 0 (failedHeartBeats !! pid).

(** The event type and cluster status of a peer observation (the two
    function literals inside the [Emit] call). *)
Definition peerEventType (removed : bool) : WatchEvent :=
  if removed then WATCH_EVENT_NODE_LEAVE else WATCH_EVENT_NODE_JOIN.

Definition peerClusterStatus (removed : bool) (suffrage : ServerSuffrage) : ClusterStatus :=
  if removed then CLUSTER_STATUS_UNKNOWN
  else match suffrage with
       | Nonvoter => CLUSTER_NON_VOTER
       | _ => CLUSTER_VOTER
       end.

(** The [FailedHeartbeatObservation] case, after the threshold guard. *)
Definition onFailedHeartbeat (s : meshStore) (failedHeartBeats : gmap string Z)
    (pid : string) : gmap string Z * list Step :=
  let n := wrap_int (count failedHeartBeats pid + 1) in
  let fh := <[pid := n]> failedHeartBeats in
  let t1 := [Logged (obsDebug "failed heartbeat" [("peer", pid); ("count", Itoa n)])] in
  if (HeartbeatPurgeThreshold s <=? n) && raft_IsLeader s then
    let t2 := t1 ++ [Logged (obsInfo "failed heartbeat threshold reached, removing peer"
                               [("peer", pid)]);
                     Called (RemoveServer pid true)] in
    match raft_RemoveServer s pid true with
    | Some err => (fh, t2 ++ [Logged (obsWarn "failed to remove peer" [("error", err)])])
    | None =>
        let t3 := t2 ++ [Called (PeersDelete pid)] in
        let t4 := match peers_Delete s pid with
                  | Some err =>
                      t3 ++ [Logged (obsWarn "failed to remove peer from database"
                                       [("error", err)])]
                  | None => t3
                  end in
        (delete pid fh, t4)
    end
  else (fh, t1).

(** The [PeerObservation] case. *)
Definition onPeer (s : meshStore) (removed : bool) (peer : Server) : list Step :=
  if testStore s then []
  else if String.eqb (ServerID peer) (nodeID s) then []
  else
    let t1 := Called RefreshPeers ::
              match nw_RefreshPeers s with
              | Some err => [Logged (obsWarn "wireguard refresh peers" [("error", err)])]
              | None => []
              end in
    if plugins_HasWatchers s then
      let t2 := t1 ++ [Called (PeersGet (ServerID peer))] in
      match peers_Get s (ServerID peer) with
      | inl err =>
          t2 ++ [Logged (obsWarn "failed to lookup peer, can't emit event" [("error", err)])]
      | inr node =>
          let ev := mkEvent (peerEventType removed)
                      (mkMeshNode node (peerClusterStatus removed (Suffrage peer))) in
          t2 ++ Called (Emit ev) ::
          match plugins_Emit s ev with
          | Some err => [Logged (obsWarn "error sending node join/leave event" [("error", err)])]
          | None => []
          end
      end
    else t1.

(** The [LeaderObservation] case. *)
Definition onLeader (s : meshStore) (leaderID : string) : list Step :=
  if plugins_HasWatchers s then
    let t1 := [Called (PeersGet leaderID)] in
    match peers_Get s leaderID with
    | inl err =>
        t1 ++ [Logged (obsWarn "failed to get leader, may be fresh cluster, can't emit event"
                         [("error", err)])]
    | inr node =>
        let ev := mkEvent WATCH_EVENT_LEADER_CHANGE (mkMeshNode node CLUSTER_LEADER) in
        t1 ++ Called (Emit ev) ::
        match plugins_Emit s ev with
        | Some err => [Logged (obsWarn "error sending leader change event" [("error", err)])]
        | None => []
        end
    end
  else [].

(** The callback: the [failedHeartBeats] map it closes over is passed in and
    handed back; the second component is the trace of the invocation. *)
Definition observer (s : meshStore) (failedHeartBeats : gmap string Z) (ev : Observation)
    : gmap string Z * list Step :=
  let t0 := [Logged (obsDebug "received observation event" [("type", typeOf ev)])] in
  match ev with
  | FailedHeartbeatObservation pid =>
      if HeartbeatPurgeThreshold s <=? 0 then (failedHeartBeats, t0)
      else let '(fh, t) := onFailedHeartbeat s failedHeartBeats pid in (fh, t0 ++ t)
  | ResumedHeartbeatObservation pid =>
      if 0 <? HeartbeatPurgeThreshold s
      then (delete pid failedHeartBeats, t0)
      else (failedHeartBeats, t0)
  | PeerObservation removed peer => (failedHeartBeats, t0 ++ onPeer s removed peer)
  | LeaderObservation _ leaderID => (failedHeartBeats, t0 ++ onLeader s leaderID)
  | OtherObservation _ => (failedHeartBeats, t0)
  end.

(** The collaborator calls of a trace, in order, and the log lines. *)
Fixpoint calls (t : list Step) : list Call :=
  match t with
  | [] => []
  | Called c :: t' => c :: calls t'
  | Logged _ :: t' => calls t'
  end.

Fixpoint logs (t : list Step) : list LogLine :=
  match t with
  | [] => []
  | Called _ :: t' => logs t'
  | Logged l :: t' => l :: logs t'
  end.

(** The events handed to the plugin manager. *)
Fixpoint emitted (t : list Step) : list Event :=
  match t with
  | [] => []
  | Called (Emit ev) :: t' => ev :: emitted t'
  | _ :: t' => emitted t'
  end.

(** Delivering a sequence of observations, each to the store as it stands at
    that time. *)
Fixpoint deliver (fh : gmap string Z) (evs : list (meshStore * Observation))
    : gmap string Z * list Step :=
  match evs with
  | [] => (fh, [])
  | (s, ev) :: rest =>
      let '(fh1, t1) := observer s fh ev in
      let '(fh2, t2) := deliver fh1 rest in
      (fh2, t1 ++ t2)
  end.

(** The observer looked the node [id] up and found [node]. *)
Definition recordFound (s : meshStore) (t : list Step) (id : string) (node : peers.Node) : Prop :=
  In (PeersGet id) (calls t) /\ peers_Get s id = inr node.

(** "A purge failure is logged and keeps the counter", for both calls:
    whenever the purge is triggered and [RemoveServer] fails, or
    [RemoveServer] succeeds and [peers.Delete] fails, a warning is logged
    and the counter of the peer is still there afterwards. *)
Definition purge_failure_keeps_counter (s : meshStore) (fh : gmap string Z) (pid : string)
    : Prop :=
  let n := wrap_int (count fh pid + 1) in
  let r := observer s fh (FailedHeartbeatObservation pid) in
  0 < HeartbeatPurgeThreshold s ->
  HeartbeatPurgeThreshold s <= n ->
  raft_IsLeader s = true ->
  (exists err, raft_RemoveServer s pid true = Some err) \/
  (raft_RemoveServer s pid true = None /\ exists err, peers_Delete s pid = Some err) ->
  (exists l, In l (logs r.2) /\ level l = LevelWarn) /\
  r.1 !! pid = Some n.

End Mesh.

(** ** gRPC status codes ([google.golang.org/grpc/codes]) *)

Module codes.

Inductive Code :=
| OK
| InvalidArgument
| NotFound
| PermissionDenied
| FailedPrecondition
| Internal.

End codes.

(** [status.Error(code, msg)]. *)
Record Status := mkStatus {
  Code_ : codes.Code;
  Message_ : string
}.

(** ** The Join RPC ([pkg/services/node], [Server.Join]) *)

Module NodeServer.

Import peers.

Record JoinRequest := mkJoinRequest {
  Id : string;
  ReqPublicKey : string;
  ReqPrimaryEndpoint : string;
  ReqEndpoints : list string;
  GrpcPort : Z;
  ReqRaftPort : Z;
  ReqWireguardPort : Z;
  AssignIpv4 : bool;
  PreferRaftIpv6 : bool;
  AsVoter : bool
}.

Record WireguardPeer := mkWireguardPeer {
  wp_Id : string;
  wp_PublicKey : string;
  wp_PrimaryEndpoint : string;
  wp_Endpoints : list string;
  wp_AddressIpv4 : string;
  wp_AddressIpv6 : string
}.

Record JoinResponse := mkJoinResponse {
  NetworkIpv6 : string;
  AddressIpv4 : string;
  Peers : list WireguardPeer
}.

(** Calls of [Join] on its collaborators. *)
Inductive Call :=
| GetULAPrefix
| PeersGet (id : string)
| PeersUpdate (n : Node)
| PeersCreate (o : CreateOptions)
| Random64 (p : netip.Prefix)
| Acquire (id : string)
| ListPeers (id : string)
| AddVoter (id address : string)
| AddNonVoter (id address : string)
| RefreshWireguardPeers.

Inductive Step :=
| Called (c : Call)
| Logged (l : LogLine).

(** The receiver: the leadership flag and the cached ULA prefix, and what the
    collaborators answer during the call.  [ParseKey] and [ParseAddr] are the
    parsers of [wgtypes] and [netip]; a parsed key is kept by its text. *)
Record Server := mkServer {
  store_IsLeader : bool;
  ulaPrefix : netip.Prefix;
  meshstate_GetULAPrefix : netip.Prefix * option error;
  ParseKey : string -> error + string;
  ParseAddr : string -> error + netip.Addr;
  peers_Get : string -> GetResult;
  peers_Update : Node -> error + Node;
  peers_Create : CreateOptions -> error + Node;
  peers_ListPeers : string -> error + list Node;
  util_Random64 : netip.Prefix -> error + netip.Prefix;
  ipam_Acquire : string -> error + netip.Prefix;
  store_AddVoter : string -> string -> option error;
  store_AddNonVoter : string -> string -> option error;
  store_RefreshWireguardPeers : option error
}.

(** What a call of [Join] threads along: the [s.ulaPrefix] field, which the
    call may assign, and the trace so far. *)
Record JoinState := mkJoinState {
  cache : netip.Prefix;
  trace : list Step
}.

(** How a call ends: it returns, a gRPC status or a value, or it panics and
    returns nothing. *)
Inductive Outcome (A : Type) : Type :=
| Returned (r : Status + A)
| Panicked.

Arguments Returned {A} r.
Arguments Panicked {A}.

(** Computations that may return early with a gRPC status, or panic. *)
Definition M (A : Type) : Type := JoinState -> Outcome A * JoinState.

Definition ret {A} (a : A) : M A := fun st => (Returned (inr a), st).

Definition bind {A B} (m : M A) (k : A -> M B) : M B :=
  fun st =>
    match m st with
    | (Returned (inr a), st') => k a st'
    | (Returned (inl e), st') => (Returned (inl e), st')
    | (Panicked, st') => (Panicked, st')
    end.

Definition fail {A} (c : codes.Code) (msg : string) : M A :=
  fun st => (Returned (inl (mkStatus c msg)), st).

Definition panic {A} : M A := fun st => (Panicked, st).

Definition call (c : Call) : M unit :=
  fun st => (Returned (inr tt), mkJoinState (cache st) (trace st ++ [Called c])).

Definition say (l : LogLine) : M unit :=
  fun st => (Returned (inr tt), mkJoinState (cache st) (trace st ++ [Logged l])).

Definition getCache : M netip.Prefix := fun st => (Returned (inr (cache st)), st).

Definition setCache (p : netip.Prefix) : M unit :=
  fun st => (Returned (inr tt), mkJoinState p (trace st)).

Notation "'do' x <- m ; k" := (bind m (fun x => k))
  (at level 10, x name, m at level 100, k at level 200).
Notation "m ;; k" := (bind m (fun _ => k))
  (at level 100, k at level 200, right associativity).

(** The loop over [req.GetEndpoints()]: the first endpoint that does not
    parse ends the call. *)
Fixpoint parseEndpoints (s : Server) (l : list string) : error + list netip.Addr :=
  match l with
  | [] => inr []
  | e :: rest =>
      match ParseAddr s e with
      | inl err => inl err
      | inr a =>
          match parseEndpoints s rest with
          | inl err => inl err
          | inr r => inr (a :: r)
          end
      end
  end.

Global Instance Addr_eq_dec : EqDecision netip.Addr.
Proof. solve_decision. Defined.

Global Instance Prefix_eq_dec : EqDecision netip.Prefix.
Proof. solve_decision. Defined.

Definition set_PublicKey (p : Node) (k : string) : Node :=
  mkNode (ID p) k (PrimaryEndpoint p) (Endpoints p) (NetworkIPv6 p) (PrivateIPv4 p)
         (GRPCPort p) (RaftPort p) (WireguardPort p).
Definition set_GRPCPort (p : Node) (v : Z) : Node :=
  mkNode (ID p) (PublicKey p) (PrimaryEndpoint p) (Endpoints p) (NetworkIPv6 p) (PrivateIPv4 p)
         v (RaftPort p) (WireguardPort p).
Definition set_RaftPort (p : Node) (v : Z) : Node :=
  mkNode (ID p) (PublicKey p) (PrimaryEndpoint p) (Endpoints p) (NetworkIPv6 p) (PrivateIPv4 p)
         (GRPCPort p) v (WireguardPort p).
Definition set_WireguardPort (p : Node) (v : Z) : Node :=
  mkNode (ID p) (PublicKey p) (PrimaryEndpoint p) (Endpoints p) (NetworkIPv6 p) (PrivateIPv4 p)
         (GRPCPort p) (RaftPort p) v.
Definition set_PrimaryEndpoint (p : Node) (a : netip.Addr) : Node :=
  mkNode (ID p) (PublicKey p) a (Endpoints p) (NetworkIPv6 p) (PrivateIPv4 p)
         (GRPCPort p) (RaftPort p) (WireguardPort p).
Definition set_Endpoints (p : Node) (l : list netip.Addr) : Node :=
  mkNode (ID p) (PublicKey p) (PrimaryEndpoint p) l (NetworkIPv6 p) (PrivateIPv4 p)
         (GRPCPort p) (RaftPort p) (WireguardPort p).

(** [cmp.Equal(x, y)] on two [[]netip.Addr], as [Join] calls it: without
    options.  While one of the slices has no element, no two elements are
    compared and the answer is whether the other has none either (a nil and
    an empty slice are the same list here; [cmp] tells them apart, and the
    assignment that follows its answer then leaves the list as it was).  When
    both have elements, [cmp] compares two of them, meets the unexported
    fields of [netip.Addr], for which it has neither an option nor an [Equal]
    method, and panics: [None]. *)
Definition cmp_Equal (x y : list netip.Addr) : option bool :=
  match x, y with
  | [], [] => Some true
  | [], _ :: _ => Some false
  | _ :: _, [] => Some false
  | _ :: _, _ :: _ => None
  end.

(** The "peer already exists" branch up to the call of [peers.Update]: the
    fields of the stored record that differ from the request are
    overwritten, the primary endpoint only by a valid one.  [None] when the
    comparison of the endpoints panics. *)
Definition mergePeer (peer : Node) (publicKey : string) (req : JoinRequest)
    (primaryEndpoint : netip.Addr) (endpoints : list netip.Addr) : option Node :=
  let peer := if negb (String.eqb (PublicKey peer) publicKey)
              then set_PublicKey peer publicKey else peer in
  let peer := if negb (GRPCPort peer =? GrpcPort req)
              then set_GRPCPort peer (GrpcPort req) else peer in
  let peer := if negb (RaftPort peer =? ReqRaftPort req)
              then set_RaftPort peer (ReqRaftPort req) else peer in
  let peer := if negb (WireguardPort peer =? ReqWireguardPort req)
              then set_WireguardPort peer (ReqWireguardPort req) else peer in
  let peer := if netip.Addr_IsValid primaryEndpoint &&
                 negb (String.eqb (netip.Addr_String primaryEndpoint)
                                  (netip.Addr_String (PrimaryEndpoint peer)))
              then set_PrimaryEndpoint peer primaryEndpoint else peer in
  match cmp_Equal (Endpoints peer) endpoints with
  | None => None
  | Some equal => Some (if negb equal then set_Endpoints peer endpoints else peer)
  end.

(** [uint16(x)] of a Go [int]. *)
Definition uint16 (z : Z) : Z := z mod 2 ^ 16.

(** One entry of [resp.Peers]. *)
Definition renderPeer (peer : Node) : WireguardPeer :=
  mkWireguardPeer
    (ID peer)
    (PublicKey peer)
    (if netip.Addr_IsValid (PrimaryEndpoint peer)
     then netip.AddrPort_String (PrimaryEndpoint peer) (uint16 (WireguardPort peer))
     else "")
    (map (fun endpoint => netip.AddrPort_String endpoint (uint16 (WireguardPort peer)))
         (Endpoints peer))
    (if netip.Prefix_IsValid (PrivateIPv4 peer)
     then netip.Prefix_String (PrivateIPv4 peer) else "")
    (if netip.Prefix_IsValid (NetworkIPv6 peer)
     then netip.Prefix_String (NetworkIPv6 peer) else "").

(** The transport address handed to raft: the choice between the lease just
    acquired and the node's IPv6 address. *)
Definition raftAddressOf (req : JoinRequest) (lease : netip.Prefix) (peer : Node) : string :=
  if AssignIpv4 req && negb (PreferRaftIpv6 req)
  then JoinHostPort (netip.Addr_String (netip.Addr_ lease)) (Itoa (RaftPort peer))
  else JoinHostPort (netip.Addr_String (netip.Addr_ (NetworkIPv6 peer))) (Itoa (RaftPort peer)).

(** Lookup of the peer, then update or creation: the record [Join] goes on
    with. *)
Definition upsertPeer (s : Server) (req : JoinRequest) (publicKey : string)
    (primaryEndpoint : netip.Addr) (endpoints : list netip.Addr) : M Node :=
  call (PeersGet (Id req)) ;;
  match peers_Get s (Id req) with
  | GetFailed err => fail codes.Internal ("failed to get peer: " +:+ err)
  | Found peer =>
      say (logInfo "peer already exists, checking for updates" [("id", Id req)]) ;;
      match mergePeer peer publicKey req primaryEndpoint endpoints with
      | None => panic
      | Some peer =>
          call (PeersUpdate peer) ;;
          match peers_Update s peer with
          | inl err => fail codes.Internal ("failed to update peer: " +:+ err)
          | inr peer => ret peer
          end
      end
  | ErrNodeNotFound =>
      say (logInfo "registering new peer" [("id", Id req)]) ;;
      do prefix <- getCache ;
      call (Random64 prefix) ;;
      match util_Random64 s prefix with
      | inl err => fail codes.Internal ("failed to generate IPv6 address: " +:+ err)
      | inr networkIPv6 =>
          let opts := mkCreateOptions (Id req) publicKey primaryEndpoint endpoints networkIPv6
                        (GrpcPort req) (ReqRaftPort req) (ReqWireguardPort req) in
          call (PeersCreate opts) ;;
          match peers_Create s opts with
          | inl err => fail codes.Internal ("failed to create peer: " +:+ err)
          | inr peer => ret peer
          end
      end
  end.

(** Lazy resolution of the ULA prefix: the field is assigned whatever
    [GetULAPrefix] returns, also when it returns an error. *)
Definition resolvePrefix (s : Server) : M unit :=
  do cached <- getCache ;
  if netip.Prefix_IsValid cached then ret tt
  else
    call GetULAPrefix ;;
    let '(p, err) := meshstate_GetULAPrefix s in
    setCache p ;;
    match err with
    | Some e => fail codes.Internal ("failed to get ULA prefix: " +:+ e)
    | None => ret tt
    end.

(** Input validation: the id, the key, the primary endpoint, the endpoints.
    It reads the request only. *)
Definition validate (s : Server) (req : JoinRequest)
    : Status + (string * netip.Addr * list netip.Addr) :=
  if String.eqb (Id req) "" then inl (mkStatus codes.InvalidArgument "node id required")
  else
    match ParseKey s (ReqPublicKey req) with
    | inl err => inl (mkStatus codes.InvalidArgument ("invalid public key: " +:+ err))
    | inr publicKey =>
        match (if String.eqb (ReqPrimaryEndpoint req) "" then inr netip.ZeroAddr
               else ParseAddr s (ReqPrimaryEndpoint req)) with
        | inl err => inl (mkStatus codes.InvalidArgument ("invalid primary endpoint: " +:+ err))
        | inr primaryEndpoint =>
            match parseEndpoints s (ReqEndpoints req) with
            | inl err => inl (mkStatus codes.InvalidArgument ("invalid endpoint: " +:+ err))
            | inr endpoints => inr (publicKey, primaryEndpoint, endpoints)
            end
        end
    end.

Definition lift {A} (r : Status + A) : M A := fun st => (Returned r, st).

(** The lease of the request: acquired when [assignIPv4] is set, the zero
    prefix otherwise. *)
Definition acquireLease (s : Server) (req : JoinRequest) : M netip.Prefix :=
  if AssignIpv4 req then
    say (logInfo "assigning IPv4 address to peer" [("id", Id req)]) ;;
    call (Acquire (Id req)) ;;
    match ipam_Acquire s (Id req) with
    | inl err => fail codes.Internal ("failed to assign IPv4: " +:+ err)
    | inr lease =>
        say (logInfo "assigned IPv4 address to peer"
               [("id", Id req); ("ipv4", netip.Prefix_String lease)]) ;;
        ret lease
    end
  else ret netip.ZeroPrefix.

(** Admission to the raft cluster, as voter or non-voter. *)
Definition addToCluster (s : Server) (req : JoinRequest) (raftAddress : string) : M unit :=
  if AsVoter req then
    say (logInfo "adding candidate to cluster"
           [("id", Id req); ("raft_address", raftAddress)]) ;;
    call (AddVoter (Id req) raftAddress) ;;
    match store_AddVoter s (Id req) raftAddress with
    | Some err => fail codes.Internal ("failed to add candidate: " +:+ err)
    | None => ret tt
    end
  else
    say (logInfo "adding non-voter to cluster"
           [("id", Id req); ("raft_address", raftAddress)]) ;;
    call (AddNonVoter (Id req) raftAddress) ;;
    match store_AddNonVoter s (Id req) raftAddress with
    | Some err => fail codes.Internal ("failed to add non-voter: " +:+ err)
    | None => ret tt
    end.

(** The deferred refresh of the wireguard peers; its failure is a warning. *)
Definition deferredRefresh (s : Server) (req : JoinRequest) : M unit :=
  call RefreshWireguardPeers ;;
  match store_RefreshWireguardPeers s with
  | Some err => say (logWarn "failed to refresh wireguard peers"
                       [("id", Id req); ("error", err)])
  | None => ret tt
  end.

(** The first part of [Join], up to the node record: prefix, validation,
    lookup and update or creation. *)
Definition admission (s : Server) (req : JoinRequest) : M Node :=
  resolvePrefix s ;;
  do v <- lift (validate s req) ;
  upsertPeer s req v.1.1 v.1.2 v.2.

(** The second part of [Join]: the lease, the peer list, the admission to
    raft, the deferred refresh and the response. *)
Definition afterAdmission (s : Server) (req : JoinRequest) (peer : Node) : M JoinResponse :=
  do lease <- acquireLease s req ;
  let addressIpv4 := if AssignIpv4 req then netip.Prefix_String lease else "" in
  call (ListPeers (Id req)) ;;
  match peers_ListPeers s (Id req) with
  | inl err => fail codes.Internal ("failed to list peers: " +:+ err)
  | inr peerList =>
      addToCluster s req (raftAddressOf req lease peer) ;;
      (* the deferred function runs as [Join] returns *)
      deferredRefresh s req ;;
      ret (mkJoinResponse (netip.Prefix_String (NetworkIPv6 peer)) addressIpv4
             (map renderPeer peerList))
  end.

(** The body of [Join], in the order of the source. *)
Definition JoinM (s : Server) (req : JoinRequest) : M JoinResponse :=
  if negb (store_IsLeader s) then fail codes.FailedPrecondition "not leader"
  else
    do peer <- admission s req ;
    afterAdmission s req peer.

(** [Join]: how the call ends, the [ulaPrefix] field after the call, and the
    trace. *)
Definition Join (s : Server) (req : JoinRequest)
    : Outcome JoinResponse * netip.Prefix * list Step :=
  let '(r, st) := JoinM s req (mkJoinState (ulaPrefix s) []) in
  (r, cache st, trace st).

Fixpoint calls (t : list Step) : list Call :=
  match t with
  | [] => []
  | Called c :: t' => c :: calls t'
  | Logged _ :: t' => calls t'
  end.

(** The calls that write to the registry. *)
Definition isRegistryWrite (c : Call) : bool :=
  match c with
  | PeersUpdate _ | PeersCreate _ => true
  | _ => false
  end.

Fixpoint registryWrites (t : list Step) : list Call :=
  match t with
  | [] => []
  | Called c :: t' => if isRegistryWrite c then c :: registryWrites t' else registryWrites t'
  | Logged _ :: t' => registryWrites t'
  end.

(** The transport addresses handed to [AddVoter] / [AddNonVoter]. *)
Fixpoint raftAddresses (cs : list Call) : list string :=
  match cs with
  | [] => []
  | AddVoter _ a :: r => a :: raftAddresses r
  | AddNonVoter _ a :: r => a :: raftAddresses r
  | _ :: r => raftAddresses r
  end.

Definition resultOf (r : Outcome JoinResponse * netip.Prefix * list Step)
    : Outcome JoinResponse := r.1.1.

Definition cacheOf (r : Outcome JoinResponse * netip.Prefix * list Step)
    : netip.Prefix := r.1.2.

Definition traceOf (r : Outcome JoinResponse * netip.Prefix * list Step)
    : list Step := r.2.

(** The gRPC code of a call that returned; a call that panicked has none. *)
Definition codeOf {A} (r : Outcome A) : option codes.Code :=
  match r with
  | Returned (inl st) => Some (Code_ st)
  | Returned (inr _) => Some codes.OK
  | Panicked => None
  end.

(** "Validation comes first": a leader answers a request without an id with
    [InvalidArgument], whatever else holds. *)
Definition empty_id_is_InvalidArgument (s : Server) (req : JoinRequest) : Prop :=
  store_IsLeader s = true -> Id req = "" ->
  codeOf (resultOf (Join s req)) = Some codes.InvalidArgument.

(** The request repeats the stored record: every field the update branch
    compares is equal. *)
Definition sameFields (stored : Node) (publicKey : string) (req : JoinRequest)
    (primaryEndpoint : netip.Addr) (endpoints : list netip.Addr) : Prop :=
  PublicKey stored = publicKey /\
  GRPCPort stored = GrpcPort req /\
  RaftPort stored = ReqRaftPort req /\
  WireguardPort stored = ReqWireguardPort req /\
  PrimaryEndpoint stored = primaryEndpoint /\
  Endpoints stored = endpoints.

(** The mesh prefix is at hand: cached, or resolved without error. *)
Definition prefixResolves (s : Server) : Prop :=
  netip.Prefix_IsValid (ulaPrefix s) = true \/ (meshstate_GetULAPrefix s).2 = None.

(** "Write back only if a field changed": a Join that repeats the stored
    record writes nothing to the registry. *)
Definition repeated_join_writes_nothing (s : Server) (req : JoinRequest) : Prop :=
  forall stored publicKey primaryEndpoint endpoints,
    store_IsLeader s = true ->
    prefixResolves s ->
    validate s req = inr (publicKey, primaryEndpoint, endpoints) ->
    peers_Get s (Id req) = Found stored ->
    sameFields stored publicKey req primaryEndpoint endpoints ->
    registryWrites (traceOf (Join s req)) = [].

(** The node record [Join] goes on with, when it gets that far. *)
Definition peerOf (s : Server) (req : JoinRequest) : option Node :=
  match admission s req (mkJoinState (ulaPrefix s) []) with
  | (Returned (inr peer), _) => Some peer
  | _ => None
  end.






(** The comparison of the endpoints in the update branch completes: the
    stored record or the request lists none. *)
Definition comparable (stored : Node) (endpoints : list netip.Addr) : Prop :=
  Endpoints stored = [] \/ endpoints = [].

(** What the update branch makes of the stored record: the key, the ports
    and the endpoints of the request; the primary endpoint of the request
    when that is valid, the stored one otherwise; the rest as stored. *)
Definition mergedFrom (stored : Node) (publicKey : string) (req : JoinRequest)
    (primaryEndpoint : netip.Addr) (endpoints : list netip.Addr) (m : Node) : Prop :=
  ID m = ID stored /\
  NetworkIPv6 m = NetworkIPv6 stored /\
  PrivateIPv4 m = PrivateIPv4 stored /\
  PublicKey m = publicKey /\
  GRPCPort m = GrpcPort req /\
  RaftPort m = ReqRaftPort req /\
  WireguardPort m = ReqWireguardPort req /\
  Endpoints m = endpoints /\
  (netip.Addr_IsValid primaryEndpoint = false -> PrimaryEndpoint m = PrimaryEndpoint stored) /\
  (netip.Addr_IsValid primaryEndpoint = true ->
     netip.Addr_String (PrimaryEndpoint m) = netip.Addr_String primaryEndpoint).

End NodeServer.

(** ** The admin RPC [DeleteNetworkACL] ([pkg/services/admin]) *)

Module Admin.

Inductive RuleResource := RESOURCE_NETWORK_ACLS.
Inductive RuleVerb := VERB_DELETE.

(** An [rbac.Action], after [Actions.For(name)] has filled in the name. *)
Record Action := mkAction {
  Resource : RuleResource;
  Verb : RuleVerb;
  ResourceName : string
}.

Definition deleteNetworkACLAction : RuleResource * RuleVerb :=
  (RESOURCE_NETWORK_ACLS, VERB_DELETE).

Definition For (a : RuleResource * RuleVerb) (name : string) : list Action :=
  [mkAction (fst a) (snd a) name].

Inductive Call :=
| Evaluate (actions : list Action)
| NetworkingDeleteNetworkACL (name : string).

Inductive Step :=
| Called (c : Call)
| Logged (l : LogLine).

(** The receiver and what its collaborators answer.  The table behind
    [networking.IsSystemNetworkACL] is not among the sources modelled here
    and is a field of the record. *)
Record Server := mkServer {
  raft_IsLeader : bool;
  rbacEval_Evaluate : list Action -> bool * option error;
  IsSystemNetworkACL : string -> bool;
  networking_DeleteNetworkACL : string -> option error
}.

Record NetworkACL := mkNetworkACL { Name : string }.

(** [DeleteNetworkACL]: [inr tt] is the empty response. *)
Definition DeleteNetworkACL (s : Server) (acl : NetworkACL) : (Status + unit) * list Step :=
  if negb (raft_IsLeader s) then
    (inl (mkStatus codes.FailedPrecondition "not the leader"), [])
  else if String.eqb (Name acl) "" then
    (inl (mkStatus codes.InvalidArgument "acl name is required"), [])
  else
    let actions := For deleteNetworkACLAction (Name acl) in
    let t1 := [Called (Evaluate actions)] in
    let '(ok, err) := rbacEval_Evaluate s actions in
    if negb ok then
      let t2 := match err with
                | Some e => t1 ++ [Logged (logError "failed to evaluate delete network acl action"
                                             [("error", e)])]
                | None => t1
                end in
      (inl (mkStatus codes.PermissionDenied
              "caller does not have permission to delete network acls"), t2)
    else if IsSystemNetworkACL s (Name acl) then
      (inl (mkStatus codes.InvalidArgument "cannot delete system network acls"), t1)
    else
      let t2 := t1 ++ [Called (NetworkingDeleteNetworkACL (Name acl))] in
      match networking_DeleteNetworkACL s (Name acl) with
      | Some e => (inl (mkStatus codes.Internal e), t2)
      | None => (inr tt, t2)
      end.

(** The gRPC code of a result. *)
Definition codeOf {A} (r : Status + A) : codes.Code :=
  match r with
  | inl st => Code_ st
  | inr _ => codes.OK
  end.

(** Does the trace touch storage (the delegated mutation)? *)
Fixpoint touchesStorage (t : list Step) : bool :=
  match t with
  | [] => false
  | Called (NetworkingDeleteNetworkACL _) :: _ => true
  | _ :: t' => touchesStorage t'
  end.

(** Was the authorization check made? *)
Fixpoint evaluates (t : list Step) : bool :=
  match t with
  | [] => false
  | Called (Evaluate _) :: _ => true
  | _ :: t' => evaluates t'
  end.

(** Modelled from the spec: the names behind [networking.IsSystemNetworkACL],
    whose table is not among the sources modelled here; the specification
    lists these two as system-reserved. *)
Definition systemNames : list string := ["bootstrap-nodes"; "voters"].

Definition isSystemName (name : string) : bool :=
  existsb (String.eqb name) systemNames.

(** "Reserved names are rejected before the authorization check": on the
    leader, deleting a system-reserved name is answered with
    [InvalidArgument] for every caller, without touching storage. *)
Definition reserved_name_is_InvalidArgument (s : Server) (acl : NetworkACL) : Prop :=
  raft_IsLeader s = true ->
  IsSystemNetworkACL s (Name acl) = true ->
  codeOf (DeleteNetworkACL s acl).1 = codes.InvalidArgument /\
  touchesStorage (DeleteNetworkACL s acl).2 = false.

End Admin.

(** ** Go channels

    A channel value is [None] for the nil channel, or a made channel with
    its capacity, the values buffered in it and whether it has been closed.
    An operation either goes through, or cannot proceed in the present state
    (it blocks: for the nil channel, forever), or panics. *)

Module chan.

Record made (A : Type) := mkMade {
  cap : nat;
  queue : list A;
  closed : bool
}.
Arguments mkMade {A}.
Arguments cap {A}.
Arguments queue {A}.
Arguments closed {A}.

Definition t (A : Type) : Type := option (made A).

(** [make(chan A, n)]. *)
Definition make {A} (n : nat) : t A := Some (mkMade n [] false).

Inductive sendResult (A : Type) :=
| Sent (c : t A)
| SendBlocks
| SendPanics (msg : string).
Arguments Sent {A}.
Arguments SendBlocks {A}.
Arguments SendPanics {A}.

Inductive recvResult (A : Type) :=
| Received (v : A) (c : t A)
| ReceivedZero
| RecvBlocks.
Arguments Received {A}.
Arguments ReceivedZero {A}.
Arguments RecvBlocks {A}.

Inductive closeResult (A : Type) :=
| Closed (c : t A)
| ClosePanics (msg : string).
Arguments Closed {A}.
Arguments ClosePanics {A}.

(** [c <- v]. *)
Definition send {A} (c : t A) (v : A) : sendResult A :=
  match c with
  | None => SendBlocks
  | Some m =>
      if closed m then SendPanics "send on closed channel"
      else if (length (queue m) <? cap m)%nat
           then Sent (Some (mkMade (cap m) (queue m ++ [v]) false))
           else SendBlocks
  end.

(** [<-c]. *)
Definition recv {A} (c : t A) : recvResult A :=
  match c with
  | None => RecvBlocks
  | Some m =>
      match queue m with
      | v :: q => Received v (Some (mkMade (cap m) q (closed m)))
      | [] => if closed m then ReceivedZero else RecvBlocks
      end
  end.

(** [close(c)]. *)
Definition close {A} (c : t A) : closeResult A :=
  match c with
  | None => ClosePanics "close of nil channel"
  | Some m =>
      if closed m then ClosePanics "close of closed channel"
      else Closed (Some (mkMade (cap m) (queue m) true))
  end.

End chan.

(** ** The campfire connection ([pkg/campfire]) *)

Module Campfire.

(** [strings.TrimPrefix]. *)
Definition TrimPrefix (s prefix : string) : string :=
  if HasPrefix s prefix
  then String.substring (String.length prefix) (String.length s - String.length prefix) s
  else s.

Record Options := mkOptions {
  PSK : list Byte.byte;
  TURNServers : list string
}.

(** The rendezvous location. *)
Record Location := mkLocation {
  TURNServer : string;
  Secret : string
}.

Record Attribute := mkAttribute { Key : string; Value : string }.

Record Origin := mkOrigin {
  Username : string;
  SessionID : Z;
  SessionVersion : Z;
  NetworkType : string;
  AddressType : string;
  UnicastAddress : string
}.

(** The fields of [sdp.SessionDescription] that [New] fills in. *)
Record SessionDescription := mkSessionDescription {
  sd_Origin : Origin;
  sd_SessionName : string;
  sd_TimeDescriptions : list (Z * Z);
  sd_ConnectionInformation : option (string * string * string);
  sd_Attributes : list Attribute
}.

Inductive SDPType := SDPTypeOffer | SDPTypeAnswer.

Inductive Call :=
| NewPeerConnection (urls : list string)
| CreateDataChannel (label : string)
| CreateOffer
| SetLocalDescription (offer : string)
| SetRemoteDescription (ty : SDPType) (sdp : string)
| PeerConnectionClose
| Detach.

Inductive Step :=
| Called (c : Call)
| Logged (l : LogLine).

(** What pion answers to the calls of the package. *)
Record World := mkWorld {
  WebRTC_NewPeerConnection : option error;
  pc_CreateDataChannel : option error;
  pc_CreateOffer : error + string;
  pc_SetLocalDescription : option error;
  localDesc_Unmarshal : error + list Attribute;
  sd_Marshal : SessionDescription -> error + string;
  pc_SetRemoteDescription : option error;
  pc_Close : option error;
  dc_Detach : error + string
}.

(** [CampFire]: the embedded peer connection (by the number of [Close] calls
    it has received), the embedded stream (nil until the data channel is
    detached) and the three channels. *)
Record CampFire := mkCampFire {
  closeCalls : nat;
  ReadWriteCloser : option string;
  errc : chan.t error;
  readyc : chan.t unit;
  closec : chan.t unit
}.

(** The package's logger: [context.LoggerFrom(ctx).With("protocol", "campfire")]. *)
Definition cfDebug (m : string) (a : list (string * string)) : LogLine :=
  logDebug m (("protocol", "campfire") :: a).
Definition cfError (m : string) (a : list (string * string)) : LogLine :=
  logError m (("protocol", "campfire") :: a).

(** The first attribute named [fingerprint], or the empty string. *)
Fixpoint findFingerprint (attributes : list Attribute) : string :=
  match attributes with
  | [] => ""
  | a :: rest => if String.eqb (Key a) "fingerprint" then Value a else findFingerprint rest
  end.

(** The session description [New] crafts as the remote answer. *)
Definition craftAnswer (loc : Location) (fingerprint : string) : SessionDescription :=
  mkSessionDescription
    (mkOrigin "-" 0 0 "IN" "IP4" "0.0.0.0")
    (Secret loc)
    [(0, 0)]
    (Some ("IN", "IP4", "0.0.0.0"))
    [mkAttribute "fingerprint" ("sha-256" +:+ " " +:+ TrimPrefix fingerprint "sha-256 ");
     mkAttribute "ice-ufrag" "-";
     mkAttribute "ice-pwd" "-"].

(** [New] prefixes the relay with [stun:] unless it has it already. *)
Definition withStun (loc : Location) : Location :=
  if negb (HasPrefix (TURNServer loc) "stun:")
  then mkLocation ("stun:" +:+ TURNServer loc) (Secret loc)
  else loc.

Section Rendezvous.

(** The epoch length (in seconds) and the hash are agreed constants of the
    protocol. *)
Variable epochLength : Z.
Variable hash : list Byte.byte -> list string -> Z -> N * string.

(** The epoch a time (seconds since the Unix epoch, UTC) falls in. *)
Definition epochOf (now : Z) : Z := now / epochLength.

(** Modelled from the spec: [FindCampFire] is called by [New] and its
    definition is not among the sources modelled here.  The pre-shared key and the
    relay list are hashed together with the current epoch (the UTC time
    divided by the epoch length); the hash gives an index into the relay
    list and the secret.  With no relay to index there is no location. *)
Definition FindCampFire (now : Z) (psk : list Byte.byte) (relays : list string)
    : error + Location :=
  match relays with
  | [] => inl "no TURN servers"
  | _ =>
      let '(selector, secret) := hash psk relays (epochOf now) in
      let i := (N.to_nat selector mod length relays)%nat in
      inr (mkLocation (nth i relays "") secret)
  end.

(** The location [New] goes on with, at the time [now] of the call. *)
Definition campLocation (now : Z) (opts : Options) : error + Location :=
  match FindCampFire now (PSK opts) (TURNServers opts) with
  | inl err => inl ("find camp fire: " +:+ err)
  | inr loc => inr (withStun loc)
  end.

(** [New]: the error or the camp fire, and the trace.  A failure after the
    peer connection exists closes it on the way out ([defer]); whatever that
    close returns is dropped. *)
Definition New (w : World) (now : Z) (opts : Options) : (error + CampFire) * list Step :=
  match campLocation now opts with
  | inl err => (inl err, [])
  | inr loc =>
      let t1 := [Logged (cfDebug "found camp fire"
                           [("secret", Secret loc); ("turn", TURNServer loc)]);
                 Called (NewPeerConnection [TURNServer loc])] in
      match WebRTC_NewPeerConnection w with
      | Some err => (inl ("new peer connection: " +:+ err), t1)
      | None =>
          let cf := mkCampFire 0 None (chan.make 1) None (chan.make 0) in
          let t2 := t1 ++ [Called (CreateDataChannel (Secret loc))] in
          match pc_CreateDataChannel w with
          | Some err => (inl ("create data channel: " +:+ err), t2 ++ [Called PeerConnectionClose])
          | None =>
              let t3 := t2 ++ [Called CreateOffer] in
              match pc_CreateOffer w with
              | inl err => (inl ("create offer: " +:+ err), t3 ++ [Called PeerConnectionClose])
              | inr offer =>
                  let t4 := t3 ++ [Called (SetLocalDescription offer)] in
                  match pc_SetLocalDescription w with
                  | Some err =>
                      (inl ("set local description: " +:+ err),
                       t4 ++ [Called PeerConnectionClose])
                  | None =>
                      match localDesc_Unmarshal w with
                      | inl err =>
                          (inl ("unmarshal local description: " +:+ err),
                           t4 ++ [Called PeerConnectionClose])
                      | inr attributes =>
                          let sd := craftAnswer loc (findFingerprint attributes) in
                          match sd_Marshal w sd with
                          | inl err =>
                              (inl ("marshal session description: " +:+ err),
                               t4 ++ [Called PeerConnectionClose])
                          | inr out =>
                              let t5 := t4 ++ [Called (SetRemoteDescription SDPTypeAnswer out)] in
                              match pc_SetRemoteDescription w with
                              | Some err =>
                                  (inl ("set remote description: " +:+ err),
                                   t5 ++ [Called PeerConnectionClose])
                              | None => (inr cf, t5)
                              end
                          end
                      end
                  end
              end
          end
      end
  end.

End Rendezvous.

(** How a handler invocation ends. *)
Inductive Outcome :=
| Returned (cf : CampFire)
| Blocked (cf : CampFire)
| Panicked (msg : string) (cf : CampFire).

Definition stateOf (o : Outcome) : CampFire :=
  match o with
  | Returned cf | Blocked cf | Panicked _ cf => cf
  end.

Definition closePeerConnection (cf : CampFire) : CampFire :=
  mkCampFire (S (closeCalls cf)) (ReadWriteCloser cf) (errc cf) (readyc cf) (closec cf).

(** [CampFire.Close]: the peer connection is closed; what its [Close]
    returns ([pc_Close w]) is not looked at. *)
Definition Close (w : World) (cf : CampFire) : option error * CampFire * list Step :=
  (None, closePeerConnection cf, [Called PeerConnectionClose]).

Definition Errors (cf : CampFire) : chan.t error := errc cf.

Definition Ready (cf : CampFire) : chan.t unit := readyc cf.

Inductive ICEConnectionState :=
| ICEConnectionStateNew
| ICEConnectionStateChecking
| ICEConnectionStateConnected
| ICEConnectionStateCompleted
| ICEConnectionStateDisconnected
| ICEConnectionStateFailed
| ICEConnectionStateClosed.

Definition stateName (st : ICEConnectionState) : string :=
  match st with
  | ICEConnectionStateNew => "new"
  | ICEConnectionStateChecking => "checking"
  | ICEConnectionStateConnected => "connected"
  | ICEConnectionStateCompleted => "completed"
  | ICEConnectionStateDisconnected => "disconnected"
  | ICEConnectionStateFailed => "failed"
  | ICEConnectionStateClosed => "closed"
  end.

(** The handler given to [OnICEConnectionStateChange]. *)
Definition onICEConnectionStateChange (w : World) (cf : CampFire) (state : ICEConnectionState)
    : Outcome * list Step :=
  let t1 := [Logged (cfDebug "ICE connection state changed" [("state", stateName state)])] in
  match state with
  | ICEConnectionStateDisconnected =>
      (Returned (closePeerConnection cf),
       t1 ++ [Logged (cfDebug "closing connection to camp fire" []);
              Called PeerConnectionClose])
  | _ => (Returned cf, t1)
  end.

(** The handler given to [OnICECandidate]; [None] is the nil candidate. *)
Definition onICECandidate (cf : CampFire) (c : option string) : Outcome * list Step :=
  match c with
  | None => (Returned cf, [])
  | Some text => (Returned cf, [Logged (cfDebug "received ICE candidate" [("candidate", text)])])
  end.

(** The handler given to [dc.OnOpen]. *)
Definition onOpen (w : World) (cf : CampFire) : Outcome * list Step :=
  let t1 := [Logged (cfDebug "data channel opened" []); Called Detach] in
  match dc_Detach w with
  | inl err =>
      let t2 := t1 ++ [Logged (cfError "error detaching data channel" [("error", err)])] in
      match chan.send (errc cf) err with
      | chan.Sent c =>
          (Returned (mkCampFire (closeCalls cf) (ReadWriteCloser cf) c (readyc cf) (closec cf)), t2)
      | chan.SendBlocks => (Blocked cf, t2)
      | chan.SendPanics msg => (Panicked msg cf, t2)
      end
  | inr rw =>
      let cf1 := mkCampFire (closeCalls cf) (Some rw) (errc cf) (readyc cf) (closec cf) in
      match chan.close (errc cf1) with
      | chan.ClosePanics msg => (Panicked msg cf1, t1)
      | chan.Closed c =>
          let cf2 := mkCampFire (closeCalls cf1) (ReadWriteCloser cf1) c (readyc cf1) (closec cf1) in
          match chan.close (readyc cf2) with
          | chan.ClosePanics msg => (Panicked msg cf2, t1)
          | chan.Closed c' =>
              (Returned (mkCampFire (closeCalls cf2) (ReadWriteCloser cf2) (errc cf2) c'
                           (closec cf2)), t1)
          end
      end
  end.

Fixpoint logs_of (t : list Step) : list LogLine :=
  match t with
  | [] => []
  | Called _ :: t' => logs_of t'
  | Logged l :: t' => l :: logs_of t'
  end.

(** What can happen to a camp fire once [New] has returned it. *)
Inductive SessionEvent :=
| EvICEConnectionState (state : ICEConnectionState)
| EvICECandidate (c : option string)
| EvOpen
| EvClose.

Definition handle (w : World) (cf : CampFire) (ev : SessionEvent) : Outcome * list Step :=
  match ev with
  | EvICEConnectionState state => onICEConnectionStateChange w cf state
  | EvICECandidate c => onICECandidate cf c
  | EvOpen => onOpen w cf
  | EvClose => let '(_, cf', t) := Close w cf in (Returned cf', t)
  end.

(** The camp fire after a sequence of events, each answered by the world as
    it stands at that time. *)
Fixpoint session (cf : CampFire) (evs : list (World * SessionEvent)) : CampFire :=
  match evs with
  | [] => cf
  | (w, ev) :: rest => session (stateOf (fst (handle w cf ev))) rest
  end.

(** "[Close] reports the failure of the underlying close": when the peer
    connection's [Close] fails, the error is returned by [CampFire.Close] or
    can be received from [Errors()]. *)
Definition close_reports_failure (w : World) (cf : CampFire) : Prop :=
  forall e, pc_Close w = Some e ->
    (Close w cf).1.1 = Some e \/
    exists c, chan.recv (Errors (Close w cf).1.2) = chan.Received e c.

End Campfire.

(** ** [strings] helpers of the packages below *)

Module strs.

(** [strings.Contains s substr]. *)
Fixpoint Contains (s substr : string) : bool :=
  if String.prefix substr s then true
  else match s with
       | EmptyString => false
       | String _ rest => Contains rest substr
       end.

(** [strings.Split s sep] for a separator of one byte: the pieces between
    the separators; a string without separator is the only piece. *)
Fixpoint Split (s : string) (sep : ascii) : list string :=
  match s with
  | EmptyString => [EmptyString]
  | String a rest =>
      if Ascii.eqb a sep then EmptyString :: Split rest sep
      else match Split rest sep with
           | piece :: pieces => String a piece :: pieces
           | [] => [String a EmptyString]
           end
  end.

(** [strings.Join elems sep] for a separator of one byte. *)
Fixpoint Join (elems : list string) (sep : ascii) : string :=
  match elems with
  | [] => EmptyString
  | [e] => e
  | e :: rest => e +:+ String sep (Join rest sep)
  end.

End strs.

(** ** The mesh DNS options ([pkg/services], [MeshDNSOptions]) *)

Module services.

Definition MeshDNSForwardersEnvVar : string := "SERVICES_MESH_DNS_FORWARDERS".

Record MeshDNSOptions := mkMeshDNSOptions {
  Enabled : bool;
  ListenUDP : string;
  ListenTCP : string;
  ReusePort : Z;
  EnableCompression : bool;
  RequestTimeout : Z;
  Forwarders : list string;
  DisableForwarding : bool;
  CacheSize : Z
}.

(** [time.Second], in nanoseconds. *)
Definition Second : Z := 1000000000.

(** [NewMeshDNSOptions]. *)
Definition NewMeshDNSOptions : MeshDNSOptions :=
  mkMeshDNSOptions false ":5353" ":5353" 0 true (Second * 5) [] false 0.

Definition set_Forwarders (o : MeshDNSOptions) (f : list string) : MeshDNSOptions :=
  mkMeshDNSOptions (Enabled o) (ListenUDP o) (ListenTCP o) (ReusePort o) (EnableCompression o)
    (RequestTimeout o) f (DisableForwarding o) (CacheSize o).

(** [MeshDNSOptions.Validate]: the receiver may be nil ([None]); the result
    is the error and the receiver after the call.  [getenv] is [os.Getenv]
    on the environment of the process (the empty string for an unset
    variable). *)
Definition Validate (getenv : string -> string) (o : option MeshDNSOptions)
    : option error * option MeshDNSOptions :=
  match o with
  | None => (None, None)
  | Some o =>
      if Enabled o then
        if String.eqb (ListenTCP o) "" && String.eqb (ListenUDP o) "" then
          (Some "must specify a TCP or UDP address for mesh DNS", Some o)
        else if (length (Forwarders o) =? 0)%nat && negb (DisableForwarding o) then
          let envval := getenv MeshDNSForwardersEnvVar in
          if negb (String.eqb envval "")
          then (None, Some (set_Forwarders o (strs.Split envval ","%char)))
          else (None, Some o)
        else (None, Some o)
      else (None, Some o)
  end.

End services.

(** ** Mesh state queries ([pkg/meshdb/state]) *)

Module state.

Definition MeshStatePrefix : string := "/registry/meshstate".
Definition IPv6PrefixKey : string := MeshStatePrefix +:+ "/ipv6prefix".
Definition IPv4PrefixKey : string := MeshStatePrefix +:+ "/ipv4prefix".
Definition MeshDomainKey : string := MeshStatePrefix +:+ "/meshdomain".

(** The fields of a node this package reads. *)
Record Node := mkNode {
  ID : string;
  PrimaryEndpoint : string;
  GRPCPort : Z;
  PrivateIPv4 : netip.Prefix;
  PrivateIPv6 : netip.Prefix
}.

(** [netip.AddrPort]. *)
Record AddrPort := mkAddrPort { ap_Addr : netip.Addr; ap_Port : Z }.

(** [netip.AddrPortFrom(addr, uint16(port))]. *)
Definition AddrPortFrom (addr : netip.Addr) (port : Z) : AddrPort :=
  mkAddrPort addr (NodeServer.uint16 port).

(** The storage behind the state and the node lists of the [peers]
    accessors over it, with the parsers of [netip]. *)
Record state := mkState {
  Get : string -> error + string;
  peers_ListPublicNodes : error + list Node;
  peers_List : error + list Node;
  ParseAddr : string -> error + netip.Addr;
  ParsePrefix : string -> error + netip.Prefix
}.

(** [GetIPv6Prefix], [GetIPv4Prefix] and [GetMeshDomain]. *)
Definition GetIPv6Prefix (s : state) : error + netip.Prefix :=
  match Get s IPv6PrefixKey with
  | inl err => inl err
  | inr prefix => ParsePrefix s prefix
  end.

Definition GetIPv4Prefix (s : state) : error + netip.Prefix :=
  match Get s IPv4PrefixKey with
  | inl err => inl err
  | inr prefix => ParsePrefix s prefix
  end.

Definition GetMeshDomain (s : state) : error + string := Get s MeshDomainKey.

(** The loop of [ListPublicRPCAddresses] over the nodes, [out] being the map
    built so far. *)
Fixpoint publicLoop (s : state) (nodes : list Node) (out : gmap string AddrPort)
    : error + gmap string AddrPort :=
  match nodes with
  | [] => inr out
  | n :: rest =>
      if String.eqb (PrimaryEndpoint n) "" then publicLoop s rest out
      else match ParseAddr s (PrimaryEndpoint n) with
           | inl err => inl ("parse address for node " +:+ ID n +:+ ": " +:+ err)
           | inr addr => publicLoop s rest (<[ID n := AddrPortFrom addr (GRPCPort n)]> out)
           end
  end.

(** [ListPublicRPCAddresses]; the nil map it returns for no nodes reads as
    the empty map. *)
Definition ListPublicRPCAddresses (s : state) : error + gmap string AddrPort :=
  match peers_ListPublicNodes s with
  | inl err => inl err
  | inr nodes =>
      if (length nodes =? 0)%nat then inr ∅
      else publicLoop s nodes ∅
  end.

(** [ListPeerPublicRPCAddresses]: the loop deletes the one key equal to
    [nodeID]. *)
Definition ListPeerPublicRPCAddresses (s : state) (nodeID : string)
    : error + gmap string AddrPort :=
  match ListPublicRPCAddresses s with
  | inl err => inl err
  | inr nodes => inr (delete nodeID nodes)
  end.

(** The address text of a prefix: [strings.Split(p.String(), "/")[0]]. *)
Definition prefixIP (p : netip.Prefix) : string :=
  hd EmptyString (strs.Split (netip.Prefix_String p) "/"%char).

(** The loop of [ListPeerPrivateRPCAddresses]. *)
Fixpoint privateLoop (s : state) (nodeID : string) (nodes : list Node)
    (out : gmap string AddrPort) : error + gmap string AddrPort :=
  match nodes with
  | [] => inr out
  | n :: rest =>
      if String.eqb (ID n) nodeID then privateLoop s nodeID rest out
      else
        let parsed := if netip.Prefix_IsValid (PrivateIPv4 n)
                      then ParseAddr s (prefixIP (PrivateIPv4 n))
                      else ParseAddr s (prefixIP (PrivateIPv6 n)) in
        match parsed with
        | inl err => inl ("parse address for node " +:+ nodeID +:+ ": " +:+ err)
        | inr addr =>
            privateLoop s nodeID rest (<[ID n := AddrPortFrom addr (GRPCPort n)]> out)
        end
  end.

Definition ListPeerPrivateRPCAddresses (s : state) (nodeID : string)
    : error + gmap string AddrPort :=
  match peers_List s with
  | inl err => inl err
  | inr nodes => privateLoop s nodeID nodes ∅
  end.

(** The node an entry of the public address map comes from. *)
Definition publicEntryOf (s : state) (n : Node) (id : string) (ap : AddrPort) : Prop :=
  ID n = id /\ PrimaryEndpoint n <> "" /\
  ParseAddr s (PrimaryEndpoint n) = inr (ap_Addr ap) /\
  ap_Port ap = NodeServer.uint16 (GRPCPort n).

(** The prefix a node is listed under in the private address map, and the
    node an entry of that map comes from. *)
Definition privateSource (n : Node) : netip.Prefix :=
  if netip.Prefix_IsValid (PrivateIPv4 n) then PrivateIPv4 n else PrivateIPv6 n.

Definition privateEntryOf (s : state) (n : Node) (id : string) (ap : AddrPort) : Prop :=
  ID n = id /\
  ParseAddr s (prefixIP (privateSource n)) = inr (ap_Addr ap) /\
  ap_Port ap = NodeServer.uint16 (GRPCPort n).

End state.

(** ** Routes on Windows ([pkg/net/system/routes]) *)

Module routes.

(** [netip.Addr.Is6]: the text of an IPv6 address, and only of one, has a
    colon. *)
Definition Is6 (a : netip.Addr) : bool :=
  match a with
  | netip.ZeroAddr => false
  | netip.IP t => containsByte ":"%char t
  end.

Inductive Result :=
| Done
| ErrRouteExists
| Failed (err : error).

Definition family (addr : netip.Prefix) : string :=
  if Is6 (netip.Addr_ addr) then "ipv6" else "ipv4".

(** The command line of [Add] and of [Remove]. *)
Definition addCommand (ifaceName : string) (addr : netip.Prefix) : list string :=
  ["netsh"; "interface"; family addr; "add"; "route"; netip.Prefix_String addr; ifaceName;
   "metric=0"; "store=active"].

Definition removeCommand (ifaceName : string) (addr : netip.Prefix) : list string :=
  ["netsh"; "interface"; family addr; "delete"; "route"; netip.Prefix_String addr; ifaceName;
   "metric=0"; "store=active"].

(** [Add]: [exec] is [util.ExecOutput], answering a command line with its
    output and its error. *)
Definition Add (exec : list string -> string * option error) (ifaceName : string)
    (addr : netip.Prefix) : Result :=
  let '(out, err) := exec (addCommand ifaceName addr) in
  match err with
  | Some e =>
      if strs.Contains out "already in table" || strs.Contains out "exists"
      then ErrRouteExists
      else Failed e
  | None => Done
  end.

(** [Remove]: [exec] is [util.Exec]. *)
Definition Remove (exec : list string -> option error) (ifaceName : string)
    (addr : netip.Prefix) : Result :=
  match exec (removeCommand ifaceName addr) with
  | Some e => Failed e
  | None => Done
  end.

(** [SetDefaultIPv4Gateway] and [SetDefaultIPv6Gateway]. *)
Definition SetDefaultIPv4Gateway (gateway : netip.Addr) : option error := Some "not implemented".
Definition SetDefaultIPv6Gateway (gateway : netip.Addr) : option error := Some "not implemented".

End routes.

(** ** The WireGuard data-channel proxy server ([pkg/net/datachannels])

    The handlers [NewWireGuardProxyServer] registers, each run from its
    first to its last statement on the state the server is in.  The two ICE
    handlers take the mutex [mu]; a handler that finds it locked cannot
    proceed. *)

Module datachannels.

Definition DefaultWireGuardProxyBuffer : Z := 1024 * 1024.

(** [WireGuardProxyServer], with the [readyc] channel and the mutex the
    handlers close over, and the number of [Close] calls its peer connection
    has received. *)
Record WireGuardProxyServer := mkProxyServer {
  connCloseCalls : nat;
  candidatec : chan.t string;
  messages : chan.t (list Byte.byte);
  closec : chan.t unit;
  offer : string;
  bufferSize : Z;
  readyc : chan.t unit;
  mu : bool
}.

Inductive Call :=
| NewPeerConnection (urls : list string)
| CreateDataChannel (label : string)
| CreateOffer
| SetLocalDescription (offer : string)
| Detach
| DialUDP (port : Z)
| StreamClose
| InterfaceClose
| ConnClose.

Inductive Step :=
| Called (c : Call)
| Logged (l : LogLine).

(** How [io.CopyBuffer] ends. *)
Inductive CopyResult :=
| CopyDone
| CopyEOF
| CopyErrClosed
| CopyFailed (err : error).

(** What pion and the network answer. *)
Record World := mkWorld {
  api_NewPeerConnection : option error;
  conn_CreateDataChannel : option error;
  conn_CreateOffer : error + string;
  conn_SetLocalDescription : option error;
  json_Marshal : string -> error + string;
  GetSelectedCandidatePair : error + (string * string);
  dc_Detach : option error;
  net_DialUDP : option error;
  copyToChannel : CopyResult;
  copyToLocal : CopyResult
}.

Inductive Outcome :=
| Returned (s : WireGuardProxyServer)
| Blocked (s : WireGuardProxyServer)
| Panicked (msg : string) (s : WireGuardProxyServer).

Definition stateOf (o : Outcome) : WireGuardProxyServer :=
  match o with
  | Returned s | Blocked s | Panicked _ s => s
  end.

Definition set_mu (s : WireGuardProxyServer) (b : bool) : WireGuardProxyServer :=
  mkProxyServer (connCloseCalls s) (candidatec s) (messages s) (closec s) (offer s)
    (bufferSize s) (readyc s) b.
Definition set_candidatec (s : WireGuardProxyServer) (c : chan.t string) : WireGuardProxyServer :=
  mkProxyServer (connCloseCalls s) c (messages s) (closec s) (offer s)
    (bufferSize s) (readyc s) (mu s).
Definition set_closec (s : WireGuardProxyServer) (c : chan.t unit) : WireGuardProxyServer :=
  mkProxyServer (connCloseCalls s) (candidatec s) (messages s) c (offer s)
    (bufferSize s) (readyc s) (mu s).
Definition set_readyc (s : WireGuardProxyServer) (c : chan.t unit) : WireGuardProxyServer :=
  mkProxyServer (connCloseCalls s) (candidatec s) (messages s) (closec s) (offer s)
    (bufferSize s) c (mu s).
Definition set_offer (s : WireGuardProxyServer) (o : string) : WireGuardProxyServer :=
  mkProxyServer (connCloseCalls s) (candidatec s) (messages s) (closec s) o
    (bufferSize s) (readyc s) (mu s).
Definition closeConn (s : WireGuardProxyServer) : WireGuardProxyServer :=
  mkProxyServer (S (connCloseCalls s)) (candidatec s) (messages s) (closec s) (offer s)
    (bufferSize s) (readyc s) (mu s).

(** A receive from the channel can proceed (a case of a [select] is ready). *)
Definition ready {A} (c : chan.t A) : bool :=
  match chan.recv c with
  | chan.RecvBlocks => false
  | _ => true
  end.

(** The server as [NewWireGuardProxyServer] builds it. *)
Definition newServer : WireGuardProxyServer :=
  mkProxyServer 0 (chan.make 10) (chan.make 10) (chan.make 0) "" DefaultWireGuardProxyBuffer
    (chan.make 0) false.

(** [NewWireGuardProxyServer]. *)
Definition NewWireGuardProxyServer (w : World) (stunServers : list string)
    : (error + WireGuardProxyServer) * list Step :=
  let t1 := [Called (NewPeerConnection stunServers)] in
  match api_NewPeerConnection w with
  | Some err => (inl ("new peer connection: " +:+ err), t1)
  | None =>
      let t2 := t1 ++ [Called (CreateDataChannel "wireguard-proxy")] in
      match conn_CreateDataChannel w with
      | Some err => (inl ("create data channel: " +:+ err), t2)
      | None =>
          let t3 := t2 ++ [Called CreateOffer] in
          match conn_CreateOffer w with
          | inl err => (inl ("create offer: " +:+ err), t3)
          | inr offer =>
              let t4 := t3 ++ [Called (SetLocalDescription offer)] in
              match conn_SetLocalDescription w with
              | Some err => (inl ("set local description: " +:+ err), t4)
              | None =>
                  match json_Marshal w offer with
                  | inl err => (inl ("marshal offer: " +:+ err), t4)
                  | inr text => (inr (set_offer newServer text), t4)
                  end
              end
          end
      end
  end.

(** A [webrtc.ICECandidate], by its [String()] and by the candidate line
    of its [ToJSON()]. *)
Record ICECandidate := mkICECandidate {
  cand_String : string;
  cand_JSON : string
}.

(** The handler given to [OnICECandidate].  [None] is the nil candidate;
    [pick] is the choice of the [select] when both of its channels are
    ready ([true] for [readyc]). *)
Definition onICECandidate (pick : bool) (s : WireGuardProxyServer) (c : option ICECandidate)
    : Outcome * list Step :=
  match c with
  | None => (Returned s, [])
  | Some c =>
      let candidate := cand_JSON c in
      let t1 := [Logged (logDebug "Received ICE candidate" [("candidate", cand_String c)])] in
      if mu s then (Blocked s, t1)
      else
        let s := set_mu s true in
        let returns :=
          if ready (readyc s) then (if ready (closec s) then pick else true) else false in
        if returns then (Returned s, t1)
        else
          match chan.send (candidatec s) candidate with
          | chan.Sent c' => (Returned (set_mu (set_candidatec s c') false), t1)
          | chan.SendBlocks => (Blocked s, t1)
          | chan.SendPanics msg => (Panicked msg s, t1)
          end
  end.

Inductive ICEConnectionState :=
| ICEConnectionStateNew
| ICEConnectionStateChecking
| ICEConnectionStateConnected
| ICEConnectionStateCompleted
| ICEConnectionStateDisconnected
| ICEConnectionStateFailed
| ICEConnectionStateClosed.

Definition stateName (st : ICEConnectionState) : string :=
  match st with
  | ICEConnectionStateNew => "new"
  | ICEConnectionStateChecking => "checking"
  | ICEConnectionStateConnected => "connected"
  | ICEConnectionStateCompleted => "completed"
  | ICEConnectionStateDisconnected => "disconnected"
  | ICEConnectionStateFailed => "failed"
  | ICEConnectionStateClosed => "closed"
  end.

(** The handler given to [OnICEConnectionStateChange]; the deferred unlock
    runs on every way out, a panic included. *)
Definition onICEConnectionStateChange (w : World) (s : WireGuardProxyServer)
    (state : ICEConnectionState) : Outcome * list Step :=
  if mu s then (Blocked s, [])
  else
    let t1 := [Logged (logDebug "ICE connection state changed" [("state", stateName state)])] in
    match state with
    | ICEConnectionStateConnected =>
        match GetSelectedCandidatePair w with
        | inl err =>
            (Returned s,
             t1 ++ [Logged (logError "Failed to get selected candidate pair" [("error", err)])])
        | inr (local, remote) =>
            let t2 := t1 ++ [Logged (logDebug "ICE connection established"
                                       [("local", local); ("remote", remote)])] in
            match chan.close (readyc s) with
            | chan.Closed c' => (Returned (set_readyc s c'), t2)
            | chan.ClosePanics msg => (Panicked msg s, t2)
            end
        end
    | _ => (Returned s, t1)
    end.

(** The handler given to [dc.OnClose]. *)
Definition onClose (s : WireGuardProxyServer) : Outcome * list Step :=
  let t1 := [Logged (logDebug "Server side WireGuard datachannel closed" [])] in
  match chan.close (closec s) with
  | chan.Closed c' => (Returned (set_closec s c'), t1)
  | chan.ClosePanics msg => (Panicked msg s, t1)
  end.

(** Does a copy end with an error worth a log line? *)
Definition copyError (r : CopyResult) : option error :=
  match r with
  | CopyFailed err => Some err
  | _ => None
  end.

(** The goroutine [OnOpen] starts: local interface to data channel. *)
Definition copyLocalToChannel (w : World) : list Step :=
  match copyError (copyToChannel w) with
  | Some err => [Logged (logError "Failed to copy from WireGuard to datachannel"
                           [("error", err)])]
  | None => []
  end ++
  [Called InterfaceClose;
   Logged (logDebug "WireGuard proxy from local to datachannel stopped" [])].

(** The handler given to [dc.OnOpen]: its outcome, its own trace, and the
    trace of the goroutine it starts.  [targetPort] is the [uint16] port of
    the WireGuard interface. *)
Definition onOpen (w : World) (targetPort : Z) (s : WireGuardProxyServer)
    : Outcome * list Step * list Step :=
  let t1 := [Logged (logDebug "Server side datachannel opened" [])] in
  match chan.close (candidatec s) with
  | chan.ClosePanics msg => (Panicked msg s, t1, [])
  | chan.Closed c' =>
      let s := set_candidatec s c' in
      let t2 := t1 ++ [Called Detach] in
      match dc_Detach w with
      | Some err =>
          (Returned s,
           t2 ++ [Logged (logError "Failed to detach data channel" [("error", err)])], [])
      | None =>
          let t3 := t2 ++ [Called (DialUDP targetPort)] in
          match net_DialUDP w with
          | Some err =>
              (Returned s,
               t3 ++ [Logged (logError "Failed to dial UDP" [("error", err)]);
                      Called StreamClose], [])
          | None =>
              let t4 := t3 ++
                [Logged (logDebug "WireGuard proxy from local to datachannel started" []);
                 Logged (logDebug "WireGuard proxy from datachannel to local started" [])] in
              let t5 := t4 ++
                match copyError (copyToLocal w) with
                | Some err => [Logged (logError "Failed to copy from datachannel to WireGuard"
                                         [("error", err)])]
                | None => []
                end in
              (Returned (closeConn s),
               t5 ++ [Called ConnClose;
                      Logged (logDebug "WireGuard proxy from datachannel to local stopped" [])],
               copyLocalToChannel w)
          end
      end
  end.

(** [Close] returns what the peer connection's [Close] returns. *)
Definition Close (connClose : option error) (s : WireGuardProxyServer)
    : option error * WireGuardProxyServer :=
  (connClose, closeConn s).

Definition Candidates (s : WireGuardProxyServer) : chan.t string := candidatec s.
Definition Closed (s : WireGuardProxyServer) : chan.t unit := closec s.
Definition Offer (s : WireGuardProxyServer) : string := offer s.

(** ICE candidates arriving one after the other. *)
Fixpoint candidates (pick : bool) (s : WireGuardProxyServer) (cs : list ICECandidate)
    : WireGuardProxyServer :=
  match cs with
  | [] => s
  | c :: rest => candidates pick (stateOf (onICECandidate pick s (Some c)).1) rest
  end.

End datachannels.

(** ** Helpers for stating properties of the observer *)

Module MeshRuns.

Import Mesh.

(** The store with another answer of [RefreshPeers]. *)
Definition withRefresh (s : meshStore) (r : option error) : meshStore :=
  mkStore (HeartbeatPurgeThreshold s) (testStore s) (nodeID s) (raft_IsLeader s)
    (raft_RemoveServer s) (peers_Delete s) r (plugins_HasWatchers s) (peers_Get s)
    (plugins_Emit s).

(** [k] failed heartbeats of [pid] in a row, all observed on the store [s]. *)
Definition failures (s : meshStore) (pid : string) (k : nat) : list (meshStore * Observation) :=
  replicate k (s, FailedHeartbeatObservation pid).

End MeshRuns.

(** ** Helpers for stating properties of the Join RPC *)

Module JoinRuns.

Import peers NodeServer.

(** The server with another answer of [RefreshWireguardPeers]. *)
Definition withRefresh (s : Server) (r : option error) : Server :=
  mkServer (store_IsLeader s) (ulaPrefix s) (meshstate_GetULAPrefix s) (ParseKey s)
    (ParseAddr s) (peers_Get s) (peers_Update s) (peers_Create s) (peers_ListPeers s)
    (util_Random64 s) (ipam_Acquire s) (store_AddVoter s) (store_AddNonVoter s) r.

(** The server with the [ulaPrefix] field a call has left behind. *)
Definition withCache (s : Server) (p : netip.Prefix) : Server :=
  mkServer (store_IsLeader s) p (meshstate_GetULAPrefix s) (ParseKey s)
    (ParseAddr s) (peers_Get s) (peers_Update s) (peers_Create s) (peers_ListPeers s)
    (util_Random64 s) (ipam_Acquire s) (store_AddVoter s) (store_AddNonVoter s)
    (store_RefreshWireguardPeers s).

(** The mesh prefix [Join] works with once it is past the resolution. *)
Definition resolvedPrefix (s : Server) : netip.Prefix :=
  if netip.Prefix_IsValid (ulaPrefix s) then ulaPrefix s else (meshstate_GetULAPrefix s).1.

(** The options [Join] creates a new peer with. *)
Definition createOptionsOf (req : JoinRequest) (publicKey : string)
    (primaryEndpoint : netip.Addr) (endpoints : list netip.Addr) (networkIPv6 : netip.Prefix)
    : CreateOptions :=
  mkCreateOptions (Id req) publicKey primaryEndpoint endpoints networkIPv6
    (GrpcPort req) (ReqRaftPort req) (ReqWireguardPort req).

(** The calls that admit a node to raft. *)
Definition isAddVoter (c : Call) : bool :=
  match c with AddVoter _ _ => true | _ => false end.
Definition isAddNonVoter (c : Call) : bool :=
  match c with AddNonVoter _ _ => true | _ => false end.
Definition isAcquire (c : Call) : bool :=
  match c with Acquire _ => true | _ => false end.
Definition isGetULAPrefix (c : Call) : bool :=
  match c with GetULAPrefix => true | _ => false end.
Definition isRefresh (c : Call) : bool :=
  match c with RefreshWireguardPeers => true | _ => false end.

End JoinRuns.

(** ** Helpers for stating properties of the admin RPC and of the campfire *)

Module AdminRuns.

Import Admin.

Fixpoint logs (t : list Step) : list LogLine :=
  match t with
  | [] => []
  | Called _ :: t' => logs t'
  | Logged l :: t' => l :: logs t'
  end.

End AdminRuns.

Module CampfireRuns.

Import Campfire.

(** The number of [PeerConnection.Close] calls in a trace. *)
Fixpoint closes (t : list Step) : nat :=
  match t with
  | [] => 0
  | Called PeerConnectionClose :: t' => S (closes t')
  | _ :: t' => closes t'
  end.

(** Does the trace create a peer connection? *)
Fixpoint connects (t : list Step) : bool :=
  match t with
  | [] => false
  | Called (NewPeerConnection _) :: _ => true
  | _ :: t' => connects t'
  end.

(** Is there an attribute named [fingerprint]? *)
Definition hasFingerprint (attributes : list Attribute) : bool :=
  existsb (fun a => String.eqb (Key a) "fingerprint") attributes.

End CampfireRuns.

(** ** Helpers for stating properties of the data-channel proxy *)

Module ProxyRuns.

Import datachannels.

Fixpoint calls (t : list Step) : list Call :=
  match t with
  | [] => []
  | Called c :: t' => c :: calls t'
  | Logged _ :: t' => calls t'
  end.

(** Has the channel been closed? *)
Definition isClosed {A} (c : chan.t A) : bool :=
  match c with
  | Some m => chan.closed m
  | None => false
  end.

(** The values waiting in the channel. *)
Definition buffered {A} (c : chan.t A) : list A :=
  match c with
  | Some m => chan.queue m
  | None => []
  end.

(** Did the proxy get as far as copying? *)
Definition proxyStarts (w : World) : bool :=
  match dc_Detach w, net_DialUDP w with
  | None, None => true
  | _, _ => false
  end.

End ProxyRuns.

(** ** Concrete stores, servers and worlds used to run the models *)

Module Examples.

(** The text of a WireGuard key is 32 bytes in standard base64: 43
    characters of the alphabet, the last of which carries four bits only,
    and one padding character. *)
Definition base64Chars : string :=
  "ABCDEFGHIJKLMNOPQRSTUVWXYZabcdefghijklmnopqrstuvwxyz0123456789+/".

Definition base64Last : string := "AEIMQUYcgkosw048".

Fixpoint allIn (chars s : string) : bool :=
  match s with
  | EmptyString => true
  | String c rest => containsByte c chars && allIn chars rest
  end.

Definition isKeyText (k : string) : bool :=
  (String.length k =? 44)%nat
  && allIn base64Chars (String.substring 0 42 k)
  && allIn base64Last (String.substring 42 1 k)
  && String.eqb (String.substring 43 1 k) "=".

(** A parser of keys for the runs: it accepts the text of a key, which is
    then also the text [Key.String()] gives back, and nothing else. *)
Definition parseKey (k : string) : error + string :=
  if isKeyText k then inr k else inl "wgtypes: failed to parse key".

Definition keyB : string := "pWcyYvuOAbBsaEoy/z3ARRR/M1lKjRqVh+J34BHr/AM=".

Definition keyC : string := "wQUMUv1z1jHrFlV9IOmd/dpj8HojG+dOv5L0UcPTizs=".

Definition nodeB : peers.Node :=
  peers.mkNode "B" keyB (netip.IP "203.0.113.7") []
    (netip.mkPrefix (netip.IP "fd00:0:0:1::") 64) netip.ZeroPrefix 8443 9443 51820.

(** A leader with purge threshold 3 whose collaborators all succeed. *)
Definition leaderA : Mesh.meshStore :=
  Mesh.mkStore 3 false "A" true (fun _ _ => None) (fun _ => None) None true
    (fun id => if String.eqb id "B" then inr nodeB else inl "sql: no rows in result set")
    (fun _ => None).

(** The same store on a follower. *)
Definition followerA : Mesh.meshStore :=
  Mesh.mkStore 3 false "A" false (fun _ _ => None) (fun _ => None) None true
    (Mesh.peers_Get leaderA) (fun _ => None).

(** The leader while raft refuses to remove servers. *)
Definition leaderRemoveFails : Mesh.meshStore :=
  Mesh.mkStore 3 false "A" true (fun _ _ => Some "leadership lost") (fun _ => None) None true
    (Mesh.peers_Get leaderA) (fun _ => None).

(** The leader while the registry refuses the deletion. *)
Definition leaderDeleteFails : Mesh.meshStore :=
  Mesh.mkStore 3 false "A" true (fun _ _ => None) (fun _ => Some "storage unavailable") None true
    (Mesh.peers_Get leaderA) (fun _ => None).

(** The leader with the purge switched off. *)
Definition leaderNoPurge : Mesh.meshStore :=
  Mesh.mkStore 0 false "A" true (fun _ _ => None) (fun _ => None) None true
    (Mesh.peers_Get leaderA) (fun _ => None).

(** Two failed heartbeats of [B] have been counted. *)
Definition twoFailures : gmap string Z := <["B" := 2]> ∅.

Definition meshPrefix : netip.Prefix := netip.mkPrefix (netip.IP "fd00::") 48.

Definition leaseB : netip.Prefix := netip.mkPrefix (netip.IP "172.16.0.2") 32.

Definition createdNode (o : peers.CreateOptions) : peers.Node :=
  peers.mkNode (peers.co_ID o) (peers.co_PublicKey o) (peers.co_PrimaryEndpoint o)
    (peers.co_Endpoints o) (peers.co_NetworkIPv6 o) netip.ZeroPrefix
    (peers.co_GRPCPort o) (peers.co_RaftPort o) (peers.co_WireguardPort o).

(** A leader that has the mesh prefix cached and holds the record of [B];
    every collaborator succeeds. *)
Definition joinLeader : NodeServer.Server :=
  NodeServer.mkServer true meshPrefix (meshPrefix, None)
    parseKey
    (fun a => if String.eqb a "" then inl "unable to parse IP" else inr (netip.IP a))
    (fun id => if String.eqb id "B" then peers.Found nodeB else peers.ErrNodeNotFound)
    (fun n => inr n)
    (fun o => inr (createdNode o))
    (fun _ => inr [])
    (fun _ => inr (netip.mkPrefix (netip.IP "fd00:0:0:2::") 64))
    (fun _ => inr leaseB)
    (fun _ _ => None) (fun _ _ => None) None.

(** A leader that has not resolved the mesh prefix yet, on a store that
    cannot answer for it. *)
Definition joinLeaderNoPrefix : NodeServer.Server :=
  NodeServer.mkServer true netip.ZeroPrefix (netip.ZeroPrefix, Some "key not found")
    (NodeServer.ParseKey joinLeader) (NodeServer.ParseAddr joinLeader)
    (NodeServer.peers_Get joinLeader) (NodeServer.peers_Update joinLeader)
    (NodeServer.peers_Create joinLeader) (NodeServer.peers_ListPeers joinLeader)
    (NodeServer.util_Random64 joinLeader) (NodeServer.ipam_Acquire joinLeader)
    (fun _ _ => None) (fun _ _ => None) None.

(** The request that repeats the stored record of [B] field by field. *)
Definition rejoinB : NodeServer.JoinRequest :=
  NodeServer.mkJoinRequest "B" keyB "203.0.113.7" [] 8443 9443 51820
    false false false.

(** [B] joins asking for an IPv4 address, as a voter. *)
Definition joinB4 : NodeServer.JoinRequest :=
  NodeServer.mkJoinRequest "B" keyB "203.0.113.7" [] 8443 9443 51820
    true false true.

(** A request without an id. *)
Definition joinNoId : NodeServer.JoinRequest :=
  NodeServer.mkJoinRequest "" keyB "" [] 8443 9443 51820 false false false.

(** An admin server on the leader whose RBAC evaluator allows everything,
    and one whose evaluator denies the caller. *)
Definition adminLeader : Admin.Server :=
  Admin.mkServer true (fun _ => (true, None)) Admin.isSystemName (fun _ => None).

Definition adminLeaderDenied : Admin.Server :=
  Admin.mkServer true (fun _ => (false, None)) Admin.isSystemName (fun _ => None).

Definition bootstrapNodesACL : Admin.NetworkACL := Admin.mkNetworkACL "bootstrap-nodes".

(** A world in which pion answers every call with success. *)
Definition pionOK : Campfire.World :=
  Campfire.mkWorld None None (inr "v=0 (offer)") None
    (inr [Campfire.mkAttribute "fingerprint" "sha-256 AB:CD:EF"])
    (fun _ => inr "v=0 (answer)") None None (inr "sctp-stream").

(** A world in which detaching the data channel and closing the peer
    connection fail. *)
Definition pionFailing : Campfire.World :=
  Campfire.mkWorld None None (inr "v=0 (offer)") None
    (inr [Campfire.mkAttribute "fingerprint" "sha-256 AB:CD:EF"])
    (fun _ => inr "v=0 (answer)") None (Some "close failed") (inl "detach failed").

(** An hour-long epoch and a hash for running the rendezvous. *)
Definition hourEpoch : Z := 3600.

Definition toyHash (psk : list Byte.byte) (relays : list string) (epoch : Z) : N * string :=
  ((N.of_nat (length psk) + N.of_nat (length relays) + Z.to_N epoch)%N,
   "secret-" +:+ Itoa epoch).

Definition helloOptions : Campfire.Options :=
  Campfire.mkOptions (list_byte_of_string "hello") ["turn://r1"].

(** The camp fire [New] hands out. *)
Definition freshCampFire : Campfire.CampFire :=
  Campfire.mkCampFire 0 None (chan.make 1) None (chan.make 0).

End Examples.

(** ** Further inputs for the runs *)

Module MoreExamples.

(** The environment with the forwarders variable set. *)
Definition envForwarders (name : string) : string :=
  if String.eqb name "SERVICES_MESH_DNS_FORWARDERS" then "1.1.1.1,8.8.8.8" else "".

Definition dnsEnabled : services.MeshDNSOptions :=
  services.mkMeshDNSOptions true ":5353" ":5353" 0 true (services.Second * 5) [] false 0.

Definition parseAddr (a : string) : error + netip.Addr :=
  if String.eqb a "" || String.eqb a "invalid Prefix" then inl "unable to parse IP"
  else inr (netip.IP a).

Definition stateNodeA : state.Node :=
  state.mkNode "A" "198.51.100.1" 8443 (netip.mkPrefix (netip.IP "172.16.0.1") 32)
    (netip.mkPrefix (netip.IP "fd00:0:0:a::") 64).

Definition stateNodeB : state.Node :=
  state.mkNode "B" "" 8443 netip.ZeroPrefix (netip.mkPrefix (netip.IP "fd00:0:0:b::") 64).

Definition meshState : state.state :=
  state.mkState (fun _ => inl "key not found") (inr [stateNodeA; stateNodeB])
    (inr [stateNodeA; stateNodeB]) parseAddr (fun _ => inl "no '/'").

(** [netsh] refusing a route it already has. *)
Definition netshExists (cmd : list string) : string * option error :=
  ("The object already exists.", Some "exit status 1").

(** A request of a node the registry does not know. *)
Definition joinC : NodeServer.JoinRequest :=
  NodeServer.mkJoinRequest "C" Examples.keyC "" ["192.0.2.9"] 8443 9443 51820
    false false false.

(** [E] is registered with an endpoint. *)
Definition nodeE : peers.Node :=
  peers.mkNode "E" Examples.keyC (netip.IP "198.51.100.5") [netip.IP "198.51.100.5"]
    (netip.mkPrefix (netip.IP "fd00:0:0:5::") 64) netip.ZeroPrefix 8443 9443 51820.

(** The leader of the examples with the record of [E] in its registry. *)
Definition joinLeaderE : NodeServer.Server :=
  NodeServer.mkServer true Examples.meshPrefix (Examples.meshPrefix, None)
    Examples.parseKey (NodeServer.ParseAddr Examples.joinLeader)
    (fun id => if String.eqb id "E" then peers.Found nodeE else peers.ErrNodeNotFound)
    (fun n => inr n)
    (NodeServer.peers_Create Examples.joinLeader)
    (fun _ => inr [])
    (NodeServer.util_Random64 Examples.joinLeader)
    (NodeServer.ipam_Acquire Examples.joinLeader)
    (fun _ _ => None) (fun _ _ => None) None.

(** [E] joins again, listing the endpoint it is registered with. *)
Definition rejoinE : NodeServer.JoinRequest :=
  NodeServer.mkJoinRequest "E" Examples.keyC "198.51.100.5" ["198.51.100.5"] 8443 9443 51820
    false false false.

(** What [Join] answers [B] asking for an IPv4 address. *)
Definition responseB4 : NodeServer.JoinResponse :=
  NodeServer.mkJoinResponse "fd00:0:0:1::/64" "172.16.0.2/32" [].

(** A world in which the proxy's calls all succeed and the copies end with
    the end of their input. *)
Definition proxyOK : datachannels.World :=
  datachannels.mkWorld None None (inr "v=0 (offer)") None (fun o => inr o)
    (inr ("host 10.0.0.1:5000", "host 10.0.0.2:5000")) None None
    datachannels.CopyEOF datachannels.CopyEOF.

Definition candidateA : datachannels.ICECandidate :=
  datachannels.mkICECandidate "udp host 10.0.0.1:5000" "candidate:1 1 udp 2130706431 10.0.0.1 5000 typ host".

End MoreExamples.

(** * Properties of the observer *)

Section ObserverProperties.

Import Mesh.

Lemma calls_app (a b : list Step) : calls (a ++ b) = calls a ++ calls b.
Proof.
  induction a as [|x a IH]; simpl; [reflexivity|].
  destruct x; simpl; rewrite IH; reflexivity.
Qed.

Lemma logs_app (a b : list Step) : logs (a ++ b) = logs a ++ logs b.
Proof.
  induction a as [|x a IH]; simpl; [reflexivity|].
  destruct x; simpl; rewrite IH; reflexivity.
Qed.

Lemma emitted_app (a b : list Step) : emitted (a ++ b) = emitted a ++ emitted b.
Proof.
  induction a as [|x a IH]; simpl; [reflexivity|].
  destruct x as [c|l]; [destruct c|]; simpl; rewrite IH; reflexivity.
Qed.

(** The heartbeat case in closed form: the map and the collaborator calls
    for each way the guards and the two calls can go. *)
Lemma failed_heartbeat_cases (s : meshStore) (fh : gmap string Z) (pid : string) :
  let n := wrap_int (count fh pid + 1) in
  let r := observer s fh (FailedHeartbeatObservation pid) in
  (HeartbeatPurgeThreshold s <= 0 /\ r.1 = fh /\ calls r.2 = []) \/
  (0 < HeartbeatPurgeThreshold s /\
   ((HeartbeatPurgeThreshold s <= n /\ raft_IsLeader s = true /\
     ((exists err, raft_RemoveServer s pid true = Some err /\
         r.1 = <[pid := n]> fh /\ calls r.2 = [RemoveServer pid true]) \/
      (raft_RemoveServer s pid true = None /\
         r.1 = delete pid fh /\ calls r.2 = [RemoveServer pid true; PeersDelete pid]))) \/
    (~ (HeartbeatPurgeThreshold s <= n /\ raft_IsLeader s = true) /\
       r.1 = <[pid := n]> fh /\ calls r.2 = []))).
Proof.
  intros n r. subst r. unfold observer.
  destruct (Z.leb_spec (HeartbeatPurgeThreshold s) 0) as [Hle|Hgt].
  - left. simpl. auto.
  - right. split; [lia|].
    unfold onFailedHeartbeat. fold n.
    destruct (Z.leb_spec (HeartbeatPurgeThreshold s) n) as [Hn|Hn];
      destruct (raft_IsLeader s) eqn:Hl; simpl.
    + left. split; [lia|]. split; [reflexivity|].
      destruct (raft_RemoveServer s pid true) as [err|] eqn:Hr; simpl.
      * left. exists err. auto.
      * right. split; [reflexivity|]. split; [apply delete_insert_eq|].
        destruct (peers_Delete s pid); simpl; reflexivity.
    + right. split; [intros [_ H]; discriminate|]. auto.
    + right. split; [intros [H _]; lia|]. auto.
    + right. split; [intros [H _]; lia|]. auto.
Qed.

(** C1. A [FailedHeartbeat] observation with [HeartbeatPurgeThreshold <= 0]
    changes no counter and makes no call.  With a positive threshold the
    counter of the peer is incremented and the purge is issued
    ([RemoveServer] with [force = true], followed by [peers.Delete] once the
    removal went through) if and only if the incremented counter has reached
    the threshold and the node is the leader; on a follower nothing is ever
    called, whatever the counter. *)
Theorem failed_heartbeat_purge_iff_threshold_and_leader
    (s : meshStore) (fh : gmap string Z) (pid : string) :
  let n := wrap_int (count fh pid + 1) in
  let r := observer s fh (FailedHeartbeatObservation pid) in
  (HeartbeatPurgeThreshold s <= 0 -> r.1 = fh /\ calls r.2 = []) /\
  (0 < HeartbeatPurgeThreshold s ->
     (In (RemoveServer pid true) (calls r.2) <->
        HeartbeatPurgeThreshold s <= n /\ raft_IsLeader s = true) /\
     (In (PeersDelete pid) (calls r.2) <->
        HeartbeatPurgeThreshold s <= n /\ raft_IsLeader s = true /\
        raft_RemoveServer s pid true = None) /\
     (calls r.2 = [] \/ calls r.2 = [RemoveServer pid true] \/
      calls r.2 = [RemoveServer pid true; PeersDelete pid]) /\
     (~ (HeartbeatPurgeThreshold s <= n /\ raft_IsLeader s = true) ->
        r.1 = <[pid := n]> fh) /\
     (raft_IsLeader s = false -> calls r.2 = [])).
Proof.
  intros n r. subst n r.
  pose proof (failed_heartbeat_cases s fh pid) as H. cbv zeta in H.
  destruct H as [(Hle & Hfh & Hc) | (Hgt & Hcase)].
  - split; [auto | intros; lia].
  - split; [intros; lia | intros _].
    destruct Hcase as [(Hn & Hl & [(err & Hr & Hfh & Hc) | (Hr & Hfh & Hc)]) | (Hno & Hfh & Hc)];
      rewrite Hc; simpl;
      (split; [|split; [|split; [|split]]]).
    + split; [intros _; auto | auto].
    + split; [intros [E|[]]; discriminate | intros (_ & _ & E); congruence].
    + auto.
    + intros E. exfalso. apply E. auto.
    + intros E. congruence.
    + split; [intros _; auto | auto].
    + split; [intros _; auto | auto].
    + auto.
    + intros E. exfalso. apply E. auto.
    + intros E. congruence.
    + split; [intros [] | intros E; exfalso; apply Hno; exact E].
    + split; [intros [] | intros (E1 & E2 & _); exfalso; apply Hno; auto].
    + auto.
    + intros _. exact Hfh.
    + auto.
Qed.

(** The third failed heartbeat of [B] on the leader with threshold 3. *)
Lemma failed_heartbeat_purge_witness :
  0 < HeartbeatPurgeThreshold Examples.leaderA /\
  (In (RemoveServer "B" true)
      (calls (observer Examples.leaderA Examples.twoFailures
                (FailedHeartbeatObservation "B")).2) <->
   HeartbeatPurgeThreshold Examples.leaderA <= wrap_int (count Examples.twoFailures "B" + 1) /\
   raft_IsLeader Examples.leaderA = true).
Proof.
  split; [reflexivity|].
  apply (failed_heartbeat_purge_iff_threshold_and_leader
           Examples.leaderA Examples.twoFailures "B").
  reflexivity.
Defined.

Lemma wrap_int_id (z : Z) : min_int <= z <= max_int -> wrap_int z = z.
Proof.
  unfold min_int, max_int, wrap_int. intros H.
  rewrite Z.mod_small; lia.
Qed.

Lemma wrap_int_range (z : Z) : min_int <= wrap_int z <= max_int.
Proof.
  unfold min_int, max_int, wrap_int.
  pose proof (Z.mod_pos_bound (z + 2 ^ 63) (2 ^ 64) ltac:(lia)). lia.
Qed.

Lemma count_insert (fh : gmap string Z) (pid : string) (n : Z) :
  count (<[pid := n]> fh) pid = n.
Proof. unfold count. rewrite lookup_insert_eq. reflexivity. Qed.

Lemma count_delete (fh : gmap string Z) (pid : string) :
  count (delete pid fh) pid = 0.
Proof. unfold count. rewrite lookup_delete_eq. reflexivity. Qed.

(** The trace of a purge whose [RemoveServer] fails, and of one whose
    [peers.Delete] fails. *)
Lemma purge_trace_remove_fails (s : meshStore) (fh : gmap string Z) (pid : string) (err : error) :
  let n := wrap_int (count fh pid + 1) in
  0 < HeartbeatPurgeThreshold s -> HeartbeatPurgeThreshold s <= n ->
  raft_IsLeader s = true -> raft_RemoveServer s pid true = Some err ->
  observer s fh (FailedHeartbeatObservation pid) =
    (<[pid := n]> fh,
     [Logged (obsDebug "received observation event" [("type", "raft.FailedHeartbeatObservation")]);
      Logged (obsDebug "failed heartbeat" [("peer", pid); ("count", Itoa n)]);
      Logged (obsInfo "failed heartbeat threshold reached, removing peer" [("peer", pid)]);
      Called (RemoveServer pid true);
      Logged (obsWarn "failed to remove peer" [("error", err)])]).
Proof.
  intros n H0 Hn Hl Hr. unfold observer, onFailedHeartbeat. fold n.
  destruct (Z.leb_spec (HeartbeatPurgeThreshold s) 0); [lia|].
  destruct (Z.leb_spec (HeartbeatPurgeThreshold s) n); [|lia].
  rewrite Hl, Hr. reflexivity.
Qed.

Lemma purge_trace_delete_fails (s : meshStore) (fh : gmap string Z) (pid : string) (err : error) :
  let n := wrap_int (count fh pid + 1) in
  0 < HeartbeatPurgeThreshold s -> HeartbeatPurgeThreshold s <= n ->
  raft_IsLeader s = true -> raft_RemoveServer s pid true = None ->
  peers_Delete s pid = Some err ->
  observer s fh (FailedHeartbeatObservation pid) =
    (delete pid fh,
     [Logged (obsDebug "received observation event" [("type", "raft.FailedHeartbeatObservation")]);
      Logged (obsDebug "failed heartbeat" [("peer", pid); ("count", Itoa n)]);
      Logged (obsInfo "failed heartbeat threshold reached, removing peer" [("peer", pid)]);
      Called (RemoveServer pid true);
      Called (PeersDelete pid);
      Logged (obsWarn "failed to remove peer from database" [("error", err)])]).
Proof.
  intros n H0 Hn Hl Hr Hd. unfold observer, onFailedHeartbeat. fold n.
  destruct (Z.leb_spec (HeartbeatPurgeThreshold s) 0); [lia|].
  destruct (Z.leb_spec (HeartbeatPurgeThreshold s) n); [|lia].
  rewrite Hl, Hr, Hd. simpl. rewrite delete_insert_eq. reflexivity.
Qed.

(** C2, as stated, fails: on the leader, with two failures of [B] counted
    and threshold 3, the third failure triggers the purge; [RemoveServer]
    succeeds, [peers.Delete] fails, and the counter of [B] is gone. *)
Lemma purge_failure_keeps_counter_fails_on_delete :
  ~ purge_failure_keeps_counter Examples.leaderDeleteFails Examples.twoFailures "B".
Proof.
  unfold purge_failure_keeps_counter. intros H.
  assert (E : (observer Examples.leaderDeleteFails Examples.twoFailures
                 (FailedHeartbeatObservation "B")).1 !! "B" = Some 3).
  { apply H; [reflexivity | vm_compute; discriminate | reflexivity |].
    right. split; [reflexivity|]. exists "storage unavailable". reflexivity. }
  clear H.
  vm_compute in E. discriminate.
Qed.

(** C2, amended.  When the purge is triggered and [RemoveServer] fails, the
    failure is logged and the counter of the peer is kept, so that the next
    failed heartbeat of the peer issues the purge again (as long as the
    counter has not reached the largest [int]).  When [RemoveServer] succeeds
    and [peers.Delete] fails, the failure is logged and the counter of the
    peer is cleared, as after a purge that succeeded. *)
Theorem purge_failure_counter (s : meshStore) (fh : gmap string Z) (pid : string) :
  let n := wrap_int (count fh pid + 1) in
  let r := observer s fh (FailedHeartbeatObservation pid) in
  0 < HeartbeatPurgeThreshold s ->
  HeartbeatPurgeThreshold s <= n ->
  raft_IsLeader s = true ->
  (forall err, raft_RemoveServer s pid true = Some err ->
     In (obsWarn "failed to remove peer" [("error", err)]) (logs r.2) /\
     calls r.2 = [RemoveServer pid true] /\
     r.1 !! pid = Some n /\
     (forall s', HeartbeatPurgeThreshold s' = HeartbeatPurgeThreshold s ->
        raft_IsLeader s' = true -> n < max_int ->
        In (RemoveServer pid true)
           (calls (observer s' r.1 (FailedHeartbeatObservation pid)).2))) /\
  (forall err, raft_RemoveServer s pid true = None -> peers_Delete s pid = Some err ->
     In (obsWarn "failed to remove peer from database" [("error", err)]) (logs r.2) /\
     calls r.2 = [RemoveServer pid true; PeersDelete pid] /\
     r.1 !! pid = None /\
     count r.1 pid = 0).
Proof.
  intros n r H0 Hn Hl. split.
  - intros err Hr. subst r.
    rewrite (purge_trace_remove_fails s fh pid err H0 Hn Hl Hr). fold n. cbn [fst snd].
    split; [simpl; tauto|]. split; [reflexivity|]. split; [apply lookup_insert_eq|].
    intros s' Ht Hl' Hmax.
    pose proof (failed_heartbeat_cases s' (<[pid := n]> fh) pid) as C. cbv zeta in C.
    rewrite count_insert in C.
    assert (Hw : wrap_int (n + 1) = n + 1).
    { apply wrap_int_id. pose proof (wrap_int_range (count fh pid + 1)). fold n in H.
      unfold min_int, max_int in *. lia. }
    rewrite Hw in C.
    destruct C as [(Hle & _) | (_ & [(_ & _ & [(e & _ & _ & Hc) | (_ & _ & Hc)]) | (Hno & _)])].
    + lia.
    + rewrite Hc. simpl. auto.
    + rewrite Hc. simpl. auto.
    + exfalso. apply Hno. split; [lia | assumption].
  - intros err Hr Hd. subst r.
    rewrite (purge_trace_delete_fails s fh pid err H0 Hn Hl Hr Hd). cbn [fst snd].
    split; [simpl; tauto|]. split; [reflexivity|].
    split; [apply lookup_delete_eq | apply count_delete].
Qed.

(** The purge of [B] while raft refuses removals: logged, counter kept. *)
Lemma purge_failure_counter_witness :
  In (obsWarn "failed to remove peer" [("error", "leadership lost")])
     (logs (observer Examples.leaderRemoveFails Examples.twoFailures
              (FailedHeartbeatObservation "B")).2) /\
  (observer Examples.leaderRemoveFails Examples.twoFailures
     (FailedHeartbeatObservation "B")).1 !! "B" = Some 3.
Proof.
  destruct (purge_failure_counter Examples.leaderRemoveFails Examples.twoFailures "B")
    as [H _]; [reflexivity | vm_compute; discriminate | reflexivity |].
  destruct (H "leadership lost" eq_refl) as (H1 & _ & H3 & _).
  split; [exact H1 | exact H3].
Defined.

(** A test store ignores peer observations altogether. *)
Lemma peer_observation_test_store (s : meshStore) (fh : gmap string Z)
    (removed : bool) (peer : Server) :
  testStore s = true ->
  calls (observer s fh (PeerObservation removed peer)).2 = [].
Proof.
  intros Ht. unfold observer, onPeer. rewrite Ht. reflexivity.
Qed.

(** C7. For a [PeerChange] observation that is not about the local node,
    with plugin watchers registered and the node record found by the
    observer's lookup, exactly one event is emitted: [NODE_LEAVE] with
    cluster status unknown when [removed] is set, and otherwise [NODE_JOIN]
    with status non-voter for a non-voter and voter for any other suffrage.
    (On a test store the observer returns before any lookup, so that no
    record is found there.) *)
Theorem peer_change_event (s : meshStore) (fh : gmap string Z)
    (removed : bool) (peer : Server) (node : peers.Node) :
  let r := observer s fh (PeerObservation removed peer) in
  ServerID peer <> nodeID s ->
  plugins_HasWatchers s = true ->
  recordFound s r.2 (ServerID peer) node ->
  emitted r.2 =
    [mkEvent
       (if removed then WATCH_EVENT_NODE_LEAVE else WATCH_EVENT_NODE_JOIN)
       (mkMeshNode node
          (if removed then CLUSTER_STATUS_UNKNOWN
           else match Suffrage peer with
                | Nonvoter => CLUSTER_NON_VOTER
                | _ => CLUSTER_VOTER
                end))] /\
  r.1 = fh.
Proof.
  intros r Hself Hw [Hlook Hget]. subst r.
  unfold observer, onPeer in *.
  destruct (testStore s); [simpl in Hlook; contradiction|].
  destruct (String.eqb_spec (ServerID peer) (nodeID s)) as [E|_]; [contradiction|].
  rewrite Hw, Hget. cbn [fst snd].
  split; [|reflexivity].
  destruct (nw_RefreshPeers s), (plugins_Emit s _); destruct removed; reflexivity.
Qed.

(** [B] joins as a non-voter, observed on [A]. *)
Lemma peer_change_event_witness :
  emitted (observer Examples.leaderA ∅
             (PeerObservation false (mkServer Nonvoter "B" "[fd00:0:0:1::]:9443"))).2 =
    [mkEvent WATCH_EVENT_NODE_JOIN (mkMeshNode Examples.nodeB CLUSTER_NON_VOTER)] /\
  (observer Examples.leaderA ∅
     (PeerObservation false (mkServer Nonvoter "B" "[fd00:0:0:1::]:9443"))).1 = ∅.
Proof.
  apply (peer_change_event Examples.leaderA ∅ false
           (mkServer Nonvoter "B" "[fd00:0:0:1::]:9443") Examples.nodeB).
  - vm_compute. discriminate.
  - reflexivity.
  - split; [vm_compute; auto | reflexivity].
Defined.

End ObserverProperties.

(** * Properties of the Join RPC *)

Section JoinProperties.

Import peers NodeServer.

Local Arguments validate : simpl never.
Local Arguments mergePeer : simpl never.
Local Arguments raftAddressOf : simpl never.
Local Arguments renderPeer : simpl never.
Local Arguments String.append : simpl never.
Local Arguments netip.Prefix_String : simpl never.
Local Arguments netip.Prefix_IsValid : simpl never.

(** Unfolds the monad of [Join] on its initial state. *)
Ltac run_join :=
  unfold Join, JoinM, afterAdmission, admission, resolvePrefix, upsertPeer, acquireLease,
    addToCluster, deferredRefresh, lift, bind, ret, fail, panic, call, say, getCache, setCache,
    resultOf, cacheOf, traceOf in *;
  cbn in *.

(** Splits on the next answer the run depends on. *)
Ltac next_answer :=
  match goal with
  | |- context [match ?x with _ => _ end] =>
      lazymatch x with
      | context [match _ with _ => _ end] => fail
      | _ => destruct x eqn:?
      end
  end; cbn in *.

(** C5, as stated, fails: a leader that cannot resolve the mesh prefix
    answers a request without an id with [Internal]. *)
Lemma empty_id_before_prefix_fails :
  ~ empty_id_is_InvalidArgument Examples.joinLeaderNoPrefix Examples.joinNoId.
Proof.
  unfold empty_id_is_InvalidArgument. intros H.
  specialize (H eq_refl eq_refl). vm_compute in H. discriminate.
Qed.

(** C5, amended.  On a leader, the lazy resolution of the mesh IPv6 prefix
    precedes input validation.  A request with an empty id is answered with
    [InvalidArgument] when the prefix is cached or its resolution succeeds,
    and nothing but the resolution has been called by then; when the
    resolution fails the answer is [Internal]. *)
Theorem empty_id_after_prefix (s : Server) (req : JoinRequest) :
  store_IsLeader s = true ->
  Id req = "" ->
  (netip.Prefix_IsValid (ulaPrefix s) = true ->
     Join s req =
       (Returned (inl (mkStatus codes.InvalidArgument "node id required")), ulaPrefix s, [])) /\
  (netip.Prefix_IsValid (ulaPrefix s) = false ->
     forall p, meshstate_GetULAPrefix s = (p, None) ->
     Join s req =
       (Returned (inl (mkStatus codes.InvalidArgument "node id required")), p,
        [Called GetULAPrefix])) /\
  (netip.Prefix_IsValid (ulaPrefix s) = false ->
     forall p e, meshstate_GetULAPrefix s = (p, Some e) ->
     Join s req =
       (Returned (inl (mkStatus codes.Internal ("failed to get ULA prefix: " +:+ e))), p,
        [Called GetULAPrefix])).
Proof.
  intros Hl Hid.
  assert (Hv : validate s req = inl (mkStatus codes.InvalidArgument "node id required")).
  { unfold validate. rewrite Hid. reflexivity. }
  repeat split.
  - intros Hc. run_join. rewrite Hl. cbn. rewrite Hc. cbn. rewrite Hv. reflexivity.
  - intros Hc p Hg. run_join. rewrite Hl. cbn. rewrite Hc, Hg. cbn. rewrite Hv. reflexivity.
  - intros Hc p e Hg. run_join. rewrite Hl. cbn. rewrite Hc, Hg. reflexivity.
Qed.

(** A leader with the prefix cached rejects the request without an id. *)
Lemma empty_id_after_prefix_witness :
  Join Examples.joinLeader Examples.joinNoId =
    (Returned (inl (mkStatus codes.InvalidArgument "node id required")),
     Examples.meshPrefix, []).
Proof.
  apply (empty_id_after_prefix Examples.joinLeader Examples.joinNoId);
    reflexivity.
Defined.

(** [mergePeer] panics exactly when the stored record and the request both
    list endpoints. *)
Lemma mergePeer_panics (stored : Node) (publicKey : string) (req : JoinRequest)
    (primaryEndpoint : netip.Addr) (endpoints : list netip.Addr) :
  mergePeer stored publicKey req primaryEndpoint endpoints = None <->
  Endpoints stored <> [] /\ endpoints <> [].
Proof.
  destruct stored as [id pk pe eps v6 v4 g r w]. unfold mergePeer. cbn.
  repeat match goal with
         | |- context [if ?b then _ else _] => destruct b; cbn
         end;
    destruct eps, endpoints; cbn;
      (split; [ first [ discriminate | intros _; split; discriminate ]
              | first [ intros _; reflexivity | intros [? ?]; congruence ] ]).
Qed.

(** The record [mergePeer] returns. *)
Lemma mergePeer_merged (stored : Node) (publicKey : string) (req : JoinRequest)
    (primaryEndpoint : netip.Addr) (endpoints : list netip.Addr) (m : Node) :
  mergePeer stored publicKey req primaryEndpoint endpoints = Some m ->
  mergedFrom stored publicKey req primaryEndpoint endpoints m.
Proof.
  destruct stored as [id pk pe eps v6 v4 g r w]. unfold mergePeer, mergedFrom. cbn.
  repeat match goal with
         | |- context [if ?b then _ else _] => destruct b eqn:?; cbn
         end;
    destruct eps, endpoints; cbn; intros E; first [ discriminate | injection E as <- ];
    repeat match goal with
           | H : negb _ = true |- _ => apply negb_true_iff in H
           | H : negb _ = false |- _ => apply negb_false_iff in H
           | H : _ && _ = true |- _ => apply andb_true_iff in H as [? ?]
           | H : _ && _ = false |- _ => apply andb_false_iff in H as [?|?]
           | H : (_ =? _)%string = true |- _ => apply String.eqb_eq in H
           | H : (_ =? _)%Z = true |- _ => apply Z.eqb_eq in H
           end;
    cbn in *; repeat split; auto; try congruence.
Qed.

Lemma mergePeer_same (stored : Node) (publicKey : string) (req : JoinRequest)
    (primaryEndpoint : netip.Addr) (endpoints : list netip.Addr) :
  sameFields stored publicKey req primaryEndpoint endpoints ->
  endpoints = [] ->
  mergePeer stored publicKey req primaryEndpoint endpoints = Some stored.
Proof.
  intros (Hk & Hg & Hr & Hw & Hp & He) ->. unfold mergePeer. cbv zeta.
  rewrite Hk, String.eqb_refl. cbn [negb].
  rewrite Hg, Z.eqb_refl. cbn [negb].
  rewrite Hr, Z.eqb_refl. cbn [negb].
  rewrite Hw, Z.eqb_refl. cbn [negb].
  rewrite Hp, String.eqb_refl, andb_false_r.
  rewrite He. reflexivity.
Qed.

(** C4, as stated, fails: the request that repeats the stored record of [B]
    field by field makes the leader write the record back. *)
Lemma repeated_join_writes :
  ~ repeated_join_writes_nothing Examples.joinLeader Examples.rejoinB.
Proof.
  unfold repeated_join_writes_nothing. intros H.
  specialize (H Examples.nodeB Examples.keyB (netip.IP "203.0.113.7") []
                eq_refl (or_introl eq_refl) eq_refl eq_refl).
  assert (S : sameFields Examples.nodeB Examples.keyB Examples.rejoinB
                (netip.IP "203.0.113.7") []) by (repeat split).
  specialize (H S). vm_compute in H. discriminate.
Qed.

(** C4, amended.  For a Join request that passes validation and whose id
    names an existing node record, where the stored record or the request
    lists no endpoints, the service gives the stored record the public key,
    the ports and the endpoint list of the request, and the primary endpoint
    of the request when that is a valid address (the stored one is kept
    otherwise), and writes the result back with [peers.Update], once,
    whether or not a field changed; for a request that repeats the stored
    record the record written back is the stored one. *)
Theorem existing_peer_always_updated (s : Server) (req : JoinRequest) (stored : Node)
    (publicKey : string) (primaryEndpoint : netip.Addr) (endpoints : list netip.Addr) :
  store_IsLeader s = true ->
  prefixResolves s ->
  validate s req = inr (publicKey, primaryEndpoint, endpoints) ->
  peers_Get s (Id req) = Found stored ->
  comparable stored endpoints ->
  exists merged,
    mergedFrom stored publicKey req primaryEndpoint endpoints merged /\
    registryWrites (traceOf (Join s req)) = [PeersUpdate merged] /\
    (sameFields stored publicKey req primaryEndpoint endpoints -> merged = stored).
Proof.
  intros Hl Hp Hv Hg Hcmp.
  destruct (mergePeer stored publicKey req primaryEndpoint endpoints) as [merged|] eqn:Hm.
  2:{ apply mergePeer_panics in Hm as [H1 H2]. destruct Hcmp; contradiction. }
  exists merged. split; [eapply mergePeer_merged, Hm|]. split.
  - run_join. rewrite Hl. cbn. rewrite Hv. cbn. rewrite Hg. cbn. rewrite Hm. cbn.
    destruct Hp as [Hc | Hn].
    + rewrite Hc. cbn. repeat next_answer; reflexivity.
    + destruct (netip.Prefix_IsValid (ulaPrefix s)); cbn.
      * repeat next_answer; reflexivity.
      * destruct (meshstate_GetULAPrefix s) as [p e]. cbn in Hn. subst e. cbn.
        repeat next_answer; reflexivity.
  - intros Hs.
    assert (He : endpoints = []).
    { destruct Hs as (_ & _ & _ & _ & _ & He). destruct Hcmp; congruence. }
    rewrite (mergePeer_same _ _ _ _ _ Hs He) in Hm. congruence.
Qed.

(** The repeated Join of [B] writes the stored record of [B] back. *)
Lemma existing_peer_always_updated_witness :
  registryWrites (traceOf (Join Examples.joinLeader Examples.rejoinB)) =
    [PeersUpdate Examples.nodeB].
Proof.
  destruct (existing_peer_always_updated Examples.joinLeader Examples.rejoinB Examples.nodeB
              Examples.keyB (netip.IP "203.0.113.7") [])
    as (merged & _ & W & S);
    [reflexivity | left; reflexivity | reflexivity | reflexivity | left; reflexivity |].
  rewrite W, S; [reflexivity | repeat split].
Defined.

Local Arguments JoinHostPort : simpl never.
Local Arguments Itoa : simpl never.




Local Arguments admission : simpl never.



End JoinProperties.

(** * Properties of [DeleteNetworkACL] *)

Section AdminProperties.

Import Admin.

(** C6, as stated, fails: a caller the evaluator denies, deleting
    [bootstrap-nodes] on the leader, is answered with [PermissionDenied]. *)
Lemma reserved_name_denied_caller :
  ~ reserved_name_is_InvalidArgument Examples.adminLeaderDenied Examples.bootstrapNodesACL.
Proof.
  unfold reserved_name_is_InvalidArgument. intros H.
  destruct (H eq_refl eq_refl) as [H1 _]. vm_compute in H1. discriminate.
Qed.

(** C6, amended.  [DeleteNetworkACL] checks, in this order: leadership
    ([FailedPrecondition]), the name ([InvalidArgument] when empty), the
    authorization ([PermissionDenied], system-reserved name or not), the
    system-reserved names ([InvalidArgument]), and then delegates the
    mutation ([Internal] on a storage error).  Deleting a system-reserved
    name never touches storage: an authorized caller gets [InvalidArgument],
    a denied caller [PermissionDenied]. *)
Theorem delete_network_acl_order (s : Server) (acl : NetworkACL) :
  let r := DeleteNetworkACL s acl in
  let authorized := (rbacEval_Evaluate s (For deleteNetworkACLAction (Name acl))).1 in
  (raft_IsLeader s = false ->
     codeOf r.1 = codes.FailedPrecondition /\ r.2 = []) /\
  (raft_IsLeader s = true -> Name acl = "" ->
     codeOf r.1 = codes.InvalidArgument /\ r.2 = []) /\
  (raft_IsLeader s = true -> Name acl <> "" -> authorized = false ->
     codeOf r.1 = codes.PermissionDenied /\
     evaluates r.2 = true /\ touchesStorage r.2 = false) /\
  (raft_IsLeader s = true -> Name acl <> "" -> authorized = true ->
     IsSystemNetworkACL s (Name acl) = true ->
     codeOf r.1 = codes.InvalidArgument /\
     evaluates r.2 = true /\ touchesStorage r.2 = false) /\
  (raft_IsLeader s = true -> Name acl <> "" -> authorized = true ->
     IsSystemNetworkACL s (Name acl) = false ->
     touchesStorage r.2 = true /\
     match networking_DeleteNetworkACL s (Name acl) with
     | Some e => r.1 = inl (mkStatus codes.Internal e)
     | None => r.1 = inr tt
     end) /\
  (IsSystemNetworkACL s (Name acl) = true -> touchesStorage r.2 = false).
Proof.
  intros r authorized. subst r authorized. unfold DeleteNetworkACL.
  destruct (raft_IsLeader s); cbn [negb];
    destruct (String.eqb_spec (Name acl) "") as [En|En];
    destruct (rbacEval_Evaluate s (For deleteNetworkACLAction (Name acl))) as [ok err];
    destruct ok; cbn [negb fst snd];
    destruct (IsSystemNetworkACL s (Name acl));
    destruct (networking_DeleteNetworkACL s (Name acl));
    destruct err; cbn;
    repeat split; intros; try reflexivity; try congruence; try contradiction.
Qed.

(** An authorized caller deleting [bootstrap-nodes] on the leader. *)
Lemma delete_network_acl_order_witness :
  codeOf (DeleteNetworkACL Examples.adminLeader Examples.bootstrapNodesACL).1 =
    codes.InvalidArgument /\
  evaluates (DeleteNetworkACL Examples.adminLeader Examples.bootstrapNodesACL).2 = true /\
  touchesStorage (DeleteNetworkACL Examples.adminLeader Examples.bootstrapNodesACL).2 = false.
Proof.
  destruct (delete_network_acl_order Examples.adminLeader Examples.bootstrapNodesACL)
    as (_ & _ & _ & H & _).
  apply H; [reflexivity | vm_compute; discriminate | reflexivity | reflexivity].
Defined.

End AdminProperties.

(** * Properties of the campfire connection *)

Section CampfireProperties.

Import Campfire.

Variable epochLength : Z.
Variable hash : list Byte.byte -> list string -> Z -> N * string.

(** Two times inside the same epoch have the same epoch number. *)
Lemma epochOf_interval (k now : Z) :
  k * epochLength <= now < (k + 1) * epochLength -> epochOf epochLength now = k.
Proof.
  intros H. unfold epochOf. symmetry.
  apply (Z.div_unique_pos now epochLength k (now - k * epochLength)); lia.
Qed.

(** C9. [FindCampFire] is a function of the pre-shared key, the relay list
    and the epoch: at two times that fall in the same epoch it returns the
    same result for the same key and relays, and so [New] goes on with the
    same (relay, secret) pair. *)
Theorem find_campfire_same_epoch (psk : list Byte.byte) (relays : list string)
    (k t1 t2 : Z) :
  k * epochLength <= t1 < (k + 1) * epochLength ->
  k * epochLength <= t2 < (k + 1) * epochLength ->
  FindCampFire epochLength hash t1 psk relays = FindCampFire epochLength hash t2 psk relays /\
  campLocation epochLength hash t1 (mkOptions psk relays) =
    campLocation epochLength hash t2 (mkOptions psk relays).
Proof.
  intros H1 H2.
  assert (E : FindCampFire epochLength hash t1 psk relays =
              FindCampFire epochLength hash t2 psk relays).
  { unfold FindCampFire.
    rewrite (epochOf_interval k t1 H1), (epochOf_interval k t2 H2). reflexivity. }
  split; [exact E|].
  unfold campLocation. cbn [PSK TURNServers]. rewrite E. reflexivity.
Qed.

(** The camp fire [New] returns, when it returns one. *)
Lemma New_returns (w : World) (now : Z) (opts : Options) (cf : CampFire) (t : list Step) :
  New epochLength hash w now opts = (inr cf, t) ->
  cf = mkCampFire 0 None (chan.make 1) None (chan.make 0).
Proof.
  unfold New.
  destruct (campLocation epochLength hash now opts); [discriminate|].
  destruct (WebRTC_NewPeerConnection w); [discriminate|].
  destruct (pc_CreateDataChannel w); [discriminate|].
  destruct (pc_CreateOffer w); [discriminate|].
  destruct (pc_SetLocalDescription w); [discriminate|].
  destruct (localDesc_Unmarshal w); [discriminate|].
  destruct (sd_Marshal w _); [discriminate|].
  destruct (pc_SetRemoteDescription w); [discriminate|].
  intros E. injection E as E _. symmetry. exact E.
Qed.

(** No handler and no method ever assigns [readyc]: a nil [readyc] stays
    nil. *)
Lemma handle_keeps_readyc_nil (w : World) (cf : CampFire) (ev : SessionEvent) :
  readyc cf = None -> readyc (stateOf (handle w cf ev).1) = None.
Proof.
  intros H. destruct ev as [state|c| |]; cbn.
  - destruct state; exact H.
  - destruct c; exact H.
  - unfold onOpen. destruct (dc_Detach w) as [err|rw].
    + destruct (chan.send (errc cf) err); exact H.
    + cbn [errc readyc closeCalls ReadWriteCloser closec].
      destruct (chan.close (errc cf)); cbn; [|exact H].
      rewrite H. cbn. reflexivity.
  - exact H.
Qed.

Lemma session_keeps_readyc_nil (evs : list (World * SessionEvent)) (cf : CampFire) :
  readyc cf = None -> readyc (session cf evs) = None.
Proof.
  revert cf. induction evs as [|[w ev] evs IH]; intros cf H; cbn; [exact H|].
  apply IH, handle_keeps_readyc_nil, H.
Qed.

(** C10. A camp fire returned by [New] has [errc] and [closec] made and
    [readyc] nil.  [Ready()] therefore returns the nil channel, and a receive
    from it blocks in every state the session can get to; the [OnOpen]
    handler, once the data channel is detached, closes [errc] and then panics
    closing the nil [readyc]. *)
Theorem new_leaves_readyc_nil (w : World) (now : Z) (opts : Options)
    (cf : CampFire) (t : list Step) :
  New epochLength hash w now opts = (inr cf, t) ->
  errc cf = chan.make 1 /\
  closec cf = chan.make 0 /\
  readyc cf = None /\
  Ready cf = None /\
  (forall evs, Ready (session cf evs) = None /\
               chan.recv (Ready (session cf evs)) = chan.RecvBlocks) /\
  (forall w' rw, dc_Detach w' = inr rw ->
     (onOpen w' cf).1 =
       Panicked "close of nil channel"
         (mkCampFire 0 (Some rw) (Some (chan.mkMade 1%nat [] true)) None (chan.make 0))) /\
  (forall evs w' rw, dc_Detach w' = inr rw ->
     forall cf', (onOpen w' (session cf evs)).1 <> Returned cf').
Proof.
  intros HN. apply New_returns in HN. subst cf.
  repeat split; try reflexivity.
  - apply session_keeps_readyc_nil. reflexivity.
  - unfold Ready. rewrite session_keeps_readyc_nil; reflexivity.
  - intros w' rw Hd. unfold onOpen. rewrite Hd. reflexivity.
  - intros evs w' rw Hd cf'. unfold onOpen. rewrite Hd.
    cbn [errc readyc closeCalls ReadWriteCloser closec].
    destruct (chan.close (errc (session _ evs))); cbn; [|discriminate].
    rewrite session_keeps_readyc_nil by reflexivity. cbn. discriminate.
Qed.

(** C8, amended.  An error detaching the data channel of a camp fire that
    [New] returned is delivered on [Errors()].  A failure of the underlying
    peer-connection close is dropped: [CampFire.Close] closes the peer
    connection, returns nil whatever that close returned and leaves
    [Errors()] as it was, and so does the close on ICE disconnection. *)
Theorem close_discards_detach_delivers (w : World) (cf : CampFire) :
  ((Close w cf).1.1 = None /\
   (Close w cf).2 = [Called PeerConnectionClose] /\
   closeCalls (Close w cf).1.2 = S (closeCalls cf) /\
   Errors (Close w cf).1.2 = Errors cf) /\
  (Errors (stateOf (onICEConnectionStateChange w cf ICEConnectionStateDisconnected).1)
     = Errors cf) /\
  (forall w0 now opts t e,
     New epochLength hash w0 now opts = (inr cf, t) ->
     dc_Detach w = inl e ->
     exists cf',
       (onOpen w cf).1 = Returned cf' /\
       chan.recv (Errors cf') = chan.Received e (Some (chan.mkMade 1%nat [] false)) /\
       In (cfError "error detaching data channel" [("error", e)]) (logs_of (onOpen w cf).2)).
Proof.
  split; [repeat split|]. split; [reflexivity|].
  intros w0 now opts t e HN Hd. apply New_returns in HN. subst cf.
  unfold onOpen. rewrite Hd. cbn.
  eexists. split; [reflexivity|]. split; [reflexivity|]. auto.
Qed.

End CampfireProperties.

(** C9 at an epoch of one hour: 02:00:00 and 02:59:59 meet at the same
    place. *)
Lemma find_campfire_same_epoch_witness :
  Campfire.FindCampFire Examples.hourEpoch Examples.toyHash 7200
    (list_byte_of_string "hello") ["turn://r1"] =
  Campfire.FindCampFire Examples.hourEpoch Examples.toyHash 10799
    (list_byte_of_string "hello") ["turn://r1"] /\
  Campfire.campLocation Examples.hourEpoch Examples.toyHash 7200 Examples.helloOptions =
  Campfire.campLocation Examples.hourEpoch Examples.toyHash 10799 Examples.helloOptions.
Proof.
  apply (find_campfire_same_epoch Examples.hourEpoch Examples.toyHash
           (list_byte_of_string "hello") ["turn://r1"] 2 7200 10799);
    unfold Examples.hourEpoch; lia.
Defined.

(** C10 on the camp fire [New] returns when pion answers with success. *)
Lemma new_leaves_readyc_nil_witness :
  Campfire.readyc Examples.freshCampFire = None /\
  chan.recv (Campfire.Ready Examples.freshCampFire) = chan.RecvBlocks.
Proof.
  destruct (new_leaves_readyc_nil Examples.hourEpoch Examples.toyHash Examples.pionOK 7200
              Examples.helloOptions Examples.freshCampFire
              (Campfire.New Examples.hourEpoch Examples.toyHash Examples.pionOK 7200
                 Examples.helloOptions).2 eq_refl)
    as (_ & _ & H3 & _ & H5 & _).
  split; [exact H3 | exact (proj2 (H5 []))].
Defined.

(** C8, as stated, fails: closing a fresh camp fire while the peer
    connection's close fails returns nil and leaves nothing to receive from
    [Errors()]. *)
Lemma close_swallows_failure :
  ~ Campfire.close_reports_failure Examples.pionFailing Examples.freshCampFire.
Proof.
  unfold Campfire.close_reports_failure. intros H.
  destruct (H "close failed" eq_refl) as [E | [c E]]; vm_compute in E; discriminate.
Qed.

(** C8 amended, on the fresh camp fire while detaching fails. *)
Lemma close_discards_detach_delivers_witness :
  exists cf',
    (Campfire.onOpen Examples.pionFailing Examples.freshCampFire).1 = Campfire.Returned cf' /\
    chan.recv (Campfire.Errors cf') =
      chan.Received "detach failed" (Some (chan.mkMade 1%nat [] false)).
Proof.
  destruct (close_discards_detach_delivers Examples.hourEpoch Examples.toyHash
              Examples.pionFailing Examples.freshCampFire) as (_ & _ & H).
  destruct (H Examples.pionOK 7200 Examples.helloOptions
              (Campfire.New Examples.hourEpoch Examples.toyHash Examples.pionOK 7200
                 Examples.helloOptions).2 "detach failed" eq_refl eq_refl)
    as (cf' & H1 & H2 & _).
  exists cf'. split; [exact H1 | exact H2].
Defined.

(** * Runs of the models on the scenarios of the specification *)

Section Runs.

Import Examples.

(** Three successive failed heartbeats of [B] on the leader, threshold 3:
    the third one purges [B] and clears its counter. *)
Example run_heartbeat_purge :
  let r := Mesh.deliver ∅ [(leaderA, Mesh.FailedHeartbeatObservation "B");
                            (leaderA, Mesh.FailedHeartbeatObservation "B");
                            (leaderA, Mesh.FailedHeartbeatObservation "B")] in
  Mesh.calls r.2 = [Mesh.RemoveServer "B" true; Mesh.PeersDelete "B"] /\ r.1 !! "B" = None.
Proof. vm_compute. split; reflexivity. Qed.

(** Four failed heartbeats on a follower: counted, nothing called. *)
Example run_follower_counts_only :
  let r := Mesh.deliver ∅ [(followerA, Mesh.FailedHeartbeatObservation "B");
                            (followerA, Mesh.FailedHeartbeatObservation "B");
                            (followerA, Mesh.FailedHeartbeatObservation "B");
                            (followerA, Mesh.FailedHeartbeatObservation "B")] in
  Mesh.calls r.2 = [] /\ r.1 !! "B" = Some 4.
Proof. vm_compute. split; reflexivity. Qed.

(** A resumed heartbeat clears the counter. *)
Example run_resumed_heartbeat :
  (Mesh.observer leaderA twoFailures (Mesh.ResumedHeartbeatObservation "B")).1 !! "B" = None.
Proof. vm_compute. reflexivity. Qed.

(** [B] joins with an IPv4 lease as a voter: raft gets the IPv4 address. *)
Example run_join_ipv4_voter :
  NodeServer.raftAddresses (NodeServer.calls (NodeServer.traceOf
    (NodeServer.Join joinLeader joinB4))) = ["172.16.0.2:9443"].
Proof. vm_compute. reflexivity. Qed.

(** [B] joins without a lease as a non-voter: raft gets the bracketed IPv6
    address. *)
Example run_join_ipv6_nonvoter :
  NodeServer.calls (NodeServer.traceOf (NodeServer.Join joinLeader rejoinB)) =
    [NodeServer.PeersGet "B"; NodeServer.PeersUpdate nodeB; NodeServer.ListPeers "B";
     NodeServer.AddNonVoter "B" "[fd00:0:0:1::]:9443"; NodeServer.RefreshWireguardPeers].
Proof. vm_compute. reflexivity. Qed.

(** [E], registered with an endpoint, joins again listing it: the call
    panics after the lookup, before anything is written. *)
Example run_rejoin_with_endpoints :
  let r := NodeServer.Join MoreExamples.joinLeaderE MoreExamples.rejoinE in
  NodeServer.resultOf r = NodeServer.Panicked /\
  NodeServer.calls (NodeServer.traceOf r) = [NodeServer.PeersGet "E"].
Proof. vm_compute. split; reflexivity. Qed.

(** Deleting an ordinary ACL goes through to storage. *)
Example run_delete_acl :
  let r := Admin.DeleteNetworkACL adminLeader (Admin.mkNetworkACL "foo") in
  r.1 = inr tt /\ Admin.touchesStorage r.2 = true.
Proof. vm_compute. split; reflexivity. Qed.

(** The data channel of a fresh camp fire opens: [errc] is closed, and the
    close of [readyc] panics. *)
Example run_on_open :
  (Campfire.onOpen pionOK freshCampFire).1 =
    Campfire.Panicked "close of nil channel"
      (Campfire.mkCampFire 0 (Some "sctp-stream") (Some (chan.mkMade 1%nat [] true)) None
         (chan.make 0)).
Proof. vm_compute. reflexivity. Qed.

End Runs.

(** * Properties of the string helpers *)

Section StringProperties.

Import strs.

Lemma append_cons (c : ascii) (a b : string) : String c a +:+ b = String c (a +:+ b).
Proof. reflexivity. Qed.

Lemma append_nil (b : string) : "" +:+ b = b.
Proof. reflexivity. Qed.

Lemma prefix_split (p s : string) :
  String.prefix p s = true <-> exists b, s = p +:+ b.
Proof.
  revert s. induction p as [|c p IH]; intros s; cbn.
  - split; [intros _; exists s; reflexivity | intros _; destruct s; reflexivity].
  - destruct s as [|d s]; cbn.
    + split; [discriminate | intros [b E]; rewrite append_cons in E; discriminate].
    + destruct (Ascii.ascii_dec c d) as [->|N].
      * rewrite IH. split; intros [b E]; exists b; rewrite append_cons in *; congruence.
      * split; [discriminate | intros [b E]; rewrite append_cons in E; congruence].
Qed.

Lemma Contains_nil (sub : string) : Contains "" sub = String.prefix sub "".
Proof. destruct sub; reflexivity. Qed.

Lemma Contains_cons (c : ascii) (s sub : string) :
  Contains (String c s) sub =
    if String.prefix sub (String c s) then true else Contains s sub.
Proof. reflexivity. Qed.

(** [Contains] finds the substring wherever it stands. *)
Lemma Contains_spec (s sub : string) :
  Contains s sub = true <-> exists a b, s = a +:+ sub +:+ b.
Proof.
  induction s as [|c s IH].
  - rewrite Contains_nil. split.
    + intros P. apply prefix_split in P as [b E]. exists "", b. exact E.
    + intros (a & b & E).
      destruct a; [rewrite append_nil in E | rewrite append_cons in E; discriminate].
      apply prefix_split. eauto.
  - rewrite Contains_cons.
    destruct (String.prefix sub (String c s)) eqn:P.
    + split; [intros _ | reflexivity].
      apply prefix_split in P as [b E]. exists "", b. exact E.
    + rewrite IH. split.
      * intros (a & b & E). exists (String c a), b. rewrite append_cons. congruence.
      * intros (a & b & E).
        destruct a as [|d a]; [rewrite append_nil in E | rewrite append_cons in E].
        -- assert (String.prefix sub (String c s) = true) by (apply prefix_split; eauto).
           congruence.
        -- injection E as _ E. eauto.
Qed.

Lemma Split_not_nil (s : string) (sep : ascii) : Split s sep <> [].
Proof.
  destruct s as [|a s]; cbn; [discriminate|].
  destruct (Ascii.eqb a sep); [discriminate|].
  destruct (Split s sep); discriminate.
Qed.

(** Joining the pieces of a split gives the string back. *)
Lemma Join_Split (s : string) (sep : ascii) : Join (Split s sep) sep = s.
Proof.
  induction s as [|a s IH]; cbn; [reflexivity|].
  destruct (Ascii.eqb_spec a sep) as [->|N].
  - pose proof (Split_not_nil s sep). cbn.
    destruct (Split s sep) as [|p ps] eqn:E; [contradiction|].
    rewrite append_nil. f_equal. exact IH.
  - pose proof (Split_not_nil s sep).
    destruct (Split s sep) as [|p ps] eqn:E; [contradiction|].
    cbn in *. destruct ps; rewrite ?append_cons; congruence.
Qed.

(** The first piece of a split is the text before the first separator. *)
Lemma Split_hd_app (a b : string) (sep : ascii) :
  containsByte sep a = false ->
  hd EmptyString (Split (a +:+ String sep b) sep) = a.
Proof.
  induction a as [|c a IH]; cbn; intros H.
  - rewrite append_nil. cbn. rewrite Ascii.eqb_refl. reflexivity.
  - rewrite append_cons. cbn.
    destruct (Ascii.eqb c sep); [discriminate|].
    specialize (IH H).
    destruct (Split (a +:+ String sep b) sep); cbn in *; congruence.
Qed.

End StringProperties.

(** * Properties of the mesh DNS options *)

Section MeshDNSProperties.

Import services.

Lemma Validate_error (getenv : string -> string) (o : MeshDNSOptions) :
  (Validate getenv (Some o)).1 =
    if Enabled o && (String.eqb (ListenTCP o) "" && String.eqb (ListenUDP o) "")
    then Some "must specify a TCP or UDP address for mesh DNS" else None.
Proof.
  unfold Validate.
  destruct (Enabled o), (String.eqb (ListenTCP o) ""), (String.eqb (ListenUDP o) ""),
    ((length (Forwarders o) =? 0)%nat), (DisableForwarding o),
    (String.eqb (getenv MeshDNSForwardersEnvVar) ""); reflexivity.
Qed.

(** X1. [Validate] fails exactly for enabled options with neither a TCP nor
    a UDP address, and then leaves the options as they were; a nil receiver
    and disabled options always pass. *)
Theorem validate_error_iff (getenv : string -> string) (o : option MeshDNSOptions) :
  ((Validate getenv o).1 <> None <->
   exists o', o = Some o' /\ Enabled o' = true /\ ListenTCP o' = "" /\ ListenUDP o' = "") /\
  ((Validate getenv o).1 <> None ->
   (Validate getenv o).1 = Some "must specify a TCP or UDP address for mesh DNS" /\
   (Validate getenv o).2 = o).
Proof.
  destruct o as [o|].
  - rewrite Validate_error.
    set (bad := Enabled o && (String.eqb (ListenTCP o) "" && String.eqb (ListenUDP o) "")).
    assert (Hb : bad = true <-> Enabled o = true /\ ListenTCP o = "" /\ ListenUDP o = "").
    { unfold bad. rewrite !andb_true_iff, !String.eqb_eq. tauto. }
    destruct bad.
    + split.
      * split; [intros _; exists o; split; [reflexivity | apply Hb; reflexivity] | discriminate].
      * intros _. split; [reflexivity|].
        destruct Hb as [Hb _]. destruct (Hb eq_refl) as (He & Et & Eu).
        unfold Validate. rewrite He, Et, Eu. reflexivity.
    + split; [|congruence].
      split; [congruence|].
      intros (o' & E & H). injection E as <-. apply Hb in H. discriminate.
  - cbn. split; [|congruence].
    split; [congruence | intros (o' & E & _); discriminate].
Qed.

(** X2. [Validate] changes nothing but the forwarders, and those only when
    the options are enabled and valid, no forwarder is configured,
    forwarding is not disabled and the environment variable is not empty:
    the forwarders are then the comma-separated pieces of the variable (at
    least one, and joined by commas they give the variable back).  Configured
    forwarders are never replaced. *)
Theorem validate_forwarders (getenv : string -> string) (o : MeshDNSOptions) :
  let env := getenv MeshDNSForwardersEnvVar in
  let fromEnv := Enabled o && negb (String.eqb (ListenTCP o) "" && String.eqb (ListenUDP o) "")
                 && (length (Forwarders o) =? 0)%nat && negb (DisableForwarding o)
                 && negb (String.eqb env "") in
  (Validate getenv (Some o)).2 =
    Some (if fromEnv then set_Forwarders o (strs.Split env ","%char) else o) /\
  (fromEnv = true ->
     strs.Split env ","%char <> [] /\ strs.Join (strs.Split env ","%char) ","%char = env) /\
  (Forwarders o <> [] ->
     (Validate getenv (Some o)).2 = Some o).
Proof.
  intros env fromEnv. subst fromEnv env. cbn.
  split; [|split].
  - destruct (Enabled o); cbn; [|reflexivity].
    destruct (String.eqb (ListenTCP o) "" && String.eqb (ListenUDP o) ""); cbn; [reflexivity|].
    destruct ((length (Forwarders o) =? 0)%nat); cbn; [|reflexivity].
    destruct (DisableForwarding o); cbn; [reflexivity|].
    destruct (String.eqb (getenv MeshDNSForwardersEnvVar) ""); reflexivity.
  - intros _. split; [apply Split_not_nil | apply Join_Split].
  - intros Hf. destruct (Forwarders o) as [|f fs] eqn:E; [contradiction|].
    destruct (Enabled o); cbn; [|reflexivity].
    destruct (String.eqb (ListenTCP o) "" && String.eqb (ListenUDP o) ""); reflexivity.
Qed.

End MeshDNSProperties.

(** [Validate] on enabled default options with the forwarders variable
    set. *)
Lemma validate_forwarders_witness :
  strs.Split (MoreExamples.envForwarders services.MeshDNSForwardersEnvVar) ","%char <> [] /\
  strs.Join (strs.Split (MoreExamples.envForwarders services.MeshDNSForwardersEnvVar) ","%char)
    ","%char = MoreExamples.envForwarders services.MeshDNSForwardersEnvVar.
Proof.
  apply (validate_forwarders MoreExamples.envForwarders MoreExamples.dnsEnabled).
  reflexivity.
Defined.

(** * Properties of the mesh state queries *)

Section StateProperties.

Import state.

Lemma publicLoop_entries (s : state.state) (nodes : list Node) :
  forall out m, publicLoop s nodes out = inr m ->
  forall id ap, m !! id = Some ap ->
    out !! id = Some ap \/ exists n, In n nodes /\ publicEntryOf s n id ap.
Proof.
  induction nodes as [|n nodes IH]; intros out m H id ap Hm; cbn in H.
  - injection H as <-. left. exact Hm.
  - destruct (String.eqb_spec (PrimaryEndpoint n) "") as [E|E].
    + destruct (IH _ _ H _ _ Hm) as [Ho | (n' & Hin & Hn')]; [left; exact Ho|].
      right. exists n'. split; [right; exact Hin | exact Hn'].
    + destruct (ParseAddr s (PrimaryEndpoint n)) as [err|addr] eqn:P; [discriminate|].
      destruct (IH _ _ H _ _ Hm) as [Ho | (n' & Hin & Hn')].
      * destruct (decide (ID n = id)) as [<-|N].
        -- rewrite lookup_insert_eq in Ho. injection Ho as <-.
           right. exists n. split; [left; reflexivity|].
           repeat split; auto.
        -- rewrite lookup_insert_ne in Ho by exact N. left. exact Ho.
      * right. exists n'. split; [right; exact Hin | exact Hn'].
Qed.

Lemma publicLoop_keeps (s : state.state) (nodes : list Node) :
  forall out m, publicLoop s nodes out = inr m ->
  forall id, is_Some (out !! id) -> is_Some (m !! id).
Proof.
  induction nodes as [|n nodes IH]; intros out m H id Ho; cbn in H.
  - injection H as <-. exact Ho.
  - destruct (String.eqb (PrimaryEndpoint n) ""); [eapply IH; eauto|].
    destruct (ParseAddr s (PrimaryEndpoint n)) as [err|addr]; [discriminate|].
    eapply IH; [exact H|].
    destruct (decide (ID n = id)) as [<-|N].
    + rewrite lookup_insert_eq. eauto.
    + rewrite lookup_insert_ne by exact N. exact Ho.
Qed.

Lemma publicLoop_covers (s : state.state) (nodes : list Node) :
  forall out m, publicLoop s nodes out = inr m ->
  forall n, In n nodes -> PrimaryEndpoint n <> "" -> is_Some (m !! ID n).
Proof.
  induction nodes as [|n0 nodes IH]; intros out m H n Hin Hne; cbn in H; [destruct Hin|].
  destruct Hin as [->|Hin].
  - destruct (String.eqb_spec (PrimaryEndpoint n) "") as [E|E]; [contradiction|].
    destruct (ParseAddr s (PrimaryEndpoint n)) as [err|addr]; [discriminate|].
    eapply publicLoop_keeps; [exact H|]. rewrite lookup_insert_eq. eauto.
  - destruct (String.eqb (PrimaryEndpoint n0) ""); [eapply IH; eauto|].
    destruct (ParseAddr s (PrimaryEndpoint n0)) as [err|addr]; [discriminate|].
    eapply IH; eauto.
Qed.

Lemma publicLoop_fails (s : state.state) (nodes : list Node) :
  forall out e, publicLoop s nodes out = inl e ->
  exists n err, In n nodes /\ PrimaryEndpoint n <> "" /\
    ParseAddr s (PrimaryEndpoint n) = inl err /\
    e = "parse address for node " +:+ ID n +:+ ": " +:+ err.
Proof.
  induction nodes as [|n nodes IH]; intros out e H; cbn in H; [discriminate|].
  destruct (String.eqb_spec (PrimaryEndpoint n) "") as [E|E].
  - destruct (IH _ _ H) as (n' & err & Hin & Hrest). exists n', err. split; [right|]; auto.
  - destruct (ParseAddr s (PrimaryEndpoint n)) as [err|addr] eqn:P.
    + injection H as <-. exists n, err. split; [left; reflexivity|]. auto.
    + destruct (IH _ _ H) as (n' & err & Hin & Hrest). exists n', err. split; [right|]; auto.
Qed.

Lemma ListPublic_loop (s : state.state) (nodes : list Node) :
  peers_ListPublicNodes s = inr nodes ->
  ListPublicRPCAddresses s = publicLoop s nodes ∅.
Proof.
  intros H. unfold ListPublicRPCAddresses. rewrite H.
  destruct nodes; reflexivity.
Qed.

(** X3. [ListPublicRPCAddresses] lists exactly the nodes with a primary
    endpoint: every entry comes from such a node (its parsed endpoint with
    [uint16] of its gRPC port), every such node has an entry, nodes without
    endpoint are skipped, and the call fails only when the node list cannot
    be read or the endpoint of one of these nodes does not parse. *)
Theorem public_addresses (s : state.state) (nodes : list Node) :
  peers_ListPublicNodes s = inr nodes ->
  (forall m, ListPublicRPCAddresses s = inr m ->
     (forall id ap, m !! id = Some ap -> exists n, In n nodes /\ publicEntryOf s n id ap) /\
     (forall n, In n nodes -> PrimaryEndpoint n <> "" -> is_Some (m !! ID n))) /\
  (forall e, ListPublicRPCAddresses s = inl e ->
     exists n err, In n nodes /\ PrimaryEndpoint n <> "" /\
       ParseAddr s (PrimaryEndpoint n) = inl err /\
       e = "parse address for node " +:+ ID n +:+ ": " +:+ err).
Proof.
  intros H. rewrite (ListPublic_loop s nodes H). split.
  - intros m Hm. split.
    + intros id ap Hl.
      destruct (publicLoop_entries s nodes _ _ Hm _ _ Hl) as [Ho|Hn]; [|exact Hn].
      rewrite lookup_empty in Ho. discriminate.
    + apply (publicLoop_covers s nodes _ _ Hm).
  - apply publicLoop_fails.
Qed.

(** X4. [ListPeerPublicRPCAddresses] never lists [nodeID] and lists every
    other node that has a primary endpoint; it fails whenever
    [ListPublicRPCAddresses] fails, also when the endpoint that does not
    parse is the one of [nodeID] itself. *)
Theorem peer_public_addresses (s : state.state) (nodeID : string) (nodes : list Node) :
  peers_ListPublicNodes s = inr nodes ->
  (forall m, ListPeerPublicRPCAddresses s nodeID = inr m ->
     m !! nodeID = None /\
     (forall id ap, m !! id = Some ap ->
        id <> nodeID /\ exists n, In n nodes /\ publicEntryOf s n id ap) /\
     (forall n, In n nodes -> PrimaryEndpoint n <> "" -> ID n <> nodeID ->
        is_Some (m !! ID n))) /\
  (forall e, ListPeerPublicRPCAddresses s nodeID = inl e <-> ListPublicRPCAddresses s = inl e).
Proof.
  intros H. unfold ListPeerPublicRPCAddresses. rewrite (ListPublic_loop s nodes H).
  destruct (publicLoop s nodes ∅) as [e0|m0] eqn:L; split.
  - intros m E. discriminate.
  - intros e. split; intros E; exact E.
  - intros m E. injection E as <-.
    assert (H1 : forall id ap, m0 !! id = Some ap ->
                   exists n, In n nodes /\ publicEntryOf s n id ap).
    { intros id ap Hl.
      destruct (publicLoop_entries s nodes _ _ L _ _ Hl) as [Ho|Hn]; [|exact Hn].
      rewrite lookup_empty in Ho. discriminate. }
    assert (H2 := publicLoop_covers s nodes _ _ L).
    split; [apply lookup_delete_eq|]. split.
    + intros id ap Hl. destruct (decide (id = nodeID)) as [->|N].
      * rewrite lookup_delete_eq in Hl. discriminate.
      * rewrite lookup_delete_ne in Hl by congruence. split; [exact N | eauto].
    + intros n Hin Hne Hid. rewrite lookup_delete_ne by congruence. eauto.
  - intros e. split; intros E; discriminate.
Qed.

Lemma privateLoop_parse (s : state.state) (n : Node) :
  (if netip.Prefix_IsValid (PrivateIPv4 n)
   then ParseAddr s (prefixIP (PrivateIPv4 n))
   else ParseAddr s (prefixIP (PrivateIPv6 n))) = ParseAddr s (prefixIP (privateSource n)).
Proof. unfold privateSource. destruct (netip.Prefix_IsValid (PrivateIPv4 n)); reflexivity. Qed.

Lemma privateLoop_entries (s : state.state) (nodeID : string) (nodes : list Node) :
  forall out m, privateLoop s nodeID nodes out = inr m ->
  forall id ap, m !! id = Some ap ->
    out !! id = Some ap \/
    (id <> nodeID /\ exists n, In n nodes /\ privateEntryOf s n id ap).
Proof.
  induction nodes as [|n nodes IH]; intros out m H id ap Hm; cbn in H.
  - injection H as <-. left. exact Hm.
  - destruct (String.eqb_spec (ID n) nodeID) as [E|E].
    + destruct (IH _ _ H _ _ Hm) as [Ho | (Hid & n' & Hin & Hn')]; [left; exact Ho|].
      right. split; [exact Hid|]. exists n'. split; [right; exact Hin | exact Hn'].
    + rewrite privateLoop_parse in H.
      destruct (ParseAddr s (prefixIP (privateSource n))) as [err|addr] eqn:P; [discriminate|].
      destruct (IH _ _ H _ _ Hm) as [Ho | (Hid & n' & Hin & Hn')].
      * destruct (decide (ID n = id)) as [<-|N].
        -- rewrite lookup_insert_eq in Ho. injection Ho as <-.
           right. split; [exact E|]. exists n. split; [left; reflexivity|].
           repeat split; auto.
        -- rewrite lookup_insert_ne in Ho by exact N. left. exact Ho.
      * right. split; [exact Hid|]. exists n'. split; [right; exact Hin | exact Hn'].
Qed.

Lemma privateLoop_keeps (s : state.state) (nodeID : string) (nodes : list Node) :
  forall out m, privateLoop s nodeID nodes out = inr m ->
  forall id, is_Some (out !! id) -> is_Some (m !! id).
Proof.
  induction nodes as [|n nodes IH]; intros out m H id Ho; cbn in H.
  - injection H as <-. exact Ho.
  - destruct (String.eqb (ID n) nodeID); [eapply IH; eauto|].
    rewrite privateLoop_parse in H.
    destruct (ParseAddr s (prefixIP (privateSource n))) as [err|addr]; [discriminate|].
    eapply IH; [exact H|].
    destruct (decide (ID n = id)) as [<-|N].
    + rewrite lookup_insert_eq. eauto.
    + rewrite lookup_insert_ne by exact N. exact Ho.
Qed.

Lemma privateLoop_covers (s : state.state) (nodeID : string) (nodes : list Node) :
  forall out m, privateLoop s nodeID nodes out = inr m ->
  forall n, In n nodes -> ID n <> nodeID -> is_Some (m !! ID n).
Proof.
  induction nodes as [|n0 nodes IH]; intros out m H n Hin Hne; cbn in H; [destruct Hin|].
  destruct Hin as [->|Hin].
  - destruct (String.eqb_spec (ID n) nodeID) as [E|E]; [contradiction|].
    rewrite privateLoop_parse in H.
    destruct (ParseAddr s (prefixIP (privateSource n))) as [err|addr]; [discriminate|].
    eapply privateLoop_keeps; [exact H|]. rewrite lookup_insert_eq. eauto.
  - destruct (String.eqb (ID n0) nodeID); [eapply IH; eauto|].
    rewrite privateLoop_parse in H.
    destruct (ParseAddr s (prefixIP (privateSource n0))) as [err|addr]; [discriminate|].
    eapply IH; eauto.
Qed.

Lemma privateLoop_fails (s : state.state) (nodeID : string) (nodes : list Node) :
  forall out e, privateLoop s nodeID nodes out = inl e ->
  exists n err, In n nodes /\ ID n <> nodeID /\
    ParseAddr s (prefixIP (privateSource n)) = inl err /\
    e = "parse address for node " +:+ nodeID +:+ ": " +:+ err.
Proof.
  induction nodes as [|n nodes IH]; intros out e H; cbn in H; [discriminate|].
  destruct (String.eqb_spec (ID n) nodeID) as [E|E].
  - destruct (IH _ _ H) as (n' & err & Hin & Hrest). exists n', err. split; [right|]; auto.
  - rewrite privateLoop_parse in H.
    destruct (ParseAddr s (prefixIP (privateSource n))) as [err|addr] eqn:P.
    + injection H as <-. exists n, err. split; [left; reflexivity|]. auto.
    + destruct (IH _ _ H) as (n' & err & Hin & Hrest). exists n', err. split; [right|]; auto.
Qed.

(** The address text of a valid prefix is the text of its address. *)
Lemma prefixIP_valid (t : string) (bits : Z) :
  containsByte "/"%char t = false ->
  prefixIP (netip.mkPrefix (netip.IP t) bits) = t.
Proof.
  intros H. unfold prefixIP, netip.Prefix_String. cbn [netip.Addr_ netip.Bits].
  apply (Split_hd_app t (Itoa bits) "/"%char H).
Qed.

(** X5. [ListPeerPrivateRPCAddresses] never lists [nodeID] and lists every
    other node, none skipped: under the address of its IPv4 prefix when that
    is valid and of its IPv6 prefix otherwise (the text before the slash),
    with [uint16] of its gRPC port.  When an address does not parse the call
    fails, and the message names [nodeID], not the node whose address
    failed. *)
Theorem peer_private_addresses (s : state.state) (nodeID : string) (nodes : list Node) :
  peers_List s = inr nodes ->
  (forall m, ListPeerPrivateRPCAddresses s nodeID = inr m ->
     m !! nodeID = None /\
     (forall id ap, m !! id = Some ap -> exists n, In n nodes /\ privateEntryOf s n id ap) /\
     (forall n, In n nodes -> ID n <> nodeID -> is_Some (m !! ID n))) /\
  (forall e, ListPeerPrivateRPCAddresses s nodeID = inl e ->
     exists n err, In n nodes /\ ID n <> nodeID /\
       ParseAddr s (prefixIP (privateSource n)) = inl err /\
       e = "parse address for node " +:+ nodeID +:+ ": " +:+ err) /\
  (forall n t bits, netip.Prefix_IsValid (PrivateIPv4 n) = true ->
     PrivateIPv4 n = netip.mkPrefix (netip.IP t) bits ->
     containsByte "/"%char t = false ->
     prefixIP (privateSource n) = t).
Proof.
  intros H. unfold ListPeerPrivateRPCAddresses. rewrite H. split; [|split].
  - intros m Hm.
    assert (Hent := privateLoop_entries s nodeID nodes _ _ Hm).
    split; [|split].
    + destruct (m !! nodeID) as [ap|] eqn:E; [|reflexivity].
      destruct (Hent _ _ E) as [Ho | [Hid _]]; [|contradiction].
      rewrite lookup_empty in Ho. discriminate.
    + intros id ap Hl. destruct (Hent _ _ Hl) as [Ho | [_ Hn]]; [|exact Hn].
      rewrite lookup_empty in Ho. discriminate.
    + apply (privateLoop_covers s nodeID nodes _ _ Hm).
  - apply privateLoop_fails.
  - intros n t bits Hv Hp Ht. unfold privateSource. rewrite Hv, Hp.
    apply prefixIP_valid, Ht.
Qed.

End StateProperties.

(** X3 on a mesh of two nodes: [A], with a primary endpoint, is listed. *)
Lemma public_addresses_witness :
  is_Some ((<["A" := state.AddrPortFrom (netip.IP "198.51.100.1") 8443]> ∅
              : gmap string state.AddrPort) !! "A").
Proof.
  apply (proj2 (proj1 (public_addresses MoreExamples.meshState
                         [MoreExamples.stateNodeA; MoreExamples.stateNodeB] eq_refl)
                 _ eq_refl) MoreExamples.stateNodeA);
    [left; reflexivity | cbn; discriminate].
Defined.

(** X4 on the same mesh, seen from [A]: nothing is listed for [A]. *)
Lemma peer_public_addresses_witness :
  (∅ : gmap string state.AddrPort) !! "A" = None.
Proof.
  apply (proj1 (proj1 (peer_public_addresses MoreExamples.meshState "A"
                         [MoreExamples.stateNodeA; MoreExamples.stateNodeB] eq_refl)
                 ∅ eq_refl)).
Defined.

(** X5 on the same mesh, seen from [B]: [A] is listed under its IPv4
    address. *)
Lemma peer_private_addresses_witness :
  (<["A" := state.AddrPortFrom (netip.IP "172.16.0.1") 8443]> ∅
     : gmap string state.AddrPort) !! "B" = None.
Proof.
  apply (proj1 (proj1 (peer_private_addresses MoreExamples.meshState "B"
                         [MoreExamples.stateNodeA; MoreExamples.stateNodeB] eq_refl)
                 _ eq_refl)).
Defined.

(** * Properties of routes on Windows *)

Section RouteProperties.

Import routes.

(** X6. [Add] succeeds exactly when [netsh] does, whatever it prints; when
    [netsh] fails, the result is [ErrRouteExists] exactly if its output
    has "already in table" or "exists" somewhere in it, and the error of
    [netsh] otherwise.  [Remove] hands the error of [netsh] on as it is. *)
Theorem add_route_result (exec : list string -> string * option error)
    (ifaceName : string) (addr : netip.Prefix) :
  let out := (exec (addCommand ifaceName addr)).1 in
  let err := (exec (addCommand ifaceName addr)).2 in
  let known := (exists a b, out = a +:+ "already in table" +:+ b) \/
               (exists a b, out = a +:+ "exists" +:+ b) in
  (Add exec ifaceName addr = Done <-> err = None) /\
  (Add exec ifaceName addr = ErrRouteExists <-> err <> None /\ known) /\
  (forall e, Add exec ifaceName addr = Failed e <-> err = Some e /\ ~ known) /\
  (forall exec', Remove exec' ifaceName addr =
     match exec' (removeCommand ifaceName addr) with Some e => Failed e | None => Done end).
Proof.
  intros out err known. subst out err known. unfold Add.
  destruct (exec (addCommand ifaceName addr)) as [out [e|]]; cbn [fst snd].
  - assert (K : strs.Contains out "already in table" || strs.Contains out "exists" = true <->
                (exists a b, out = a +:+ "already in table" +:+ b) \/
                (exists a b, out = a +:+ "exists" +:+ b)).
    { rewrite orb_true_iff, !Contains_spec. reflexivity. }
    destruct (strs.Contains out "already in table" || strs.Contains out "exists").
    + assert (K' := proj1 K eq_refl).
      split; [split; discriminate|].
      split; [split; [intros _; split; [discriminate | exact K'] | reflexivity]|].
      split; [|reflexivity].
      intros e'. split; [discriminate | intros [_ N]; contradiction].
    + assert (K' : ~ ((exists a b, out = a +:+ "already in table" +:+ b) \/
                      (exists a b, out = a +:+ "exists" +:+ b))).
      { intros H. apply K in H. discriminate. }
      split; [split; discriminate|].
      split; [split; [discriminate | intros [_ H]; contradiction]|].
      split; [|reflexivity].
      intros e'. split; [intros H; injection H as <-; auto | intros [H _]; congruence].
  - split; [split; reflexivity|].
    split; [split; [discriminate | intros [H _]; congruence]|].
    split; [|reflexivity].
    intros e. split; [discriminate | intros [H _]; discriminate].
Qed.

End RouteProperties.

(** * Further properties of the observer *)

Section ObserverRuns.

Import Mesh MeshRuns.

Lemma deliver_app (a b : list (meshStore * Observation)) (fh : gmap string Z) :
  deliver fh (a ++ b) =
    ((deliver (deliver fh a).1 b).1, (deliver fh a).2 ++ (deliver (deliver fh a).1 b).2).
Proof.
  revert fh. induction a as [|[s ev] a IH]; intros fh; cbn.
  - destruct (deliver fh b); reflexivity.
  - destruct (observer s fh ev) as [fh1 t1]. rewrite IH.
    destruct (deliver fh1 a) as [fh2 t2]. cbn.
    destruct (deliver fh2 b) as [fh3 t3]. cbn. rewrite app_assoc. reflexivity.
Qed.

Lemma run_calls_app (a b : list Step) : calls (a ++ b) = calls a ++ calls b.
Proof.
  induction a as [|x a IH]; cbn; [reflexivity|].
  destruct x; cbn; rewrite IH; reflexivity.
Qed.

Lemma wrap_int_small (z : Z) : - 2 ^ 63 <= z <= 2 ^ 63 - 1 -> wrap_int z = z.
Proof. intros H. unfold wrap_int. rewrite Z.mod_small; lia. Qed.

Lemma count_insert_ne (fh : gmap string Z) (pid other : string) (n : Z) :
  other <> pid -> (<[pid := n]> fh) !! other = fh !! other.
Proof. intros H. apply lookup_insert_ne. congruence. Qed.

(** One failed heartbeat that does not trigger the purge. *)
Lemma quiet_failure (s : meshStore) (fh : gmap string Z) (pid : string) :
  0 < HeartbeatPurgeThreshold s ->
  min_int <= count fh pid < max_int ->
  raft_IsLeader s = false \/ count fh pid + 1 < HeartbeatPurgeThreshold s ->
  (observer s fh (FailedHeartbeatObservation pid)).1 = <[pid := count fh pid + 1]> fh /\
  calls (observer s fh (FailedHeartbeatObservation pid)).2 = [].
Proof.
  intros H0 Hc Hq. unfold observer, onFailedHeartbeat.
  destruct (Z.leb_spec (HeartbeatPurgeThreshold s) 0); [lia|].
  rewrite wrap_int_small by (unfold min_int, max_int in Hc; lia).
  destruct Hq as [Hl|Hlt].
  - rewrite Hl, andb_false_r. cbn. auto.
  - destruct (Z.leb_spec (HeartbeatPurgeThreshold s) (count fh pid + 1)); [lia|].
    cbn. auto.
Qed.

(** A run of failed heartbeats none of which triggers the purge. *)
Lemma quiet_failures (s : meshStore) (pid : string) (k : nat) :
  forall fh,
  0 < HeartbeatPurgeThreshold s ->
  min_int <= count fh pid ->
  count fh pid + Z.of_nat k <= max_int ->
  raft_IsLeader s = false \/ count fh pid + Z.of_nat k < HeartbeatPurgeThreshold s ->
  calls (deliver fh (failures s pid k)).2 = [] /\
  count (deliver fh (failures s pid k)).1 pid = count fh pid + Z.of_nat k /\
  (forall other, other <> pid -> (deliver fh (failures s pid k)).1 !! other = fh !! other).
Proof.
  induction k as [|k IH]; intros fh H0 Hmin Hmax Hq.
  - cbn. split; [reflexivity|]. split; [lia | reflexivity].
  - unfold failures. cbn [replicate deliver]. fold (failures s pid k).
    destruct (quiet_failure s fh pid H0) as [E1 E2]; [lia | destruct Hq; [auto | right; lia] |].
    destruct (observer s fh (FailedHeartbeatObservation pid)) as [fh1 t1]. cbn in E1, E2.
    subst fh1.
    assert (Hc : count (<[pid := count fh pid + 1]> fh) pid = count fh pid + 1)
      by (unfold count at 1; rewrite lookup_insert_eq; reflexivity).
    destruct (IH (<[pid := count fh pid + 1]> fh) H0) as (I1 & I2 & I3);
      [rewrite Hc; lia | rewrite Hc; lia | rewrite Hc; destruct Hq; [auto | right; lia] |].
    destruct (deliver (<[pid := count fh pid + 1]> fh) (failures s pid k)) as [fh2 t2].
    cbn in *. rewrite run_calls_app, E2, I1. split; [reflexivity|].
    split; [rewrite I2, Hc; lia|].
    intros other Ho. rewrite I3 by exact Ho. apply count_insert_ne, Ho.
Qed.

(** X7. On a follower the observer only counts: [k] failed heartbeats of a
    peer in a row raise its counter by [k] (short of the largest [int]),
    call nothing, and leave the counters of the other peers alone. *)
Theorem follower_only_counts (s : meshStore) (fh : gmap string Z) (pid : string) (k : nat) :
  raft_IsLeader s = false ->
  0 < HeartbeatPurgeThreshold s ->
  min_int <= count fh pid ->
  count fh pid + Z.of_nat k <= max_int ->
  calls (deliver fh (failures s pid k)).2 = [] /\
  count (deliver fh (failures s pid k)).1 pid = count fh pid + Z.of_nat k /\
  (forall other, other <> pid -> (deliver fh (failures s pid k)).1 !! other = fh !! other).
Proof.
  intros Hl H0 Hmin Hmax. apply quiet_failures; auto.
Qed.

(** X8. On the leader, with a threshold [T] and a raft that removes the
    server, a peer counted [c < T] times is purged by its [(T - c)]-th
    further failed heartbeat and not before: over that run the only calls
    are one [RemoveServer] followed by one [peers.Delete], made by the last
    observation, and the counter of the peer is gone afterwards. *)
Theorem leader_purges_at_threshold (s : meshStore) (fh : gmap string Z) (pid : string) :
  let T := HeartbeatPurgeThreshold s in
  let c := count fh pid in
  raft_IsLeader s = true ->
  raft_RemoveServer s pid true = None ->
  0 <= c < T -> T <= max_int ->
  calls (deliver fh (failures s pid (Z.to_nat (T - c - 1)))).2 = [] /\
  calls (deliver fh (failures s pid (Z.to_nat (T - c)))).2 =
    [RemoveServer pid true; PeersDelete pid] /\
  (deliver fh (failures s pid (Z.to_nat (T - c)))).1 !! pid = None.
Proof.
  intros T c Hl Hr Hc HT. subst T c.
  set (T := HeartbeatPurgeThreshold s) in *. set (c := count fh pid) in *.
  assert (Hq := quiet_failures s pid (Z.to_nat (T - c - 1)) fh).
  destruct Hq as (Q1 & Q2 & Q3);
    [fold T; lia | fold c; unfold min_int; lia | fold c; lia | right; fold c T; lia |].
  split; [exact Q1|].
  replace (Z.to_nat (T - c)) with (Z.to_nat (T - c - 1) + 1)%nat by lia.
  unfold failures in *. rewrite replicate_add, deliver_app. cbn [fst snd].
  rewrite run_calls_app, Q1. cbn [replicate deliver app].
  set (fh1 := (deliver fh (replicate (Z.to_nat (T - c - 1)) (s, FailedHeartbeatObservation pid))).1)
    in *.
  fold c in Q2. rewrite Z2Nat.id in Q2 by lia.
  pose proof (failed_heartbeat_cases s fh1 pid) as C. cbv zeta in C.
  rewrite Q2 in C. replace (c + (T - c - 1) + 1) with T in C by lia.
  rewrite wrap_int_small in C by (unfold max_int in HT; lia).
  fold T in C.
  destruct C as [(Hle & _) | (_ & [(_ & _ & [(e & He & _) | (_ & Hm & Hcalls)]) | (Hno & _)])].
  - lia.
  - congruence.
  - destruct (observer s fh1 (FailedHeartbeatObservation pid)) as [fh2 t2]. cbn in *.
    rewrite app_nil_r, Hcalls. split; [reflexivity|].
    rewrite Hm. apply lookup_delete_eq.
  - exfalso. apply Hno. split; [lia | exact Hl].
Qed.

(** X9. A resumed heartbeat starts the count anew: on the leader, a run of
    failures that stays below the threshold, a resumed heartbeat, and
    another run of [k2] failures below the threshold call nothing and leave
    the counter at [k2]. *)
Theorem resumed_heartbeat_resets (s : meshStore) (fh : gmap string Z) (pid : string)
    (k1 k2 : nat) :
  let T := HeartbeatPurgeThreshold s in
  0 <= count fh pid ->
  count fh pid + Z.of_nat k1 < T ->
  Z.of_nat k2 < T ->
  T <= max_int ->
  let r := deliver fh (failures s pid k1 ++ [(s, ResumedHeartbeatObservation pid)]
                       ++ failures s pid k2) in
  calls r.2 = [] /\ count r.1 pid = Z.of_nat k2.
Proof.
  intros T H0 H1 H2 HT r. subst r T.
  set (T := HeartbeatPurgeThreshold s) in *.
  destruct (quiet_failures s pid k1 fh) as (Q1 & Q2 & _);
    [fold T; lia | unfold min_int; lia | lia | right; fold T; lia |].
  rewrite deliver_app. cbn [fst snd].
  set (fh1 := (deliver fh (failures s pid k1)).1) in *.
  rewrite run_calls_app, Q1. cbn [app].
  change ([(s, ResumedHeartbeatObservation pid)] ++ failures s pid k2)
    with ((s, ResumedHeartbeatObservation pid) :: failures s pid k2).
  cbn [deliver observer].
  destruct (Z.ltb_spec 0 (HeartbeatPurgeThreshold s)) as [Hp|Hp]; [|fold T in Hp; lia].
  assert (Hc : count (delete pid fh1) pid = 0)
    by (unfold count; rewrite lookup_delete_eq; reflexivity).
  destruct (quiet_failures s pid k2 (delete pid fh1)) as (R1 & R2 & _);
    [fold T; lia | rewrite Hc; unfold min_int; lia | rewrite Hc; lia
    | right; rewrite Hc; fold T; lia |].
  destruct (deliver (delete pid fh1) (failures s pid k2)) as [fh2 t2]. cbn in *.
  split; [exact R1 | rewrite R2, Hc; lia].
Qed.

(** X10. A leader observation with plugin watchers registered emits one
    [LEADER_CHANGE] event carrying the leader's node with status leader when
    the lookup finds the node, and nothing but a warning when it does not;
    without watchers nothing is called.  The test-store flag and the local
    node id play no part in this case. *)
Theorem leader_change_event (s : meshStore) (fh : gmap string Z)
    (leaderAddr leaderID : string) :
  let r := observer s fh (LeaderObservation leaderAddr leaderID) in
  r.1 = fh /\
  (plugins_HasWatchers s = false -> calls r.2 = []) /\
  (plugins_HasWatchers s = true ->
     forall node, peers_Get s leaderID = inr node ->
     calls r.2 =
       [PeersGet leaderID;
        Emit (mkEvent WATCH_EVENT_LEADER_CHANGE (mkMeshNode node CLUSTER_LEADER))]) /\
  (plugins_HasWatchers s = true ->
     forall err, peers_Get s leaderID = inl err ->
     calls r.2 = [PeersGet leaderID] /\
     In (obsWarn "failed to get leader, may be fresh cluster, can't emit event"
           [("error", err)]) (logs r.2)).
Proof.
  intros r. subst r. unfold observer, onLeader. cbn [fst snd].
  split; [reflexivity|]. split; [|split].
  - intros ->. reflexivity.
  - intros -> node ->. cbn. destruct (plugins_Emit s _); reflexivity.
  - intros -> err ->. cbn. auto.
Qed.

(** X11. A peer observation about another node on a store that is not a
    test store always refreshes the wireguard peers first, watchers or not:
    without watchers that is the only call; a failed refresh is logged and
    changes nothing of what is looked up and emitted.  An observation about
    the local node calls nothing. *)
Theorem peer_observation_refreshes (s : meshStore) (fh : gmap string Z)
    (removed : bool) (peer : Server) :
  let r := observer s fh (PeerObservation removed peer) in
  (ServerID peer = nodeID s -> calls r.2 = []) /\
  (testStore s = false -> ServerID peer <> nodeID s ->
     (exists rest, calls r.2 = RefreshPeers :: rest) /\
     (plugins_HasWatchers s = false -> calls r.2 = [RefreshPeers]) /\
     (forall err, nw_RefreshPeers s = Some err ->
        In (obsWarn "wireguard refresh peers" [("error", err)]) (logs r.2)) /\
     (forall answer,
        calls (observer (withRefresh s answer) fh (PeerObservation removed peer)).2
          = calls r.2)).
Proof.
  intros r. subst r. unfold observer, onPeer. cbn [fst snd]. split.
  - intros E. destruct (testStore s); [reflexivity|].
    rewrite E, String.eqb_refl. reflexivity.
  - intros Ht Hs. rewrite Ht.
    destruct (String.eqb_spec (ServerID peer) (nodeID s)) as [E|_]; [contradiction|].
    split; [|split; [|split]].
    + destruct (nw_RefreshPeers s), (plugins_HasWatchers s); cbn;
        try destruct (peers_Get s (ServerID peer)); eauto.
    + intros ->. destruct (nw_RefreshPeers s); reflexivity.
    + intros err ->. destruct (plugins_HasWatchers s); cbn;
        try destruct (peers_Get s (ServerID peer)); cbn; auto.
    + intros answer. cbn [withRefresh testStore nodeID nw_RefreshPeers plugins_HasWatchers
                         peers_Get plugins_Emit].
      rewrite Ht.
      destruct (String.eqb_spec (ServerID peer) (nodeID s)) as [E|_]; [contradiction|].
      destruct answer, (nw_RefreshPeers s), (plugins_HasWatchers s); cbn;
        try destruct (peers_Get s (ServerID peer)); cbn;
        rewrite ?run_calls_app; cbn; try destruct (plugins_Emit s _); reflexivity.
Qed.

End ObserverRuns.

(** X7 on a follower that has seen nothing yet: four failures, counted. *)
Lemma follower_only_counts_witness :
  Mesh.calls (Mesh.deliver ∅ (MeshRuns.failures Examples.followerA "B" 4)).2 = [] /\
  Mesh.count (Mesh.deliver ∅ (MeshRuns.failures Examples.followerA "B" 4)).1 "B" = 0 + 4.
Proof.
  destruct (follower_only_counts Examples.followerA ∅ "B" 4) as (H1 & H2 & _);
    [reflexivity | reflexivity | vm_compute; discriminate | vm_compute; discriminate |].
  split; [exact H1 | exact H2].
Defined.

(** X8 on the leader with threshold 3: the third failure purges [B]. *)
Lemma leader_purges_at_threshold_witness :
  Mesh.calls (Mesh.deliver ∅ (MeshRuns.failures Examples.leaderA "B" 2)).2 = [] /\
  Mesh.calls (Mesh.deliver ∅ (MeshRuns.failures Examples.leaderA "B" 3)).2 =
    [Mesh.RemoveServer "B" true; Mesh.PeersDelete "B"] /\
  (Mesh.deliver ∅ (MeshRuns.failures Examples.leaderA "B" 3)).1 !! "B" = None.
Proof.
  refine (leader_purges_at_threshold Examples.leaderA ∅ "B" eq_refl eq_refl _ _);
    [vm_compute; split; [discriminate | reflexivity] | vm_compute; discriminate].
Defined.

(** X9 on the leader with threshold 3: two failures, a resume, two
    failures. *)
Lemma resumed_heartbeat_resets_witness :
  Mesh.calls (Mesh.deliver ∅ (MeshRuns.failures Examples.leaderA "B" 2
      ++ [(Examples.leaderA, Mesh.ResumedHeartbeatObservation "B")]
      ++ MeshRuns.failures Examples.leaderA "B" 2)).2 = [] /\
  Mesh.count (Mesh.deliver ∅ (MeshRuns.failures Examples.leaderA "B" 2
      ++ [(Examples.leaderA, Mesh.ResumedHeartbeatObservation "B")]
      ++ MeshRuns.failures Examples.leaderA "B" 2)).1 "B" = 2.
Proof.
  apply (resumed_heartbeat_resets Examples.leaderA ∅ "B" 2 2);
    [vm_compute; discriminate | reflexivity | reflexivity | vm_compute; discriminate].
Defined.

(** * Further properties of the Join RPC *)

Section JoinRunProperties.

Import peers NodeServer JoinRuns.

Local Arguments validate : simpl never.
Local Arguments mergePeer : simpl never.
Local Arguments raftAddressOf : simpl never.
Local Arguments renderPeer : simpl never.
Local Arguments netip.Prefix_String : simpl never.
Local Arguments netip.Prefix_IsValid : simpl never.
Local Arguments JoinHostPort : simpl never.
Local Arguments Itoa : simpl never.

(** Runs [Join] from its initial state. *)
Ltac unfold_join :=
  unfold Join, JoinM, afterAdmission, admission, resolvePrefix, upsertPeer, acquireLease,
    addToCluster, deferredRefresh, lift, bind, ret, fail, panic, call, say, getCache, setCache,
    resultOf, cacheOf, traceOf in *;
  cbn in *.

(** Splits on the next answer the run depends on. *)
Ltac split_answer :=
  match goal with
  | |- context [match ?x with _ => _ end] =>
      lazymatch x with
      | context [match _ with _ => _ end] => fail
      | _ => destruct x eqn:?
      end
  end; cbn in *.

(** Every way validation fails is an [InvalidArgument]. *)
Lemma validate_code (s : Server) (req : JoinRequest) (st : Status) :
  validate s req = inl st -> Code_ st = codes.InvalidArgument.
Proof.
  unfold validate.
  destruct (String.eqb (Id req) ""); [intros E; injection E as <-; reflexivity|].
  destruct (ParseKey s (ReqPublicKey req)); [intros E; injection E as <-; reflexivity|].
  destruct (if String.eqb (ReqPrimaryEndpoint req) "" then _ else _);
    [intros E; injection E as <-; reflexivity|].
  destruct (parseEndpoints s (ReqEndpoints req));
    [intros E; injection E as <-; reflexivity | discriminate].
Qed.

Lemma join_invalid_argument_iff (s : Server) (req : JoinRequest) :
  codeOf (resultOf (Join s req)) = Some codes.InvalidArgument <->
  store_IsLeader s = true /\ prefixResolves s /\ exists st, validate s req = inl st.
Proof.
  unfold prefixResolves, codeOf. pose proof (validate_code s req) as Hc.
  unfold_join. destruct (store_IsLeader s); cbn;
    [|split; [discriminate | intros [? _]; discriminate]].
  destruct (validate s req) as [st|v] eqn:V; [specialize (Hc st eq_refl) | clear Hc].
  - repeat split_answer; rewrite ?Hc;
      (split; [ first [ discriminate | intros _; split; [reflexivity|]; split; eauto ]
              | first [ intros _; reflexivity | intros (_ & [?|?] & _); congruence ] ]).
  - repeat split_answer;
      (split; [discriminate | intros (_ & _ & [st E]); discriminate]).
Qed.

Lemma join_failed_precondition_iff (s : Server) (req : JoinRequest) :
  codeOf (resultOf (Join s req)) = Some codes.FailedPrecondition <-> store_IsLeader s = false.
Proof.
  unfold codeOf. pose proof (validate_code s req) as Hc.
  unfold_join. destruct (store_IsLeader s); cbn; [|split; reflexivity].
  destruct (validate s req) as [st|v] eqn:V; [specialize (Hc st eq_refl) | clear Hc];
    repeat split_answer; rewrite ?Hc; split; discriminate.
Qed.

Lemma join_invalid_argument_calls (s : Server) (req : JoinRequest) :
  codeOf (resultOf (Join s req)) = Some codes.InvalidArgument ->
  forallb isGetULAPrefix (calls (traceOf (Join s req))) = true.
Proof.
  unfold codeOf. unfold_join. destruct (store_IsLeader s); cbn; [|discriminate].
  destruct (validate s req) as [st|v] eqn:V;
    repeat split_answer; first [ discriminate | intros _; reflexivity ].
Qed.

Lemma join_code_range (s : Server) (req : JoinRequest) :
  forall c, codeOf (resultOf (Join s req)) = Some c ->
    In c [codes.OK; codes.FailedPrecondition; codes.InvalidArgument; codes.Internal].
Proof.
  unfold codeOf. pose proof (validate_code s req) as Hc.
  unfold_join. destruct (store_IsLeader s); cbn; [|intros c E; injection E as <-; auto].
  destruct (validate s req) as [st|v] eqn:V; [specialize (Hc st eq_refl) | clear Hc];
    repeat split_answer; rewrite ?Hc; intros c E;
    first [ discriminate | injection E as <-; auto ].
Qed.

(** X12. The codes of [Join]: [FailedPrecondition] exactly on a node that
    is not the leader, with nothing called and the cached prefix untouched;
    [InvalidArgument] exactly when, on the leader and past the prefix
    resolution, validation fails, and then nothing but the prefix resolution
    has been called; the only other codes are [OK] and [Internal]. *)
Theorem join_codes (s : Server) (req : JoinRequest) :
  (store_IsLeader s = false ->
     Join s req =
       (Returned (inl (mkStatus codes.FailedPrecondition "not leader")), ulaPrefix s, [])) /\
  (codeOf (resultOf (Join s req)) = Some codes.FailedPrecondition <-> store_IsLeader s = false) /\
  (codeOf (resultOf (Join s req)) = Some codes.InvalidArgument <->
     store_IsLeader s = true /\ prefixResolves s /\ exists st, validate s req = inl st) /\
  (codeOf (resultOf (Join s req)) = Some codes.InvalidArgument ->
     forallb isGetULAPrefix (calls (traceOf (Join s req))) = true) /\
  (forall c, codeOf (resultOf (Join s req)) = Some c ->
     In c [codes.OK; codes.FailedPrecondition; codes.InvalidArgument; codes.Internal]).
Proof.
  split; [|split; [|split; [|split]]].
  - intros Hl. unfold Join, JoinM. rewrite Hl. reflexivity.
  - apply join_failed_precondition_iff.
  - apply join_invalid_argument_iff.
  - apply join_invalid_argument_calls.
  - apply join_code_range.
Qed.

(** X13. A request that passes validation for an id the registry does not
    know creates the peer: one [peers.Create] with the fields of the request
    and an IPv6 network drawn by [Random64] from the mesh prefix, and no
    other registry write; when [Random64] fails the answer is [Internal] and
    nothing is written. *)
Theorem new_peer_created (s : Server) (req : JoinRequest)
    (publicKey : string) (primaryEndpoint : netip.Addr) (endpoints : list netip.Addr) :
  store_IsLeader s = true ->
  prefixResolves s ->
  validate s req = inr (publicKey, primaryEndpoint, endpoints) ->
  peers_Get s (Id req) = ErrNodeNotFound ->
  (forall err, util_Random64 s (resolvedPrefix s) = inl err ->
     resultOf (Join s req) =
       Returned (inl (mkStatus codes.Internal ("failed to generate IPv6 address: " +:+ err))) /\
     registryWrites (traceOf (Join s req)) = []) /\
  (forall networkIPv6, util_Random64 s (resolvedPrefix s) = inr networkIPv6 ->
     registryWrites (traceOf (Join s req)) =
       [PeersCreate (createOptionsOf req publicKey primaryEndpoint endpoints networkIPv6)] /\
     In (Random64 (resolvedPrefix s)) (calls (traceOf (Join s req)))).
Proof.
  intros Hl Hp Hv Hg. unfold resolvedPrefix, createOptionsOf, prefixResolves in *.
  unfold_join. rewrite Hl. cbn. rewrite Hv, Hg. cbn.
  destruct (netip.Prefix_IsValid (ulaPrefix s)) eqn:Hc; cbn.
  - split.
    + intros err ->. cbn. auto.
    + intros v6 ->. cbn. repeat split_answer; (split; [reflexivity | cbn; auto 10]).
  - destruct Hp as [?|Hn]; [discriminate|].
    destruct (meshstate_GetULAPrefix s) as [p e]. cbn in Hn. subst e. cbn. split.
    + intros err ->. cbn. auto.
    + intros v6 ->. cbn. repeat split_answer; (split; [reflexivity | cbn; auto 10]).
Qed.

(** X14. Without [assignIPv4] the IPAM allocator is never called and a
    successful response has an empty [AddressIpv4]; with it, a successful
    response carries the lease [Acquire] returned, and a failing [Acquire]
    makes the call fail with [Internal] before raft is asked anything. *)
Theorem join_lease (s : Server) (req : JoinRequest) :
  (AssignIpv4 req = false ->
     existsb isAcquire (calls (traceOf (Join s req))) = false /\
     forall resp, resultOf (Join s req) = Returned (inr resp) -> AddressIpv4 resp = "") /\
  (AssignIpv4 req = true ->
     (forall resp, resultOf (Join s req) = Returned (inr resp) ->
        exists lease, ipam_Acquire s (Id req) = inr lease /\
                      AddressIpv4 resp = netip.Prefix_String lease) /\
     (forall err, ipam_Acquire s (Id req) = inl err ->
        raftAddresses (calls (traceOf (Join s req))) = [] /\
        codeOf (resultOf (Join s req)) <> Some codes.OK)).
Proof.
  unfold codeOf. pose proof (validate_code s req) as Hc. split.
  - intros Ha. unfold_join. rewrite Ha.
    destruct (store_IsLeader s); cbn; [|split; [reflexivity | discriminate]].
    destruct (validate s req) as [st|v] eqn:V;
      repeat split_answer;
      (split; [reflexivity | intros resp E; first [discriminate | injection E as <-; reflexivity]]).
  - intros Ha. split.
    + unfold_join. rewrite Ha.
      destruct (store_IsLeader s); cbn; [|discriminate].
      destruct (validate s req) as [st|v] eqn:V;
        repeat split_answer;
        intros resp E; first [discriminate | injection E as <-; eexists; split; reflexivity].
    + intros err He. unfold_join. rewrite Ha, He.
      destruct (store_IsLeader s); cbn; [|split; [reflexivity | discriminate]].
      destruct (validate s req) as [st|v] eqn:V; [specialize (Hc st eq_refl) | clear Hc];
        repeat split_answer; rewrite ?Hc; (split; [reflexivity | discriminate]).
Qed.

(** X15. [asVoter] decides the raft call: a request with it never reaches
    [AddNonVoter], one without it never reaches [AddVoter], and a failure of
    the call made is an [Internal] answer. *)
Theorem join_suffrage (s : Server) (req : JoinRequest) :
  (AsVoter req = true -> existsb isAddNonVoter (calls (traceOf (Join s req))) = false) /\
  (AsVoter req = false -> existsb isAddVoter (calls (traceOf (Join s req))) = false) /\
  (existsb isAddVoter (calls (traceOf (Join s req))) = true ->
     forall a err, store_AddVoter s (Id req) a = Some err ->
     In a (raftAddresses (calls (traceOf (Join s req)))) ->
     resultOf (Join s req) =
       Returned (inl (mkStatus codes.Internal ("failed to add candidate: " +:+ err)))) /\
  (existsb isAddNonVoter (calls (traceOf (Join s req))) = true ->
     forall a err, store_AddNonVoter s (Id req) a = Some err ->
     In a (raftAddresses (calls (traceOf (Join s req)))) ->
     resultOf (Join s req) =
       Returned (inl (mkStatus codes.Internal ("failed to add non-voter: " +:+ err)))).
Proof.
  split; [|split; [|split]].
  - intros Hv. unfold_join. rewrite Hv.
    destruct (store_IsLeader s); cbn; [|reflexivity].
    destruct (validate s req) as [st|v] eqn:V; repeat split_answer; reflexivity.
  - intros Hv. unfold_join. rewrite Hv.
    destruct (store_IsLeader s); cbn; [|reflexivity].
    destruct (validate s req) as [st|v] eqn:V; repeat split_answer; reflexivity.
  - unfold_join. unfold raftAddressOf.
    destruct (store_IsLeader s); cbn; [|discriminate].
    destruct (validate s req) as [st|v] eqn:V; repeat split_answer;
      first [ discriminate
            | intros _ a err Ha [<-|[]]; congruence ].
  - unfold_join. unfold raftAddressOf.
    destruct (store_IsLeader s); cbn; [|discriminate].
    destruct (validate s req) as [st|v] eqn:V; repeat split_answer;
      first [ discriminate
            | intros _ a err Ha [<-|[]]; congruence ].
Qed.

Lemma parseEndpoints_withRefresh (s : Server) (answer : option error) (l : list string) :
  parseEndpoints (withRefresh s answer) l = parseEndpoints s l.
Proof.
  induction l as [|e l IH]; cbn; [reflexivity|].
  destruct (ParseAddr s e); [reflexivity|]. rewrite IH. reflexivity.
Qed.

Lemma validate_withRefresh (s : Server) (answer : option error) (req : JoinRequest) :
  validate (withRefresh s answer) req = validate s req.
Proof.
  unfold validate. rewrite parseEndpoints_withRefresh. reflexivity.
Qed.

(** X16. The refresh of the wireguard peers is deferred to the end of a
    call that got past the admission to raft: it is the last call of every
    successful [Join], it is never made by a [Join] that fails or panics,
    and what it answers changes neither the result nor the calls. *)
Theorem join_deferred_refresh (s : Server) (req : JoinRequest) :
  (forall resp, resultOf (Join s req) = Returned (inr resp) ->
     last (calls (traceOf (Join s req))) = Some RefreshWireguardPeers) /\
  (forall st, resultOf (Join s req) = Returned (inl st) ->
     existsb isRefresh (calls (traceOf (Join s req))) = false) /\
  (resultOf (Join s req) = Panicked ->
     existsb isRefresh (calls (traceOf (Join s req))) = false) /\
  (forall answer,
     resultOf (Join (withRefresh s answer) req) = resultOf (Join s req) /\
     calls (traceOf (Join (withRefresh s answer) req)) = calls (traceOf (Join s req))).
Proof.
  split; [|split; [|split]].
  - unfold_join. destruct (store_IsLeader s); cbn; [|discriminate].
    destruct (validate s req) as [st|v] eqn:V; repeat split_answer;
      intros resp E; first [discriminate | reflexivity].
  - unfold_join. destruct (store_IsLeader s); cbn; [|reflexivity].
    destruct (validate s req) as [st|v] eqn:V; repeat split_answer;
      intros st' E; first [discriminate | reflexivity].
  - unfold_join. destruct (store_IsLeader s); cbn; [|reflexivity].
    destruct (validate s req) as [st|v] eqn:V; repeat split_answer;
      intros E; first [discriminate | reflexivity].
  - intros answer. pose proof (validate_withRefresh s answer req) as Hv.
    unfold withRefresh in *. unfold_join. rewrite Hv.
    destruct (store_IsLeader s); cbn; [|split; reflexivity].
    destruct (validate s req) as [st|v] eqn:V; repeat split_answer;
      destruct answer; split; reflexivity.
Qed.

(** X17. The mesh prefix is resolved lazily and kept: [GetULAPrefix] is
    called exactly by a leader whose cached prefix is not valid, at most
    once, and what it returns becomes the cached prefix (also when it
    returns an error); a valid cached prefix is never looked up again. *)
Theorem join_prefix_cache (s : Server) (req : JoinRequest) :
  (existsb isGetULAPrefix (calls (traceOf (Join s req))) = true <->
     store_IsLeader s = true /\ netip.Prefix_IsValid (ulaPrefix s) = false) /\
  (length (List.filter isGetULAPrefix (calls (traceOf (Join s req)))) <= 1)%nat /\
  cacheOf (Join s req) =
    (if store_IsLeader s && negb (netip.Prefix_IsValid (ulaPrefix s))
     then (meshstate_GetULAPrefix s).1 else ulaPrefix s) /\
  (netip.Prefix_IsValid (cacheOf (Join s req)) = true ->
   forall req',
     existsb isGetULAPrefix
       (calls (traceOf (Join (withCache s (cacheOf (Join s req))) req'))) = false).
Proof.
  assert (A : forall s req,
    (existsb isGetULAPrefix (calls (traceOf (Join s req))) = true <->
       store_IsLeader s = true /\ netip.Prefix_IsValid (ulaPrefix s) = false) /\
    (length (List.filter isGetULAPrefix (calls (traceOf (Join s req)))) <= 1)%nat /\
    cacheOf (Join s req) =
      (if store_IsLeader s && negb (netip.Prefix_IsValid (ulaPrefix s))
       then (meshstate_GetULAPrefix s).1 else ulaPrefix s)).
  { clear s req. intros s req. unfold_join.
    destruct (store_IsLeader s); cbn;
      [|split; [split; [discriminate | intros [? _]; discriminate] | split; [lia | reflexivity]]].
    destruct (validate s req) as [st|v] eqn:V; repeat split_answer;
      (split; [split; [first [discriminate | intros _; split; reflexivity]
                      | first [intros _; reflexivity | intros [_ ?]; discriminate]]
              | split; [cbn; lia | reflexivity]]). }
  destruct (A s req) as (A1 & A2 & A3). split; [exact A1|]. split; [exact A2|].
  split; [exact A3|].
  intros Hvalid req'.
  destruct (existsb isGetULAPrefix
              (calls (traceOf (Join (withCache s (cacheOf (Join s req))) req')))) eqn:E;
    [|reflexivity].
  apply (A (withCache s (cacheOf (Join s req))) req') in E as [_ E].
  cbn [withCache ulaPrefix] in E. congruence.
Qed.

(** X18. [Join] does not undo the registry write when a later step fails:
    once the node record has been created or updated, the trace holds that
    one registry write whether the lease, the peer list and the admission to
    raft then succeed or not; a call that ends before the record is written
    writes nothing and asks raft nothing. *)
Theorem join_no_rollback (s : Server) (req : JoinRequest) :
  (forall peer, peerOf s req = Some peer -> store_IsLeader s = true ->
     length (registryWrites (traceOf (Join s req))) = 1%nat) /\
  (peerOf s req = None ->
     raftAddresses (calls (traceOf (Join s req))) = [] /\
     existsb isAcquire (calls (traceOf (Join s req))) = false /\
     forall resp, resultOf (Join s req) <> Returned (inr resp)).
Proof.
  unfold peerOf. split.
  - intros peer Hp Hl. unfold_join. rewrite Hl. cbn.
    destruct (validate s req) as [st|v] eqn:V; repeat split_answer;
      first [ discriminate | reflexivity ].
  - intros Hp. unfold_join.
    destruct (store_IsLeader s); cbn;
      [|split; [reflexivity | split; [reflexivity | intros resp; discriminate]]].
    destruct (validate s req) as [st|v] eqn:V; repeat split_answer;
      first [ discriminate
            | split; [reflexivity | split; [reflexivity | intros resp; discriminate]] ].
Qed.

(** X19. What a re-join makes of a stored record.  When the stored record
    and the request both list endpoints, the comparison of the two lists
    panics and there is no merged record.  Otherwise the id and the overlay
    addresses (the IPv6 network and the IPv4 address) stay; the key, the
    three ports and the endpoint list become those of the request; the
    primary endpoint is replaced only by a valid one, so a request without
    primary endpoint does not erase the stored one.  Merging the same
    request into the result once more changes nothing when the request lists
    no endpoints, and panics when it lists some. *)
Theorem mergePeer_fields (stored : Node) (publicKey : string) (req : JoinRequest)
    (primaryEndpoint : netip.Addr) (endpoints : list netip.Addr) :
  (mergePeer stored publicKey req primaryEndpoint endpoints = None <->
     Endpoints stored <> [] /\ endpoints <> []) /\
  (forall m, mergePeer stored publicKey req primaryEndpoint endpoints = Some m ->
     mergedFrom stored publicKey req primaryEndpoint endpoints m /\
     (endpoints = [] -> mergePeer m publicKey req primaryEndpoint endpoints = Some m) /\
     (endpoints <> [] -> mergePeer m publicKey req primaryEndpoint endpoints = None)).
Proof.
  split; [apply mergePeer_panics|].
  intros m Hm. pose proof (mergePeer_merged _ _ _ _ _ _ Hm) as F.
  split; [exact F|].
  destruct F as (F1 & F2 & F3 & F4 & F5 & F6 & F7 & F8 & F9 & F10). split.
  - intros He. unfold mergePeer. cbv zeta.
    rewrite F4, String.eqb_refl. cbn [negb].
    rewrite F5, Z.eqb_refl. cbn [negb].
    rewrite F6, Z.eqb_refl. cbn [negb].
    rewrite F7, Z.eqb_refl. cbn [negb].
    destruct (netip.Addr_IsValid primaryEndpoint) eqn:E5; cbn [andb].
    + rewrite (F10 eq_refl), String.eqb_refl. cbn [negb].
      rewrite F8, He. reflexivity.
    + rewrite F8, He. reflexivity.
  - intros He. apply mergePeer_panics. rewrite F8. split; exact He.
Qed.

Lemma parseEndpoints_ok (s : Server) (l : list string) :
  forall addrs, parseEndpoints s l = inr addrs ->
  Forall2 (fun e a => ParseAddr s e = inr a) l addrs.
Proof.
  induction l as [|e l IH]; cbn; intros addrs H.
  - injection H as <-. constructor.
  - destruct (ParseAddr s e) as [err|a] eqn:P; [discriminate|].
    destruct (parseEndpoints s l) as [err|r]; [discriminate|].
    injection H as <-. constructor; [exact P | apply IH; reflexivity].
Qed.

Lemma parseEndpoints_fails (s : Server) (l : list string) :
  forall err, parseEndpoints s l = inl err ->
  exists pre e post, l = pre ++ e :: post /\ ParseAddr s e = inl err /\
    Forall (fun x => exists a, ParseAddr s x = inr a) pre.
Proof.
  induction l as [|e l IH]; cbn; intros err H; [discriminate|].
  destruct (ParseAddr s e) as [err'|a] eqn:P.
  - injection H as <-. exists [], e, l. repeat split; auto.
  - destruct (parseEndpoints s l) as [err'|r]; [|discriminate].
    injection H as <-. destruct (IH err' eq_refl) as (pre & e' & post & -> & Pe & Hpre).
    exists (e :: pre), e', post. repeat split; auto. constructor; eauto.
Qed.

(** X20. The endpoints of a request are parsed in order: either every one
    parses, and the parsed list matches the request entry by entry, or the
    request is rejected with [InvalidArgument].  When the id, the key and
    the primary endpoint have passed their checks, the status reads
    [invalid endpoint: ] followed by the error of the first endpoint that
    does not parse, and that is what a leader with the mesh prefix at hand
    answers, having written nothing to the registry. *)
Theorem join_endpoints (s : Server) (req : JoinRequest) :
  (forall publicKey primaryEndpoint endpoints,
     validate s req = inr (publicKey, primaryEndpoint, endpoints) ->
     Forall2 (fun e a => ParseAddr s e = inr a) (ReqEndpoints req) endpoints /\
     length endpoints = length (ReqEndpoints req)) /\
  (forall err, parseEndpoints s (ReqEndpoints req) = inl err ->
     (exists pre e post, ReqEndpoints req = pre ++ e :: post /\ ParseAddr s e = inl err /\
        Forall (fun x => exists a, ParseAddr s x = inr a) pre) /\
     (exists st, validate s req = inl st /\ Code_ st = codes.InvalidArgument) /\
     (Id req <> "" ->
      forall publicKey, ParseKey s (ReqPublicKey req) = inr publicKey ->
      (ReqPrimaryEndpoint req = "" \/
       exists a, ParseAddr s (ReqPrimaryEndpoint req) = inr a) ->
      let st := mkStatus codes.InvalidArgument ("invalid endpoint: " +:+ err) in
      validate s req = inl st /\
      (store_IsLeader s = true -> prefixResolves s ->
       resultOf (Join s req) = Returned (inl st) /\
       registryWrites (traceOf (Join s req)) = []))).
Proof.
  split.
  - intros publicKey primaryEndpoint endpoints. unfold validate.
    destruct (String.eqb (Id req) ""); [discriminate|].
    destruct (ParseKey s (ReqPublicKey req)); [discriminate|].
    destruct (if String.eqb (ReqPrimaryEndpoint req) "" then _ else _); [discriminate|].
    destruct (parseEndpoints s (ReqEndpoints req)) as [err|r] eqn:P; [discriminate|].
    intros E. injection E as _ _ <-.
    pose proof (parseEndpoints_ok s _ _ P) as F. split; [exact F|].
    symmetry. eapply Forall2_length, F.
  - intros err P. split; [apply parseEndpoints_fails, P|]. split.
    + destruct (validate s req) as [st|v] eqn:V.
      * exists st. split; [reflexivity | eapply validate_code, V].
      * exfalso. revert V. unfold validate.
        destruct (String.eqb (Id req) ""); [discriminate|].
        destruct (ParseKey s (ReqPublicKey req)); [discriminate|].
        destruct (if String.eqb (ReqPrimaryEndpoint req) "" then _ else _); [discriminate|].
        rewrite P. discriminate.
    + intros Hid publicKey Hk Hpe st.
      assert (V : validate s req = inl st).
      { unfold validate. apply String.eqb_neq in Hid. rewrite Hid, Hk.
        destruct Hpe as [-> | [a Ha]].
        - cbn. rewrite P. reflexivity.
        - destruct (String.eqb (ReqPrimaryEndpoint req) ""); rewrite ?Ha, P; reflexivity. }
      split; [exact V|].
      intros Hl Hp. unfold prefixResolves in Hp. unfold_join. rewrite Hl. cbn.
      destruct (netip.Prefix_IsValid (ulaPrefix s)); cbn.
      * rewrite V. split; reflexivity.
      * destruct Hp as [?|Hn]; [discriminate|].
        destruct (meshstate_GetULAPrefix s) as [p e]. cbn in Hn. subst e. cbn.
        rewrite V. split; reflexivity.
Qed.

(** X21. A successful [Join] answers with the IPv6 network of the node
    record it went on with and with one wireguard peer per node
    [peers.ListPeers] returned, in that order and under the same ids. *)
Theorem join_response (s : Server) (req : JoinRequest) (resp : JoinResponse) :
  resultOf (Join s req) = Returned (inr resp) ->
  exists peer peerList,
    peerOf s req = Some peer /\
    peers_ListPeers s (Id req) = inr peerList /\
    NetworkIpv6 resp = netip.Prefix_String (NetworkIPv6 peer) /\
    Peers resp = map renderPeer peerList /\
    map wp_Id (Peers resp) = map ID peerList.
Proof.
  assert (R : forall l, map wp_Id (map renderPeer l) = map ID l).
  { induction l as [|p l IH]; cbn; [reflexivity|]. rewrite IH. reflexivity. }
  unfold peerOf. unfold_join.
  destruct (store_IsLeader s); cbn; [|discriminate].
  destruct (validate s req) as [st|v] eqn:V; repeat split_answer;
    intros E; first [ discriminate
                    | injection E as <-; do 2 eexists; cbn;
                      repeat split; try reflexivity; apply R ].
Qed.

End JoinRunProperties.

(** X13 on the leader: [C] is not in the registry and is created. *)
Lemma new_peer_created_witness :
  NodeServer.registryWrites (NodeServer.traceOf
      (NodeServer.Join Examples.joinLeader MoreExamples.joinC)) =
    [NodeServer.PeersCreate
       (JoinRuns.createOptionsOf MoreExamples.joinC Examples.keyC netip.ZeroAddr
          [netip.IP "192.0.2.9"] (netip.mkPrefix (netip.IP "fd00:0:0:2::") 64))].
Proof.
  destruct (new_peer_created Examples.joinLeader MoreExamples.joinC Examples.keyC
              netip.ZeroAddr [netip.IP "192.0.2.9"]) as [_ H];
    [reflexivity | left; reflexivity | reflexivity | reflexivity |].
  exact (proj1 (H (netip.mkPrefix (netip.IP "fd00:0:0:2::") 64) eq_refl)).
Defined.

(** X21 on the leader: the response to [B] asking for an IPv4 address. *)
Lemma join_response_witness :
  exists peer peerList,
    NodeServer.peerOf Examples.joinLeader Examples.joinB4 = Some peer /\
    NodeServer.peers_ListPeers Examples.joinLeader "B" = inr peerList /\
    NodeServer.NetworkIpv6 MoreExamples.responseB4 =
      netip.Prefix_String (peers.NetworkIPv6 peer) /\
    NodeServer.Peers MoreExamples.responseB4 = map NodeServer.renderPeer peerList /\
    map NodeServer.wp_Id (NodeServer.Peers MoreExamples.responseB4) = map peers.ID peerList.
Proof.
  apply (join_response Examples.joinLeader Examples.joinB4 MoreExamples.responseB4).
  reflexivity.
Defined.

(** * Further properties of [DeleteNetworkACL] *)

Section AdminRunProperties.

Import Admin AdminRuns.

(** X22. [DeleteNetworkACL] reaches storage exactly on the leader, for a
    non-empty name that is not system-reserved and a caller the evaluator
    allows, and answers with the empty response exactly when that deletion
    succeeds.  An error the evaluator returns along with a denial is logged;
    one it returns along with an approval is ignored. *)
Theorem delete_network_acl_storage (s : Server) (acl : NetworkACL) :
  let r := DeleteNetworkACL s acl in
  let verdict := rbacEval_Evaluate s (For deleteNetworkACLAction (Name acl)) in
  (touchesStorage r.2 = true <->
     raft_IsLeader s = true /\ Name acl <> "" /\ verdict.1 = true /\
     IsSystemNetworkACL s (Name acl) = false) /\
  (r.1 = inr tt <->
     touchesStorage r.2 = true /\ networking_DeleteNetworkACL s (Name acl) = None) /\
  (evaluates r.2 = true <-> raft_IsLeader s = true /\ Name acl <> "") /\
  (logs r.2 <> [] <->
     raft_IsLeader s = true /\ Name acl <> "" /\ verdict.1 = false /\ verdict.2 <> None).
Proof.
  intros r verdict. subst r verdict. unfold DeleteNetworkACL.
  destruct (raft_IsLeader s); cbn [negb];
    destruct (String.eqb_spec (Name acl) "") as [En|En];
    destruct (rbacEval_Evaluate s (For deleteNetworkACLAction (Name acl))) as [ok err];
    destruct ok; cbn [negb fst snd];
    destruct (IsSystemNetworkACL s (Name acl));
    destruct (networking_DeleteNetworkACL s (Name acl));
    destruct err; cbn;
    (split; [|split; [|split]]);
    (split; [ first [ discriminate | congruence | intros _; repeat split; auto; congruence ]
            | first [ intros _; reflexivity
                    | intros (? & ? & ? & ?); congruence
                    | intros (? & ?); congruence ] ]).
Qed.

End AdminRunProperties.

(** * Further properties of the campfire connection *)

Section CampfireRunProperties.

Import Campfire CampfireRuns.

Variable epochLength : Z.
Variable hash : list Byte.byte -> list string -> Z -> N * string.

Lemma closes_app (a b : list Step) : closes (a ++ b) = (closes a + closes b)%nat.
Proof.
  induction a as [|x a IH]; cbn; [reflexivity|].
  destruct x as [c|l]; [destruct c|]; cbn; rewrite IH; reflexivity.
Qed.

(** X23. [New] closes the peer connection it created exactly when a later
    step fails, and then once, as its last action; a call that fails before
    the connection exists, and a call that succeeds, close nothing. *)
Theorem new_closes_on_failure (w : World) (now : Z) (opts : Options) :
  let r := New epochLength hash w now opts in
  (forall cf, r.1 = inr cf -> closes r.2 = 0%nat /\ connects r.2 = true) /\
  (forall err, r.1 = inl err ->
     (connects r.2 = true /\ WebRTC_NewPeerConnection w = None ->
        closes r.2 = 1%nat /\ last r.2 = Some (Called PeerConnectionClose)) /\
     (connects r.2 = false \/ WebRTC_NewPeerConnection w <> None -> closes r.2 = 0%nat)).
Proof.
  intros r. subst r. unfold New.
  destruct (campLocation epochLength hash now opts) as [e|loc]; cbn.
  - split; [discriminate|]. intros err _. split; [intros [? _]; discriminate | reflexivity].
  - destruct (WebRTC_NewPeerConnection w); cbn.
    + split; [discriminate|]. intros err _.
      split; [intros [_ ?]; discriminate | reflexivity].
    + destruct (pc_CreateDataChannel w); cbn;
        [split; [discriminate | intros err _; split;
           [intros _; split; reflexivity | intros [?|?]; congruence]]|].
      destruct (pc_CreateOffer w); cbn;
        [split; [discriminate | intros err _; split;
           [intros _; split; reflexivity | intros [?|?]; congruence]]|].
      destruct (pc_SetLocalDescription w); cbn;
        [split; [discriminate | intros err _; split;
           [intros _; split; reflexivity | intros [?|?]; congruence]]|].
      destruct (localDesc_Unmarshal w); cbn;
        [split; [discriminate | intros err _; split;
           [intros _; split; reflexivity | intros [?|?]; congruence]]|].
      destruct (sd_Marshal w _); cbn;
        [split; [discriminate | intros err _; split;
           [intros _; split; reflexivity | intros [?|?]; congruence]]|].
      destruct (pc_SetRemoteDescription w); cbn;
        [split; [discriminate | intros err _; split;
           [intros _; split; reflexivity | intros [?|?]; congruence]]|].
      split; [intros cf _; split; reflexivity | discriminate].
Qed.

Lemma substring_all (b : string) : String.substring 0 (String.length b) b = b.
Proof. induction b as [|c b IH]; cbn; [reflexivity|]. rewrite IH. reflexivity. Qed.

Lemma substring_skip (p b : string) :
  String.substring (String.length p) (String.length b) (p +:+ b) = b.
Proof.
  induction p as [|c p IH]; [rewrite append_nil; apply substring_all|].
  rewrite append_cons. cbn. exact IH.
Qed.

Lemma length_append (p b : string) :
  String.length (p +:+ b) = (String.length p + String.length b)%nat.
Proof.
  induction p as [|c p IH]; [reflexivity|]. rewrite append_cons. cbn. rewrite IH. reflexivity.
Qed.

(** Putting a trimmed prefix back gives the string. *)
Lemma TrimPrefix_restore (s p : string) :
  HasPrefix s p = true -> p +:+ TrimPrefix s p = s.
Proof.
  intros H. unfold TrimPrefix. rewrite H. unfold HasPrefix in H.
  apply prefix_split in H as [b ->].
  rewrite length_append.
  replace (String.length p + String.length b - String.length p)%nat
    with (String.length b) by lia.
  rewrite substring_skip. reflexivity.
Qed.

Lemma findFingerprint_none (attributes : list Attribute) :
  hasFingerprint attributes = false -> findFingerprint attributes = "".
Proof.
  unfold hasFingerprint. induction attributes as [|a l IH]; cbn; [reflexivity|].
  destruct (String.eqb (Key a) "fingerprint"); cbn; [discriminate | exact IH].
Qed.

Lemma findFingerprint_first (attributes : list Attribute) :
  hasFingerprint attributes = true ->
  exists pre a post, attributes = pre ++ a :: post /\ Key a = "fingerprint" /\
    findFingerprint attributes = Value a /\
    Forall (fun x => Key x <> "fingerprint") pre.
Proof.
  unfold hasFingerprint. induction attributes as [|a l IH]; cbn; [discriminate|].
  destruct (String.eqb_spec (Key a) "fingerprint") as [E|E]; cbn.
  - intros _. exists [], a, l. repeat split; auto.
  - intros H. destruct (IH H) as (pre & a' & post & -> & Ka & Hf & Hpre).
    exists (a :: pre), a', post. repeat split; auto.
Qed.

(** X24. The answer [New] crafts names the secret as its session and
    carries three attributes.  Its fingerprint is the first [fingerprint]
    attribute of the local description: unchanged when that starts with
    [sha-256 ], with [sha-256 ] put before it otherwise, and the bare
    [sha-256 ] when the local description has no fingerprint at all. *)
Theorem crafted_answer_fingerprint (loc : Location) (attributes : list Attribute) :
  let sd := craftAnswer loc (findFingerprint attributes) in
  sd_SessionName sd = Secret loc /\
  (exists v, sd_Attributes sd =
     [mkAttribute "fingerprint" v; mkAttribute "ice-ufrag" "-"; mkAttribute "ice-pwd" "-"] /\
     (hasFingerprint attributes = false -> v = "sha-256 ") /\
     (hasFingerprint attributes = true ->
        exists pre a post, attributes = pre ++ a :: post /\ Key a = "fingerprint" /\
          Forall (fun x => Key x <> "fingerprint") pre /\
          (HasPrefix (Value a) "sha-256 " = true -> v = Value a) /\
          (HasPrefix (Value a) "sha-256 " = false -> v = "sha-256 " +:+ Value a))).
Proof.
  intros sd. subst sd. unfold craftAnswer. cbn [sd_SessionName sd_Attributes].
  split; [reflexivity|]. eexists. split; [reflexivity|]. split.
  - intros H. rewrite (findFingerprint_none _ H). reflexivity.
  - intros H. destruct (findFingerprint_first _ H) as (pre & a & post & E & Ka & Hf & Hpre).
    exists pre, a, post. rewrite Hf. repeat split; auto.
    + intros Hp. apply (TrimPrefix_restore (Value a) "sha-256 " Hp).
    + intros Hp. unfold TrimPrefix. rewrite Hp. reflexivity.
Qed.


(** X26. Nothing that happens to a camp fire touches [closec]: whatever it
    is to begin with, it is the same channel after any events; on a camp
    fire [New] returned it is therefore never closed and never written, and
    a receive from it never proceeds.  [Close] and the close on ICE
    disconnection change nothing but the peer connection. *)
Theorem closec_never_signalled (cf : CampFire) (evs : list (World * SessionEvent)) :
  closec (session cf evs) = closec cf /\
  (closeCalls cf <= closeCalls (session cf evs))%nat /\
  (forall w, let cf' := (Close w cf).1.2 in
     errc cf' = errc cf /\ readyc cf' = readyc cf /\ closec cf' = closec cf /\
     ReadWriteCloser cf' = ReadWriteCloser cf) /\
  (closec cf = chan.make 0 -> chan.recv (closec (session cf evs)) = chan.RecvBlocks).
Proof.
  assert (A : forall evs cf,
            closec (session cf evs) = closec cf /\
            (closeCalls cf <= closeCalls (session cf evs))%nat).
  { clear. induction evs as [|[w ev] evs IH]; intros cf; cbn; [split; [reflexivity | lia]|].
    destruct (IH (stateOf (handle w cf ev).1)) as [I1 I2].
    assert (S1 : closec (stateOf (handle w cf ev).1) = closec cf /\
                 (closeCalls cf <= closeCalls (stateOf (handle w cf ev).1))%nat).
    { destruct ev as [state|c| |]; cbn.
      - destruct state; cbn; split; (reflexivity || lia).
      - destruct c; cbn; split; (reflexivity || lia).
      - unfold onOpen. destruct (dc_Detach w) as [err|rw].
        + destruct (chan.send (errc cf) err); cbn; split; (reflexivity || lia).
        + cbn [errc readyc closeCalls ReadWriteCloser closec].
          destruct (chan.close (errc cf)); cbn; [|split; (reflexivity || lia)].
          destruct (chan.close (readyc cf)); cbn; split; (reflexivity || lia).
      - split; [reflexivity | lia]. }
    destruct S1 as [S1 S2]. split; [congruence | lia]. }
  destruct (A evs cf) as [A1 A2].
  split; [exact A1|]. split; [exact A2|]. split.
  - intros w. cbn. repeat split.
  - intros H. rewrite A1, H. reflexivity.
Qed.

End CampfireRunProperties.


(** * Properties of the data-channel proxy server *)

Section ProxyProperties.

Import datachannels ProxyRuns.

(** One candidate queued while there is room and ICE is not connected. *)
Lemma candidate_queued (pick : bool) (s : WireGuardProxyServer) (c : ICECandidate)
    (n : nat) (q : list string) :
  mu s = false -> ready (readyc s) = false ->
  candidatec s = Some (chan.mkMade n q false) -> (length q < n)%nat ->
  (onICECandidate pick s (Some c)).1 =
    Returned (set_candidatec s (Some (chan.mkMade n (q ++ [cand_JSON c]) false))).
Proof.
  intros Hm Hr Hc Hl. destruct s; cbn in Hm, Hr, Hc. subst.
  unfold onICECandidate, chan.send. cbn -[Nat.ltb]. rewrite Hr.
  destruct (Nat.ltb_spec (length q) n); [reflexivity | lia].
Qed.

Lemma candidates_queued (pick : bool) (cs : list ICECandidate) :
  forall s n q,
  mu s = false -> ready (readyc s) = false ->
  candidatec s = Some (chan.mkMade n q false) -> (length q + length cs <= n)%nat ->
  candidates pick s cs =
    set_candidatec s (Some (chan.mkMade n (q ++ map cand_JSON cs) false)).
Proof.
  induction cs as [|c cs IH]; intros s n q Hm Hr Hc Hl; cbn [candidates map].
  - rewrite app_nil_r. destruct s; cbn in *. subst. reflexivity.
  - cbn in Hl. rewrite (candidate_queued pick s c n q Hm Hr Hc) by lia.
    cbn [fst stateOf].
    rewrite (IH _ n (q ++ [cand_JSON c])); cbn; auto.
    + rewrite <- app_assoc. reflexivity.
    + rewrite length_app. cbn. lia.
Qed.

(** X27. ICE candidates gathered before the connection is established are
    queued for [Candidates()] in the order they arrive, ten at most: while
    nobody receives, the first ten candidates are buffered and the mutex is
    free again after each; the eleventh leaves its handler blocked on the
    send with the mutex held. *)
Theorem candidates_buffered (pick : bool) (cs : list ICECandidate) (c : ICECandidate) :
  (length cs <= 10)%nat ->
  let s := candidates pick newServer cs in
  buffered (Candidates s) = map cand_JSON cs /\
  mu s = false /\
  (length cs = 10%nat ->
     (onICECandidate pick s (Some c)).1 = Blocked (set_mu s true)) /\
  ((length cs < 10)%nat ->
     buffered (Candidates (stateOf (onICECandidate pick s (Some c)).1)) =
       map cand_JSON cs ++ [cand_JSON c]).
Proof.
  intros Hl s. subst s.
  rewrite (candidates_queued pick cs newServer 10 []) by (cbn; auto; lia).
  cbn [app]. split; [reflexivity|]. split; [reflexivity|]. split.
  - intros H10. unfold onICECandidate, chan.send. cbn -[Nat.ltb].
    rewrite length_map, H10. reflexivity.
  - intros Hlt.
    rewrite (candidate_queued pick _ c 10 (map cand_JSON cs)); cbn; auto.
    rewrite length_map. lia.
Qed.

(** X28. Once ICE is connected the candidate handler gives up its
    candidate without releasing the mutex: on a server whose data channel is
    still open, the first candidate after the connection is established is
    dropped and its handler returns with [mu] locked, and from then on every
    candidate and every ICE state change finds the mutex locked and cannot
    proceed. *)
Theorem candidate_after_connected (w : World) (s : WireGuardProxyServer) (pick : bool)
    (c : ICECandidate) (pair : string * string) :
  mu s = false ->
  readyc s = chan.make 0 ->
  ready (closec s) = false ->
  GetSelectedCandidatePair w = inr pair ->
  let s1 := set_readyc s (Some (chan.mkMade 0 [] true)) in
  let s2 := set_mu s1 true in
  (onICEConnectionStateChange w s ICEConnectionStateConnected).1 = Returned s1 /\
  (onICECandidate pick s1 (Some c)).1 = Returned s2 /\
  Candidates s2 = Candidates s /\
  (forall w' state, (onICEConnectionStateChange w' s2 state).1 = Blocked s2) /\
  (forall pick' c', (onICECandidate pick' s2 (Some c')).1 = Blocked s2).
Proof.
  intros Hm Hr Hc Hp s1 s2. subst s2 s1. split; [|split; [|split; [|split]]].
  - unfold onICEConnectionStateChange. rewrite Hm, Hp, Hr. destruct pair. reflexivity.
  - unfold onICECandidate. cbn [set_readyc set_mu mu readyc closec candidatec].
    rewrite Hm, Hc. reflexivity.
  - reflexivity.
  - intros w' state. reflexivity.
  - intros pick' c'. reflexivity.
Qed.

(** X29. Each channel of the server is closed by one handler, and that
    handler must not run twice: a second data-channel close, a second
    data-channel open and a second establishment of the ICE connection each
    panic closing a closed channel. *)
Theorem handlers_close_once (s s1 : WireGuardProxyServer) :
  ((onClose s).1 = Returned s1 ->
     isClosed (Closed s1) = true /\
     (onClose s1).1 = Panicked "close of closed channel" s1) /\
  (forall w targetPort, (onOpen w targetPort s).1.1 = Returned s1 ->
     isClosed (Candidates s1) = true /\
     forall w' p, (onOpen w' p s1).1.1 = Panicked "close of closed channel" s1) /\
  (forall w pair, GetSelectedCandidatePair w = inr pair ->
     (onICEConnectionStateChange w s ICEConnectionStateConnected).1 = Returned s1 ->
     isClosed (readyc s1) = true /\
     forall w' pair', GetSelectedCandidatePair w' = inr pair' ->
       (onICEConnectionStateChange w' s1 ICEConnectionStateConnected).1 =
         Panicked "close of closed channel" s1).
Proof.
  split; [|split].
  - unfold onClose. destruct (closec s) as [m|] eqn:E; cbn; [|discriminate].
    destruct (chan.closed m) eqn:Ec; cbn; [discriminate|].
    intros H. injection H as <-. cbn. split; reflexivity.
  - intros w p. unfold onOpen. destruct (candidatec s) as [m|] eqn:E; cbn; [|discriminate].
    destruct (chan.closed m) eqn:Ec; cbn; [discriminate|].
    destruct (dc_Detach w); cbn;
      [|destruct (net_DialUDP w); cbn];
      intros H; injection H as <-; cbn; (split; [reflexivity | intros; reflexivity]).
  - intros w pair Hp. unfold onICEConnectionStateChange at 1.
    destruct (mu s) eqn:Hm; [discriminate|]. rewrite Hp. destruct pair as [l r].
    destruct (readyc s) as [m|] eqn:E; cbn; [|discriminate].
    destruct (chan.closed m) eqn:Ec; cbn; [discriminate|].
    intros H. injection H as <-. cbn. split; [reflexivity|].
    intros w' [l' r'] Hp'. unfold onICEConnectionStateChange. cbn. rewrite Hm, Hp'. cbn.
    reflexivity.
Qed.

(** X30. When the data channel opens, [Candidates()] is closed whatever
    follows.  The peer connection is closed by the handler exactly when the
    proxy got as far as copying, however the copies end; when detaching
    fails nothing is closed, and when dialling the interface fails only the
    detached stream is. *)
Theorem on_open_cleanup (w : World) (targetPort : Z) (s s1 : WireGuardProxyServer) :
  (onOpen w targetPort s).1.1 = Returned s1 ->
  isClosed (Candidates s1) = true /\
  buffered (Candidates s1) = buffered (Candidates s) /\
  connCloseCalls s1 = (connCloseCalls s + if proxyStarts w then 1 else 0)%nat /\
  (proxyStarts w = true ->
     last (calls (onOpen w targetPort s).1.2) = Some ConnClose /\
     last (calls (onOpen w targetPort s).2) = Some InterfaceClose) /\
  (forall err, dc_Detach w = Some err ->
     calls (onOpen w targetPort s).1.2 = [Detach] /\ (onOpen w targetPort s).2 = []) /\
  (forall err, dc_Detach w = None -> net_DialUDP w = Some err ->
     calls (onOpen w targetPort s).1.2 = [Detach; DialUDP targetPort; StreamClose] /\
     (onOpen w targetPort s).2 = []).
Proof.
  unfold onOpen, proxyStarts, copyLocalToChannel, Candidates.
  destruct (candidatec s) as [m|] eqn:E; cbn; [|discriminate].
  destruct (chan.closed m) eqn:Ec; cbn; [discriminate|].
  destruct (dc_Detach w) as [e1|]; cbn.
  - intros H. injection H as <-. cbn.
    repeat split; try reflexivity; try lia; try discriminate.
  - destruct (net_DialUDP w) as [e2|]; cbn.
    + intros H. injection H as <-. cbn.
      repeat split; try reflexivity; try lia; try discriminate.
    + intros H. injection H as <-. cbn.
      destruct (copyToLocal w), (copyToChannel w); cbn;
        repeat split; try reflexivity; try lia; try discriminate.
Qed.

End ProxyProperties.

(** X27 on ten candidates and an eleventh. *)
Lemma candidates_buffered_witness :
  ProxyRuns.buffered (datachannels.Candidates
     (datachannels.candidates true datachannels.newServer
        (replicate 10 MoreExamples.candidateA))) =
    map datachannels.cand_JSON (replicate 10 MoreExamples.candidateA) /\
  datachannels.mu (datachannels.candidates true datachannels.newServer
                     (replicate 10 MoreExamples.candidateA)) = false.
Proof.
  destruct (candidates_buffered true (replicate 10 MoreExamples.candidateA)
              MoreExamples.candidateA) as (H1 & H2 & _);
    [cbn; lia |].
  split; [exact H1 | exact H2].
Defined.

(** X28 on the server as built, once ICE is connected. *)
Lemma candidate_after_connected_witness :
  (datachannels.onICECandidate true
     (datachannels.set_readyc datachannels.newServer (Some (chan.mkMade 0 [] true)))
     (Some MoreExamples.candidateA)).1 =
    datachannels.Returned
      (datachannels.set_mu
         (datachannels.set_readyc datachannels.newServer (Some (chan.mkMade 0 [] true)))
         true).
Proof.
  destruct (candidate_after_connected MoreExamples.proxyOK datachannels.newServer true
              MoreExamples.candidateA ("host 10.0.0.1:5000", "host 10.0.0.2:5000")
              eq_refl eq_refl eq_refl eq_refl) as (_ & H & _).
  exact H.
Defined.

(** X30 on the server as built, with a proxy that runs to the end. *)
Lemma on_open_cleanup_witness :
  ProxyRuns.isClosed (datachannels.Candidates
     (datachannels.stateOf (datachannels.onOpen MoreExamples.proxyOK 51820
                              datachannels.newServer).1.1)) = true.
Proof.
  apply (on_open_cleanup MoreExamples.proxyOK 51820 datachannels.newServer
           (datachannels.stateOf (datachannels.onOpen MoreExamples.proxyOK 51820
                                    datachannels.newServer).1.1) eq_refl).
Defined.
